(** * vdev_geom: the GEOM leaf vdev of ZFS, as a shallow embedding

    The C file [sys/cddl/contrib/opensolaris/uts/common/fs/zfs/vdev_geom.c]
    is embedded function by function.  Kernel objects reached through
    pointers ([vdev_t], [struct g_consumer], [struct g_geom]) live in stores
    indexed by object identifiers, so that the aliasing the C code has
    ([cp->private] against [vd->vdev_tsd]) is the aliasing of the model.
    Every function of the file is a computation in a state monad over the
    [world]; a computation is stuck ([None]) where the C code would
    dereference an invalid pointer, divide by zero or fail an assertion.

    The file has the model first (data, state monad, GEOM primitives, the
    functions of vdev_geom.c, the entry points as operations), then the
    concrete inputs and the vocabulary of the properties, then the
    proofs. *)

From stdpp Require Import gmap strings list fin_maps.
From Stdlib Require Import ZArith Lia Ascii.

Local Open Scope Z_scope.

(** ** Constants of the surrounding kernel

    The values of these macros are fixed by headers outside the file
    ([sys/errno.h], [sys/param.h], [sys/fcntl.h], [sys/vdev_impl.h],
    [sys/spa.h], [sys/fs/zfs.h]); the development is parametric in them.
    [VDEV_LABEL_SIZE] is [sizeof (vdev_label_t)] and [vdev_label_offset]
    the function of that name in [vdev_label.c].  An error number is not
    zero. *)
Class SysConsts := {
  ENOENT : Z;
  EIO : Z;
  ENXIO : Z;
  EINVAL : Z;
  ENOTSUP : Z;
  MAXPHYS : Z;
  VDEV_PAD_SIZE : Z;
  SPA_MINBLOCKSIZE : Z;
  FWRITE : Z;
  VDEV_LABELS : nat;
  VDEV_LABEL_SIZE : Z;
  vdev_label_offset : Z -> Z -> Z -> Z;
  ZPOOL_CONFIG_POOL_GUID : string;
  ZPOOL_CONFIG_GUID : string;
  ENOENT_nonzero : ENOENT <> 0;
  EINVAL_nonzero : EINVAL <> 0
}.

(** ** Integer helpers *)

(** [off_t] is a signed 64-bit integer: the value an arithmetic result has
    once it is stored in an [off_t]. *)
Definition off_t (z : Z) : Z := (z + 2 ^ 63) mod 2 ^ 64 - 2 ^ 63.

(** Modelled from the spec: the macro [ISP2] comes from [sys/sysmacros.h],
    which is not part of the sources at hand; the spec reads it as
    "is a power of two".  It is the usual bit test
    [((x) & ((x) - 1)) == 0]. *)
Definition ISP2 (x : Z) : bool := Z.land x (x - 1) =? 0.

(** Modelled from the spec: [highbit] is a helper of the OpenSolaris
    compatibility layer, not part of the sources at hand.  The spec reads
    [highbit(x) - 1] as the base-2 logarithm of [x]: [highbit] numbers the
    bits from one and returns the number of the highest bit that is set,
    zero when none is. *)
Fixpoint highbit_scan (n : nat) (x : Z) : Z :=
  match n with
  | O => 0
  | S n' => if Z.testbit x (Z.of_nat n') then Z.of_nat n else highbit_scan n' x
  end.

Definition highbit (x : Z) : Z := highbit_scan 64 x.

(** ** Data model *)

Inductive vdev_state_t :=
| VDEV_STATE_UNKNOWN
| VDEV_STATE_CLOSED
| VDEV_STATE_OFFLINE
| VDEV_STATE_REMOVED
| VDEV_STATE_CANT_OPEN
| VDEV_STATE_FAULTED
| VDEV_STATE_DEGRADED
| VDEV_STATE_HEALTHY.

Inductive spa_load_state_t :=
| SPA_LOAD_NONE
| SPA_LOAD_OPEN
| SPA_LOAD_IMPORT
| SPA_LOAD_TRYIMPORT
| SPA_LOAD_RECOVER
| SPA_LOAD_ERROR.

#[global] Instance vdev_state_eq_dec : EqDecision vdev_state_t.
Proof. solve_decision. Defined.

#[global] Instance spa_load_state_eq_dec : EqDecision spa_load_state_t.
Proof. solve_decision. Defined.

Inductive vdev_aux_t :=
| VDEV_AUX_NONE
| VDEV_AUX_OPEN_FAILED
| VDEV_AUX_BAD_LABEL.

Inductive spa_async_task := SPA_ASYNC_REMOVE | SPA_ASYNC_CONFIG_UPDATE.

(** The fields of [spa_t] the file reads; it writes none of them. *)
Record spa_t := {
  spa_guid : Z;
  spa_load_state : spa_load_state_t;
  spa_splitting_newspa : bool;
  spa_mode : Z
}.

(** The fields of [vdev_t] the file touches.  [vdev_tsd] is the pointer to
    the consumer, [vdev_is_readable] is what [vdev_readable(vd)] answers
    (computed by the pool manager from state it owns). *)
Record vdev_t := {
  vdev_path : option string;
  vdev_physpath : option string;
  vdev_guid : Z;
  vdev_spa : spa_t;
  vdev_prevstate : vdev_state_t;
  vdev_tsd : option nat;
  vdev_nowritecache : bool;
  vdev_notrim : bool;
  vdev_remove_wanted : bool;
  vdev_delayed_close : bool;
  vs_aux : vdev_aux_t;
  vdev_is_readable : bool
}.

Inductive data_type_t := DATA_TYPE_UINT64 | DATA_TYPE_OTHER.

Record nvpair_t := {
  nvpair_name : string;
  nvpair_type : data_type_t;
  nvpair_value_uint64 : Z
}.

(** A provider as the file sees it.  [pp_labels] lists, per label, the
    configuration a label read unpacks to ([None] where the label is
    misaligned, unreadable or does not unpack); [pp_physpath] is the value
    of the attribute [GEOM::physpath].  [pp_geom_wither] and
    [pp_class_zfs] are the two properties of the provider's geom and class
    the identity scan looks at. *)
Record g_provider := {
  pp_name : string;
  pp_sectorsize : Z;
  pp_mediasize : Z;
  pp_error : Z;
  pp_wither : bool;
  pp_geom_wither : bool;
  pp_class_zfs : bool;
  pp_labels : list (option (list nvpair_t));
  pp_physpath : string
}.

Record g_consumer := {
  cp_geom : nat;
  cp_provider : option nat;
  cp_acr : Z;
  cp_acw : Z;
  cp_ace : Z;
  cp_private : option nat
}.

Inductive orphan_fn := vdev_geom_orphan_fn | vdev_geom_taste_orphan_fn.

Record g_geom := {
  gp_name : string;
  gp_wither : bool;
  gp_consumer : list nat;
  gp_orphan : option orphan_fn;
  gp_attrchanged : bool
}.

Inductive zio_type_t :=
| ZIO_TYPE_NULL
| ZIO_TYPE_READ
| ZIO_TYPE_WRITE
| ZIO_TYPE_FREE
| ZIO_TYPE_CLAIM
| ZIO_TYPE_IOCTL.

Inductive io_cmd_t :=
| DKIOCFLUSHWRITECACHE
| DKIOCTRIM
| DKIOC_OTHER.

Record zio_t := {
  io_type : zio_type_t;
  io_cmd : io_cmd_t;
  io_offset : Z;
  io_size : Z;
  io_error : Z;
  io_vd : nat;
  io_spa : spa_t
}.

(** [BIO_NONE] is the command of a [struct bio] fresh from [g_alloc_bio]
    or [bzero]. *)
Inductive bio_cmd_t := BIO_NONE | BIO_READ | BIO_WRITE | BIO_DELETE | BIO_FLUSH.

#[global] Instance bio_cmd_eq_dec : EqDecision bio_cmd_t.
Proof. solve_decision. Defined.

Inductive bio_done_t := vdev_geom_io_intr_fn.

(** [bio_data] is the offset of the data pointer from the start of the
    caller's buffer, [None] for [NULL]; [bio_to] is the provider the
    request went to; [bio_error] and [bio_resid] are filled in by the
    device layer on completion. *)
Record bio := {
  bio_cmd : bio_cmd_t;
  bio_ordered : bool;
  bio_done : option bio_done_t;
  bio_offset : Z;
  bio_length : Z;
  bio_data : option Z;
  bio_caller1 : option zio_t;
  bio_error : Z;
  bio_resid : Z;
  bio_to : option nat
}.

Inductive pipeline_t := ZIO_PIPELINE_CONTINUE | ZIO_PIPELINE_STOP.

(** What the file asks of its collaborators, in the order it asks. *)
Inductive event :=
| EvZfsLog (fmt : string)
| EvPrintf (fmt : string)
| EvSpaAsyncRequest (spa : spa_t) (task : spa_async_task)
| EvZfsPostRemove (spa : spa_t) (vd : nat)
| EvIoRequest (bp : bio) (cp : nat)
| EvZioInterrupt (zio : zio_t)
| EvTsleep (vd : nat).

(** The state the file runs in.  [w_class_geom] is the geom list of
    [zfs_vdev_class], most recent first; [w_providers] are the providers of
    the system in the order the class, geom and provider lists enumerate
    them; [w_mem] holds the caller's [uint64_t] cells that out-parameters
    point to.  The error code of the [w_tick]-th call into the device layer
    that can fail is [w_oracle w_tick]. *)
Record world := {
  w_vdevs : gmap nat vdev_t;
  w_providers : list g_provider;
  w_geoms : gmap nat g_geom;
  w_class_geom : list nat;
  w_consumers : gmap nat g_consumer;
  w_next : nat;
  w_oracle : nat -> Z;
  w_tick : nat;
  w_mem : gmap nat Z;
  w_log : list event;
  zfs_nocacheflush : bool;
  vdev_geom_bio_flush_disable : Z;
  vdev_geom_bio_delete_disable : Z
}.

(** *** Field updates *)

Definition set_vdev_path (x : option string) (v : vdev_t) : vdev_t :=
  {| vdev_path := x; vdev_physpath := vdev_physpath v; vdev_guid := vdev_guid v;
     vdev_spa := vdev_spa v; vdev_prevstate := vdev_prevstate v;
     vdev_tsd := vdev_tsd v; vdev_nowritecache := vdev_nowritecache v;
     vdev_notrim := vdev_notrim v; vdev_remove_wanted := vdev_remove_wanted v;
     vdev_delayed_close := vdev_delayed_close v; vs_aux := vs_aux v;
     vdev_is_readable := vdev_is_readable v |}.

Definition set_vdev_physpath (x : option string) (v : vdev_t) : vdev_t :=
  {| vdev_path := vdev_path v; vdev_physpath := x; vdev_guid := vdev_guid v;
     vdev_spa := vdev_spa v; vdev_prevstate := vdev_prevstate v;
     vdev_tsd := vdev_tsd v; vdev_nowritecache := vdev_nowritecache v;
     vdev_notrim := vdev_notrim v; vdev_remove_wanted := vdev_remove_wanted v;
     vdev_delayed_close := vdev_delayed_close v; vs_aux := vs_aux v;
     vdev_is_readable := vdev_is_readable v |}.

Definition set_vdev_tsd (x : option nat) (v : vdev_t) : vdev_t :=
  {| vdev_path := vdev_path v; vdev_physpath := vdev_physpath v;
     vdev_guid := vdev_guid v; vdev_spa := vdev_spa v;
     vdev_prevstate := vdev_prevstate v;
     vdev_tsd := x; vdev_nowritecache := vdev_nowritecache v;
     vdev_notrim := vdev_notrim v; vdev_remove_wanted := vdev_remove_wanted v;
     vdev_delayed_close := vdev_delayed_close v; vs_aux := vs_aux v;
     vdev_is_readable := vdev_is_readable v |}.

Definition set_vdev_nowritecache (x : bool) (v : vdev_t) : vdev_t :=
  {| vdev_path := vdev_path v; vdev_physpath := vdev_physpath v;
     vdev_guid := vdev_guid v; vdev_spa := vdev_spa v;
     vdev_prevstate := vdev_prevstate v;
     vdev_tsd := vdev_tsd v; vdev_nowritecache := x;
     vdev_notrim := vdev_notrim v; vdev_remove_wanted := vdev_remove_wanted v;
     vdev_delayed_close := vdev_delayed_close v; vs_aux := vs_aux v;
     vdev_is_readable := vdev_is_readable v |}.

Definition set_vdev_notrim (x : bool) (v : vdev_t) : vdev_t :=
  {| vdev_path := vdev_path v; vdev_physpath := vdev_physpath v;
     vdev_guid := vdev_guid v; vdev_spa := vdev_spa v;
     vdev_prevstate := vdev_prevstate v;
     vdev_tsd := vdev_tsd v; vdev_nowritecache := vdev_nowritecache v;
     vdev_notrim := x; vdev_remove_wanted := vdev_remove_wanted v;
     vdev_delayed_close := vdev_delayed_close v; vs_aux := vs_aux v;
     vdev_is_readable := vdev_is_readable v |}.

Definition set_vdev_remove_wanted (x : bool) (v : vdev_t) : vdev_t :=
  {| vdev_path := vdev_path v; vdev_physpath := vdev_physpath v;
     vdev_guid := vdev_guid v; vdev_spa := vdev_spa v;
     vdev_prevstate := vdev_prevstate v;
     vdev_tsd := vdev_tsd v; vdev_nowritecache := vdev_nowritecache v;
     vdev_notrim := vdev_notrim v; vdev_remove_wanted := x;
     vdev_delayed_close := vdev_delayed_close v; vs_aux := vs_aux v;
     vdev_is_readable := vdev_is_readable v |}.

Definition set_vdev_delayed_close (x : bool) (v : vdev_t) : vdev_t :=
  {| vdev_path := vdev_path v; vdev_physpath := vdev_physpath v;
     vdev_guid := vdev_guid v; vdev_spa := vdev_spa v;
     vdev_prevstate := vdev_prevstate v;
     vdev_tsd := vdev_tsd v; vdev_nowritecache := vdev_nowritecache v;
     vdev_notrim := vdev_notrim v; vdev_remove_wanted := vdev_remove_wanted v;
     vdev_delayed_close := x; vs_aux := vs_aux v;
     vdev_is_readable := vdev_is_readable v |}.

Definition set_vs_aux (x : vdev_aux_t) (v : vdev_t) : vdev_t :=
  {| vdev_path := vdev_path v; vdev_physpath := vdev_physpath v;
     vdev_guid := vdev_guid v; vdev_spa := vdev_spa v;
     vdev_prevstate := vdev_prevstate v;
     vdev_tsd := vdev_tsd v; vdev_nowritecache := vdev_nowritecache v;
     vdev_notrim := vdev_notrim v; vdev_remove_wanted := vdev_remove_wanted v;
     vdev_delayed_close := vdev_delayed_close v; vs_aux := x;
     vdev_is_readable := vdev_is_readable v |}.

Definition set_cp_provider (x : option nat) (c : g_consumer) : g_consumer :=
  {| cp_geom := cp_geom c; cp_provider := x; cp_acr := cp_acr c;
     cp_acw := cp_acw c; cp_ace := cp_ace c; cp_private := cp_private c |}.

Definition set_cp_private (x : option nat) (c : g_consumer) : g_consumer :=
  {| cp_geom := cp_geom c; cp_provider := cp_provider c; cp_acr := cp_acr c;
     cp_acw := cp_acw c; cp_ace := cp_ace c; cp_private := x |}.

Definition add_cp_access (dcr dcw dce : Z) (c : g_consumer) : g_consumer :=
  {| cp_geom := cp_geom c; cp_provider := cp_provider c;
     cp_acr := cp_acr c + dcr; cp_acw := cp_acw c + dcw;
     cp_ace := cp_ace c + dce; cp_private := cp_private c |}.

Definition set_gp_wither (x : bool) (g : g_geom) : g_geom :=
  {| gp_name := gp_name g; gp_wither := x; gp_consumer := gp_consumer g;
     gp_orphan := gp_orphan g; gp_attrchanged := gp_attrchanged g |}.

Definition set_gp_consumer (x : list nat) (g : g_geom) : g_geom :=
  {| gp_name := gp_name g; gp_wither := gp_wither g; gp_consumer := x;
     gp_orphan := gp_orphan g; gp_attrchanged := gp_attrchanged g |}.

Definition set_gp_callbacks (o : option orphan_fn) (a : bool) (g : g_geom) : g_geom :=
  {| gp_name := gp_name g; gp_wither := gp_wither g;
     gp_consumer := gp_consumer g; gp_orphan := o; gp_attrchanged := a |}.

Definition set_io_error (x : Z) (z : zio_t) : zio_t :=
  {| io_type := io_type z; io_cmd := io_cmd z; io_offset := io_offset z;
     io_size := io_size z; io_error := x; io_vd := io_vd z;
     io_spa := io_spa z |}.

Definition set_w_vdevs (f : gmap nat vdev_t -> gmap nat vdev_t) (w : world) : world :=
  {| w_vdevs := f (w_vdevs w); w_providers := w_providers w;
     w_geoms := w_geoms w; w_class_geom := w_class_geom w;
     w_consumers := w_consumers w; w_next := w_next w;
     w_oracle := w_oracle w; w_tick := w_tick w; w_mem := w_mem w;
     w_log := w_log w; zfs_nocacheflush := zfs_nocacheflush w;
     vdev_geom_bio_flush_disable := vdev_geom_bio_flush_disable w;
     vdev_geom_bio_delete_disable := vdev_geom_bio_delete_disable w |}.

Definition set_w_providers (f : list g_provider -> list g_provider) (w : world) : world :=
  {| w_vdevs := w_vdevs w; w_providers := f (w_providers w);
     w_geoms := w_geoms w; w_class_geom := w_class_geom w;
     w_consumers := w_consumers w; w_next := w_next w;
     w_oracle := w_oracle w; w_tick := w_tick w; w_mem := w_mem w;
     w_log := w_log w; zfs_nocacheflush := zfs_nocacheflush w;
     vdev_geom_bio_flush_disable := vdev_geom_bio_flush_disable w;
     vdev_geom_bio_delete_disable := vdev_geom_bio_delete_disable w |}.

Definition set_w_geoms (f : gmap nat g_geom -> gmap nat g_geom) (w : world) : world :=
  {| w_vdevs := w_vdevs w; w_providers := w_providers w;
     w_geoms := f (w_geoms w); w_class_geom := w_class_geom w;
     w_consumers := w_consumers w; w_next := w_next w;
     w_oracle := w_oracle w; w_tick := w_tick w; w_mem := w_mem w;
     w_log := w_log w; zfs_nocacheflush := zfs_nocacheflush w;
     vdev_geom_bio_flush_disable := vdev_geom_bio_flush_disable w;
     vdev_geom_bio_delete_disable := vdev_geom_bio_delete_disable w |}.

Definition set_w_class_geom (f : list nat -> list nat) (w : world) : world :=
  {| w_vdevs := w_vdevs w; w_providers := w_providers w;
     w_geoms := w_geoms w; w_class_geom := f (w_class_geom w);
     w_consumers := w_consumers w; w_next := w_next w;
     w_oracle := w_oracle w; w_tick := w_tick w; w_mem := w_mem w;
     w_log := w_log w; zfs_nocacheflush := zfs_nocacheflush w;
     vdev_geom_bio_flush_disable := vdev_geom_bio_flush_disable w;
     vdev_geom_bio_delete_disable := vdev_geom_bio_delete_disable w |}.

Definition set_w_consumers (f : gmap nat g_consumer -> gmap nat g_consumer) (w : world) : world :=
  {| w_vdevs := w_vdevs w; w_providers := w_providers w;
     w_geoms := w_geoms w; w_class_geom := w_class_geom w;
     w_consumers := f (w_consumers w); w_next := w_next w;
     w_oracle := w_oracle w; w_tick := w_tick w; w_mem := w_mem w;
     w_log := w_log w; zfs_nocacheflush := zfs_nocacheflush w;
     vdev_geom_bio_flush_disable := vdev_geom_bio_flush_disable w;
     vdev_geom_bio_delete_disable := vdev_geom_bio_delete_disable w |}.

Definition set_w_next (f : nat -> nat) (w : world) : world :=
  {| w_vdevs := w_vdevs w; w_providers := w_providers w;
     w_geoms := w_geoms w; w_class_geom := w_class_geom w;
     w_consumers := w_consumers w; w_next := f (w_next w);
     w_oracle := w_oracle w; w_tick := w_tick w; w_mem := w_mem w;
     w_log := w_log w; zfs_nocacheflush := zfs_nocacheflush w;
     vdev_geom_bio_flush_disable := vdev_geom_bio_flush_disable w;
     vdev_geom_bio_delete_disable := vdev_geom_bio_delete_disable w |}.

Definition set_w_tick (f : nat -> nat) (w : world) : world :=
  {| w_vdevs := w_vdevs w; w_providers := w_providers w;
     w_geoms := w_geoms w; w_class_geom := w_class_geom w;
     w_consumers := w_consumers w; w_next := w_next w;
     w_oracle := w_oracle w; w_tick := f (w_tick w); w_mem := w_mem w;
     w_log := w_log w; zfs_nocacheflush := zfs_nocacheflush w;
     vdev_geom_bio_flush_disable := vdev_geom_bio_flush_disable w;
     vdev_geom_bio_delete_disable := vdev_geom_bio_delete_disable w |}.

Definition set_w_mem (f : gmap nat Z -> gmap nat Z) (w : world) : world :=
  {| w_vdevs := w_vdevs w; w_providers := w_providers w;
     w_geoms := w_geoms w; w_class_geom := w_class_geom w;
     w_consumers := w_consumers w; w_next := w_next w;
     w_oracle := w_oracle w; w_tick := w_tick w; w_mem := f (w_mem w);
     w_log := w_log w; zfs_nocacheflush := zfs_nocacheflush w;
     vdev_geom_bio_flush_disable := vdev_geom_bio_flush_disable w;
     vdev_geom_bio_delete_disable := vdev_geom_bio_delete_disable w |}.

Definition set_w_log (f : list event -> list event) (w : world) : world :=
  {| w_vdevs := w_vdevs w; w_providers := w_providers w;
     w_geoms := w_geoms w; w_class_geom := w_class_geom w;
     w_consumers := w_consumers w; w_next := w_next w;
     w_oracle := w_oracle w; w_tick := w_tick w; w_mem := w_mem w;
     w_log := f (w_log w); zfs_nocacheflush := zfs_nocacheflush w;
     vdev_geom_bio_flush_disable := vdev_geom_bio_flush_disable w;
     vdev_geom_bio_delete_disable := vdev_geom_bio_delete_disable w |}.

(** ** The state monad *)

Definition M (A : Type) : Type := world -> option (A * world).

Definition ret {A} (a : A) : M A := fun w => Some (a, w).

Definition bind {A B} (m : M A) (k : A -> M B) : M B :=
  fun w => match m w with
           | Some (a, w') => k a w'
           | None => None
           end.

Definition stuck {A} : M A := fun _ => None.

Definition gets {A} (f : world -> A) : M A := fun w => Some (f w, w).

Definition modify (f : world -> world) : M unit := fun w => Some (tt, f w).

Declare Scope m_scope.
Delimit Scope m_scope with M.
Notation "'let*' x ':=' m 'in' k" := (bind m (fun x => k))
  (at level 10, x binder, m at level 200, k at level 200) : m_scope.
Notation "m ';;' k" := (bind m (fun _ => k))
  (at level 100, k at level 200, right associativity) : m_scope.
Local Open Scope m_scope.

(** Dereferencing: [None] is an invalid pointer. *)
Definition deref {A} (o : option A) : M A :=
  match o with
  | Some a => ret a
  | None => stuck
  end.

Definition vdev_get (vd : nat) : M vdev_t :=
  let* m := gets w_vdevs in deref (m !! vd).

Definition vdev_set (vd : nat) (f : vdev_t -> vdev_t) : M unit :=
  let* v := vdev_get vd in modify (set_w_vdevs (insert vd (f v))).

Definition consumer_get (cp : nat) : M g_consumer :=
  let* m := gets w_consumers in deref (m !! cp).

Definition consumer_set (cp : nat) (f : g_consumer -> g_consumer) : M unit :=
  let* c := consumer_get cp in modify (set_w_consumers (insert cp (f c))).

Definition geom_get (gp : nat) : M g_geom :=
  let* m := gets w_geoms in deref (m !! gp).

Definition geom_set (gp : nat) (f : g_geom -> g_geom) : M unit :=
  let* g := geom_get gp in modify (set_w_geoms (insert gp (f g))).

Definition provider_get (pp : nat) : M g_provider :=
  let* l := gets w_providers in deref (l !! pp).

Definition mem_write (ptr : nat) (x : Z) : M unit :=
  modify (set_w_mem (insert ptr x)).

Definition emit (e : event) : M unit :=
  modify (set_w_log (fun l => l ++ [e])).

Definition ZFS_LOG (fmt : string) : M unit := emit (EvZfsLog fmt).

Definition printf (fmt : string) : M unit := emit (EvPrintf fmt).

(** The answer of the device layer to the next call that can fail. *)
Definition oracle_next : M Z :=
  fun w => Some (w_oracle w (w_tick w), set_w_tick S w).

Definition alloc : M nat :=
  fun w => Some (w_next w, set_w_next S w).

(** ** The GEOM primitives the file calls

    Modelled from the spec: the GEOM layer is an external collaborator
    ("attach/detach a consumer to a provider; acquire/release
    read-write-exclusive claims; issue an asynchronous transfer;
    synchronously read a named device attribute").  Each primitive does its
    bookkeeping on the stores; whether a call that can fail does fail is
    the oracle's choice.  [g_destroy_geom] asserts that the geom has no
    consumer left. *)

Definition g_new_geomf (name : string) : M nat :=
  let* gp := alloc in
  modify (set_w_geoms (insert gp
    {| gp_name := name; gp_wither := false; gp_consumer := [];
       gp_orphan := None; gp_attrchanged := false |}));;
  modify (set_w_class_geom (cons gp));;
  ret gp.

Definition g_new_consumer (gp : nat) : M nat :=
  let* g := geom_get gp in
  let* cp := alloc in
  modify (set_w_consumers (insert cp
    {| cp_geom := gp; cp_provider := None; cp_acr := 0; cp_acw := 0;
       cp_ace := 0; cp_private := None |}));;
  geom_set gp (set_gp_consumer (cp :: gp_consumer g));;
  ret cp.

Definition g_attach (cp pp : nat) : M Z :=
  let* _ := consumer_get cp in
  let* _ := provider_get pp in
  let* error := oracle_next in
  if error =? 0
  then consumer_set cp (set_cp_provider (Some pp));; ret 0
  else ret error.

Definition g_access (cp : nat) (dcr dcw dce : Z) : M Z :=
  let* _ := consumer_get cp in
  let* error := oracle_next in
  if error =? 0
  then consumer_set cp (add_cp_access dcr dcw dce);; ret 0
  else ret error.

Definition g_detach (cp : nat) : M unit :=
  consumer_set cp (set_cp_provider None).

Definition g_destroy_consumer (cp : nat) : M unit :=
  let* c := consumer_get cp in
  let* g := geom_get (cp_geom c) in
  geom_set (cp_geom c)
    (set_gp_consumer (filter (fun x => x ≠ cp) (gp_consumer g)));;
  modify (set_w_consumers (delete cp)).

Definition g_wither_geom (gp : nat) : M unit :=
  geom_set gp (set_gp_wither true).

Definition g_destroy_geom (gp : nat) : M unit :=
  let* g := geom_get gp in
  match gp_consumer g with
  | _ :: _ => stuck
  | [] =>
      modify (set_w_class_geom (filter (fun x => x ≠ gp)));;
      modify (set_w_geoms (delete gp))
  end.

Fixpoint provider_index (name : string) (l : list g_provider) (i : nat) : option nat :=
  match l with
  | [] => None
  | p :: l' => if String.eqb (pp_name p) name then Some i
               else provider_index name l' (S i)
  end.

Definition g_provider_by_name (name : string) : M (option nat) :=
  let* l := gets w_providers in ret (provider_index name l 0%nat).

Definition g_io_getattr (cp : nat) : M (Z * string) :=
  let* c := consumer_get cp in
  let* pp := deref (cp_provider c) in
  let* p := provider_get pp in
  let* error := oracle_next in
  ret (error, pp_physpath p).

Definition g_io_request (bp : bio) (cp : nat) : M unit :=
  emit (EvIoRequest bp cp).

Definition biowait : M Z := oracle_next.

Definition spa_async_request (spa : spa_t) (task : spa_async_task) : M unit :=
  emit (EvSpaAsyncRequest spa task).

Definition zfs_post_remove (spa : spa_t) (vd : nat) : M unit :=
  emit (EvZfsPostRemove spa vd).

Definition zio_interrupt (zio : zio_t) : M unit :=
  emit (EvZioInterrupt zio).

Definition tsleep (vd : nat) : M unit := emit (EvTsleep vd).

(** The string a [char *] advanced by [n] points to. *)
Fixpoint string_drop (n : nat) (s : string) : string :=
  match n, s with
  | O, _ => s
  | S n', String _ s' => string_drop n' s'
  | S _, EmptyString => EmptyString
  end.

Definition starts_with_slash (s : string) : bool :=
  match s with
  | String c _ => Ascii.eqb c "/"%char
  | EmptyString => false
  end.

(** ** The functions of vdev_geom.c *)

Section vdev_geom.
Context {K : SysConsts}.

(** [vdev_geom_orphan], lines 64-93. *)
Definition vdev_geom_orphan (cp : nat) : M unit :=
  let* c := consumer_get cp in
  match cp_private c with
  | None => ret tt
  | Some vd =>
      vdev_set vd (set_vdev_remove_wanted true);;
      let* v := vdev_get vd in
      spa_async_request (vdev_spa v) SPA_ASYNC_REMOVE
  end.

(** [vdev_geom_attrchanged], lines 95-146.  Taking and dropping the
    configuration lock around the release of the old string changes no
    state of the model. *)
Definition vdev_geom_attrchanged (cp : nat) (attr : string) : M unit :=
  if negb (String.eqb attr "GEOM::physpath") then ret tt else
  let* error := g_access cp 1 0 0 in
  if negb (error =? 0) then ret tt else
  let* c := consumer_get cp in
  let* vd := deref (cp_private c) in
  let* v := vdev_get vd in
  let spa := vdev_spa v in
  let* r := g_io_getattr cp in
  g_access cp (-1) 0 0;;
  if fst r =? 0 then
    vdev_set vd (set_vdev_physpath (Some (snd r)));;
    spa_async_request spa SPA_ASYNC_CONFIG_UPDATE
  else ret tt.

(** The first loop of [vdev_geom_attach], lines 158-164. *)
Fixpoint find_zfs_vdev_geom (l : list nat) : M (option nat) :=
  match l with
  | [] => ret None
  | gp :: l' =>
      let* g := geom_get gp in
      if gp_wither g then find_zfs_vdev_geom l'
      else if negb (String.eqb (gp_name g) "zfs::vdev") then find_zfs_vdev_geom l'
      else ret (Some gp)
  end.

(** The consumer loop of [vdev_geom_attach], lines 181-186. *)
Fixpoint find_consumer (l : list nat) (pp : nat) : M (option nat) :=
  match l with
  | [] => ret None
  | cp :: l' =>
      let* c := consumer_get cp in
      if bool_decide (cp_provider c = Some pp)
      then ZFS_LOG "Found consumer for %s.";; ret (Some cp)
      else find_consumer l' pp
  end.

(** [vdev_geom_attach], lines 148-212. *)
Definition vdev_geom_attach (pp vd : nat) : M (option nat) :=
  ZFS_LOG "Attaching to %s.";;
  let* l := gets w_class_geom in
  let* found := find_zfs_vdev_geom l in
  let* cp :=
    match found with
    | None =>
        let* gp := g_new_geomf "zfs::vdev" in
        geom_set gp (set_gp_callbacks (Some vdev_geom_orphan_fn) true);;
        let* cp := g_new_consumer gp in
        let* e := g_attach cp pp in
        if negb (e =? 0) then g_wither_geom gp;; ret None else
        let* e := g_access cp 1 0 1 in
        if negb (e =? 0) then g_wither_geom gp;; ret None else
        ZFS_LOG "Created geom and consumer for %s.";;
        ret (Some cp)
    | Some gp =>
        let* g := geom_get gp in
        let* known := find_consumer (gp_consumer g) pp in
        match known with
        | None =>
            let* cp := g_new_consumer gp in
            let* e := g_attach cp pp in
            if negb (e =? 0) then g_destroy_consumer cp;; ret None else
            let* e := g_access cp 1 0 1 in
            if negb (e =? 0)
            then g_detach cp;; g_destroy_consumer cp;; ret None
            else ZFS_LOG "Created consumer for %s.";; ret (Some cp)
        | Some cp =>
            let* e := g_access cp 1 0 1 in
            if negb (e =? 0) then ret None
            else ZFS_LOG "Used existing consumer for %s.";; ret (Some cp)
        end
    end in
  match cp with
  | None => ret None
  | Some cp =>
      consumer_set cp (set_cp_private (Some vd));;
      vdev_geom_attrchanged cp "GEOM::physpath";;
      ret (Some cp)
  end.

(** [vdev_geom_detach], lines 214-245. *)
Definition vdev_geom_detach (cp : nat) : M unit :=
  let* c := consumer_get cp in
  let gp := cp_geom c in
  ZFS_LOG "Closing access to %s.";;
  match cp_private c with
  | Some vd =>
      vdev_set vd (set_vdev_tsd None);;
      consumer_set cp (set_cp_private None)
  | None => ret tt
  end;;
  g_access cp (-1) 0 (-1);;
  let* c := consumer_get cp in
  (if (cp_acr c =? 0) && (cp_ace c =? 0) then
     ZFS_LOG "Destroyed consumer to %s.";;
     (if 0 <? cp_acw c
      then g_access cp 0 (- cp_acw c) 0;; ret tt
      else ret tt);;
     g_detach cp;;
     g_destroy_consumer cp
   else ret tt);;
  let* g := geom_get gp in
  match gp_consumer g with
  | [] => ZFS_LOG "Destroyed geom %s.";; g_wither_geom gp
  | _ :: _ => ret tt
  end.

(** [nvlist_get_guids], lines 247-267: the loop over the pairs of the
    list, with the two output cells as accumulators. *)
Fixpoint nvlist_get_guids_loop (list : list nvpair_t) (pguid vguid : Z) : Z * Z :=
  match list with
  | [] => (pguid, vguid)
  | elem :: rest =>
      match nvpair_type elem with
      | DATA_TYPE_OTHER => nvlist_get_guids_loop rest pguid vguid
      | DATA_TYPE_UINT64 =>
          let pguid' :=
            if String.eqb (nvpair_name elem) ZPOOL_CONFIG_POOL_GUID
            then nvpair_value_uint64 elem else pguid in
          let vguid' :=
            if String.eqb (nvpair_name elem) ZPOOL_CONFIG_POOL_GUID then vguid
            else if String.eqb (nvpair_name elem) ZPOOL_CONFIG_GUID
            then nvpair_value_uint64 elem else vguid in
          if negb (pguid' =? 0) && negb (vguid' =? 0) then (pguid', vguid')
          else nvlist_get_guids_loop rest pguid' vguid'
      end
  end.

Definition nvlist_get_guids (list : list nvpair_t) : Z * Z :=
  nvlist_get_guids_loop list 0 0.

(** The request [vdev_geom_io] builds in each round, lines 288-293. *)
Definition sync_bio (cmd : bio_cmd_t) (off len p : Z) : bio :=
  {| bio_cmd := cmd; bio_ordered := false; bio_done := None;
     bio_offset := off; bio_length := len; bio_data := Some p;
     bio_caller1 := None; bio_error := 0; bio_resid := 0; bio_to := None |}.

(** The loop of [vdev_geom_io], lines 287-298; [offset] is the end of the
    range.  The loop leaves with the error of its last round, which is zero
    unless it left through [break]. *)
Fixpoint vdev_geom_io_loop (fuel : nat) (cp : nat) (cmd : bio_cmd_t)
    (off offset p size maxio : Z) : M Z :=
  if off <? offset then
    match fuel with
    | O => stuck
    | S fuel' =>
        g_io_request (sync_bio cmd off (Z.min size maxio) p) cp;;
        let* error := biowait in
        if negb (error =? 0) then ret error
        else vdev_geom_io_loop fuel' cp cmd (off_t (off + maxio)) offset
               (p + maxio) (off_t (size - maxio)) maxio
    end
  else ret 0.

(** [vdev_geom_io], lines 269-302.  The two [ASSERT]s are checked; the
    remainder by a zero sector size is a trap. *)
Definition vdev_geom_io (cp : nat) (cmd : bio_cmd_t) (offset size : Z) : M Z :=
  let* c := consumer_get cp in
  let* pp := deref (cp_provider c) in
  let* p := provider_get pp in
  let ss := pp_sectorsize p in
  if ss =? 0 then stuck else
  if negb (Z.rem offset ss =? 0) then stuck else
  if negb (Z.rem size ss =? 0) then stuck else
  let maxio := MAXPHYS - Z.rem MAXPHYS ss in
  vdev_geom_io_loop (S (Z.to_nat (size / maxio))) cp cmd offset
    (off_t (offset + size)) 0 size maxio.

(** Modelled from the spec: the macro [P2ALIGN] comes from
    [sys/sysmacros.h]; it aligns down to a power-of-two boundary,
    [(x) & -(align)]. *)
Definition P2ALIGN (x align : Z) : Z := Z.land x (- align).

(** The label loop of [vdev_geom_read_guids], lines 331-349; [l] counts the
    labels and [labels] are their contents from label [l] on. *)
Fixpoint read_labels (n : nat) (l : Z) (labels : list (option (list nvpair_t)))
    (cp : nat) (psize ss size : Z) (pguid vguid : Z) : M (Z * Z) :=
  match n with
  | O => ret (pguid, vguid)
  | S n' =>
      let next := fun pg vg => read_labels n' (l + 1) (tail labels) cp psize ss size pg vg in
      let offset := vdev_label_offset psize l 0 in
      if negb (Z.rem offset ss =? 0) then next pguid vguid else
      let* e := vdev_geom_io cp BIO_READ offset size in
      if negb (e =? 0) then next pguid vguid else
      match head labels with
      | Some (Some config) =>
          let g := nvlist_get_guids config in
          if negb (fst g =? 0) && negb (snd g =? 0) then ret g
          else next (fst g) (snd g)
      | _ => next pguid vguid
      end
  end.

(** [vdev_geom_read_guids], lines 304-355. *)
Definition vdev_geom_read_guids (cp : nat) : M (Z * Z) :=
  let* c := consumer_get cp in
  let* pp := deref (cp_provider c) in
  let* p := provider_get pp in
  ZFS_LOG "Reading guids from %s...";;
  let ss := pp_sectorsize p in
  if ss =? 0 then stuck else
  let psize := P2ALIGN (pp_mediasize p) VDEV_LABEL_SIZE in
  let size := VDEV_LABEL_SIZE + ss - Z.rem (VDEV_LABEL_SIZE - 1) ss - 1 in
  let* g := read_labels VDEV_LABELS 0 (pp_labels p) cp psize ss size 0 0 in
  (if negb (fst g =? 0) && negb (snd g =? 0)
   then ZFS_LOG "guids for %s are %ju:%ju" else ret tt);;
  ret g.

Definition guids_differ (g : Z * Z) (v : vdev_t) : bool :=
  negb (fst g =? spa_guid (vdev_spa v)) || negb (snd g =? vdev_guid v).

(** The three nested loops of [vdev_geom_attach_by_guids], lines 383-418,
    over the providers in enumeration order; [pp] is the index of the head
    of [l]. *)
Fixpoint taste_providers (l : list g_provider) (pp : nat) (zcp vd : nat) : M (option nat) :=
  match l with
  | [] => ret None
  | p :: l' =>
      let next := taste_providers l' (S pp) zcp vd in
      if pp_class_zfs p then next else
      if pp_geom_wither p then next else
      if pp_wither p then next else
      g_attach zcp pp;;
      let* e := g_access zcp 1 0 0 in
      if negb (e =? 0) then g_detach zcp;; next else
      let* g := vdev_geom_read_guids zcp in
      g_access zcp (-1) 0 0;;
      g_detach zcp;;
      let* v := vdev_get vd in
      if guids_differ g v then next else
      let* cp := vdev_geom_attach pp vd in
      match cp with
      | None => printf "ZFS WARNING: Unable to attach to %s.\n";; next
      | Some c => ret (Some c)
      end
  end.

(** [vdev_geom_attach_by_guids], lines 365-423. *)
Definition vdev_geom_attach_by_guids (vd : nat) : M (option nat) :=
  let* zgp := g_new_geomf "zfs::vdev::taste" in
  geom_set zgp (set_gp_callbacks (Some vdev_geom_taste_orphan_fn) false);;
  let* zcp := g_new_consumer zgp in
  let* l := gets w_providers in
  let* cp := taste_providers l 0%nat zcp vd in
  g_destroy_consumer zcp;;
  g_destroy_geom zgp;;
  ret cp.

(** [vdev_geom_open_by_guids], lines 425-455. *)
Definition vdev_geom_open_by_guids (vd : nat) : M (option nat) :=
  ZFS_LOG "Searching by guids [%ju:%ju].";;
  let* cp := vdev_geom_attach_by_guids vd in
  match cp with
  | Some c =>
      let* cn := consumer_get c in
      let* pp := deref (cp_provider cn) in
      let* p := provider_get pp in
      vdev_set vd (set_vdev_path (Some ("/dev/" +:+ pp_name p)));;
      ZFS_LOG "Attach by guids [%ju:%ju] succeeded, provider %s.";;
      ret cp
  | None =>
      ZFS_LOG "Search by guids [%ju:%ju] failed.";;
      ret cp
  end.

(** [vdev_geom_open_by_path], lines 457-494. *)
Definition vdev_geom_open_by_path (vd : nat) (check_guid : bool) : M (option nat) :=
  let* v := vdev_get vd in
  let* path := deref (vdev_path v) in
  let* found := g_provider_by_name (string_drop 5 path) in
  match found with
  | None => ret None
  | Some pp =>
      let* p := provider_get pp in
      ZFS_LOG "Found provider by name %s.";;
      let* cp := vdev_geom_attach pp vd in
      match cp with
      | Some c =>
          if check_guid && ISP2 (pp_sectorsize p) &&
             (pp_sectorsize p <=? VDEV_PAD_SIZE)
          then
            let* g := vdev_geom_read_guids c in
            let* v := vdev_get vd in
            if guids_differ g v then
              vdev_geom_detach c;;
              ZFS_LOG "guid mismatch for provider %s: %ju:%ju != %ju:%ju.";;
              ret None
            else
              ZFS_LOG "guids match for provider %s.";;
              ret (Some c)
          else ret (Some c)
      | None => ret None
      end
  end.

(** The device resolution of [vdev_geom_open], lines 519-551. *)
Definition vdev_geom_open_resolve (vd : nat) : M (option nat) :=
  let* cp := vdev_geom_open_by_path vd true in
  let* cp :=
    match cp with
    | None => vdev_geom_open_by_guids vd
    | Some _ => ret cp
    end in
  match cp with
  | None =>
      let* v := vdev_get vd in
      if (bool_decide (vdev_prevstate v = VDEV_STATE_UNKNOWN) &&
          bool_decide (spa_load_state (vdev_spa v) = SPA_LOAD_NONE)) ||
         spa_splitting_newspa (vdev_spa v)
      then vdev_geom_open_by_path vd false
      else ret cp
  | Some _ => ret cp
  end.

(** The retry loop of [vdev_geom_open], lines 566-573: [n] rounds are left
    and [error] is the error of the last round. *)
Fixpoint write_claim_retry (n : nat) (vd cp : nat) (error : Z) : M Z :=
  match n with
  | O => ret error
  | S n' =>
      let* error := g_access cp 0 1 0 in
      if error =? 0 then ret error
      else tsleep vd;; write_claim_retry n' vd cp error
  end.

(** Lines 553-580 of [vdev_geom_open]: the checks on the resolved consumer;
    the result is [error] and [cp]. *)
Definition vdev_geom_open_claim (vd : nat) (cp : option nat) : M (Z * option nat) :=
  match cp with
  | None =>
      ZFS_LOG "Provider %s not found.";;
      ret (ENOENT, None)
  | Some c =>
      let* cn := consumer_get c in
      let* pp := deref (cp_provider cn) in
      let* p := provider_get pp in
      if (VDEV_PAD_SIZE <? pp_sectorsize p) || negb (ISP2 (pp_sectorsize p)) then
        ZFS_LOG "Provider %s has unsupported sectorsize.";;
        vdev_geom_detach c;;
        ret (EINVAL, None)
      else
        let* v := vdev_get vd in
        if (cp_acw cn =? 0) &&
           negb (Z.land (spa_mode (vdev_spa v)) FWRITE =? 0) then
          let* error := write_claim_retry 5 vd c 0 in
          if negb (error =? 0) then
            printf "ZFS WARNING: Unable to open %s for writing (error=%d).\n";;
            vdev_geom_detach c;;
            ret (error, None)
          else ret (error, Some c)
        else ret (0, Some c)
  end.

(** [vdev_geom_open], lines 496-608; [psize], [max_psize] and [ashift] are
    the addresses of the caller's cells. *)
Definition vdev_geom_open (vd : nat) (psize max_psize ashift : nat) : M Z :=
  let* v := vdev_get vd in
  if match vdev_path v with
     | None => true
     | Some path => negb (starts_with_slash path)
     end
  then vdev_set vd (set_vs_aux VDEV_AUX_BAD_LABEL);; ret EINVAL
  else
    vdev_set vd (set_vdev_tsd None);;
    let* cp := vdev_geom_open_resolve vd in
    let* r := vdev_geom_open_claim vd cp in
    match snd r with
    | None =>
        vdev_set vd (set_vs_aux VDEV_AUX_OPEN_FAILED);;
        ret (fst r)
    | Some c =>
        let* cn := consumer_get c in
        let* pp := deref (cp_provider cn) in
        let* p := provider_get pp in
        vdev_set vd (set_vdev_tsd (Some c));;
        mem_write psize (pp_mediasize p);;
        mem_write max_psize (pp_mediasize p);;
        mem_write ashift
          (highbit (Z.max (pp_sectorsize p) SPA_MINBLOCKSIZE) - 1);;
        vdev_set vd (set_vdev_nowritecache false);;
        ret 0
    end.

(** [vdev_geom_close], lines 610-621. *)
Definition vdev_geom_close (vd : nat) : M unit :=
  let* v := vdev_get vd in
  match vdev_tsd v with
  | None => ret tt
  | Some cp => vdev_geom_detach cp
  end.

(** Lines 631-633 of [vdev_geom_io_intr]: the [zio] with its error set. *)
Definition completed_zio (bp : bio) (zio : zio_t) : zio_t :=
  let zio := set_io_error (bio_error bp) zio in
  if (io_error zio =? 0) && negb (bio_resid bp =? 0)
  then set_io_error EIO zio else zio.

(** [vdev_geom_io_intr], lines 623-674.  The request carries its [zio] in
    [bio_caller1]; the completed [zio] is handed to [zio_interrupt]. *)
Definition vdev_geom_io_intr (bp : bio) : M unit :=
  let* zio := deref (bio_caller1 bp) in
  let vd := io_vd zio in
  let zio := completed_zio bp zio in
  (if bool_decide (bio_cmd bp = BIO_FLUSH) && (bio_error bp =? ENOTSUP)
   then vdev_set vd (set_vdev_nowritecache true) else ret tt);;
  (if bool_decide (bio_cmd bp = BIO_DELETE) && (bio_error bp =? ENOTSUP)
   then vdev_set vd (set_vdev_notrim true) else ret tt);;
  let* v := vdev_get vd in
  (if (io_error zio =? EIO) && negb (vdev_remove_wanted v) then
     let* pp := deref (bio_to bp) in
     let* p := provider_get pp in
     if negb (pp_error p =? 0) then
       zfs_post_remove (io_spa zio) vd;;
       vdev_set vd (set_vdev_remove_wanted true);;
       spa_async_request (io_spa zio) SPA_ASYNC_REMOVE
     else if negb (vdev_delayed_close v) then
       vdev_set vd (set_vdev_delayed_close true)
     else ret tt
   else ret tt);;
  zio_interrupt zio.

(** The request [vdev_geom_io_start] builds, lines 722-750.  [io_offset]
    and [io_size] are [uint64_t]; [bio_offset] and [bio_length] are
    [off_t], so the assignments of lines 729-730 and 744-745 store them as
    an [off_t] holds them. *)
Definition start_bio (zio : zio_t) (mediasize : Z) : bio :=
  let bp :=
    {| bio_cmd := BIO_NONE; bio_ordered := false; bio_done := None;
       bio_offset := 0; bio_length := 0; bio_data := None;
       bio_caller1 := Some zio; bio_error := 0; bio_resid := 0;
       bio_to := None |} in
  let fill cmd ordered data off len :=
    {| bio_cmd := cmd; bio_ordered := ordered;
       bio_done := Some vdev_geom_io_intr_fn;
       bio_offset := off; bio_length := len; bio_data := data;
       bio_caller1 := Some zio; bio_error := 0; bio_resid := 0;
       bio_to := None |} in
  match io_type zio with
  | ZIO_TYPE_READ =>
      fill BIO_READ false (Some 0) (off_t (io_offset zio)) (off_t (io_size zio))
  | ZIO_TYPE_WRITE =>
      fill BIO_WRITE false (Some 0) (off_t (io_offset zio)) (off_t (io_size zio))
  | ZIO_TYPE_IOCTL =>
      match io_cmd zio with
      | DKIOCFLUSHWRITECACHE => fill BIO_FLUSH true None mediasize 0
      | DKIOCTRIM =>
          fill BIO_DELETE false None (off_t (io_offset zio)) (off_t (io_size zio))
      | DKIOC_OTHER => fill BIO_NONE false None 0 0
      end
  | _ => fill BIO_NONE false None 0 0
  end.

(** The label [sendreq] of [vdev_geom_io_start], lines 716-754. *)
Definition sendreq (zio : zio_t) : M (pipeline_t * zio_t) :=
  let* v := vdev_get (io_vd zio) in
  match vdev_tsd v with
  | None => ret (ZIO_PIPELINE_CONTINUE, set_io_error ENXIO zio)
  | Some cp =>
      let* c := consumer_get cp in
      let* mediasize :=
        match io_type zio, io_cmd zio with
        | ZIO_TYPE_IOCTL, DKIOCFLUSHWRITECACHE =>
            let* pp := deref (cp_provider c) in
            let* p := provider_get pp in
            ret (pp_mediasize p)
        | _, _ => ret 0
        end in
      g_io_request (start_bio zio mediasize) cp;;
      ret (ZIO_PIPELINE_STOP, zio)
  end.

(** [vdev_geom_io_start], lines 676-755: the pipeline signal and the [zio]
    as the function leaves it. *)
Definition vdev_geom_io_start (zio : zio_t) : M (pipeline_t * zio_t) :=
  let* v := vdev_get (io_vd zio) in
  match io_type zio with
  | ZIO_TYPE_IOCTL =>
      if negb (vdev_is_readable v)
      then ret (ZIO_PIPELINE_CONTINUE, set_io_error ENXIO zio)
      else
        let* nocacheflush := gets zfs_nocacheflush in
        let* flush_disable := gets vdev_geom_bio_flush_disable in
        let* delete_disable := gets vdev_geom_bio_delete_disable in
        match io_cmd zio with
        | DKIOCFLUSHWRITECACHE =>
            if nocacheflush || negb (flush_disable =? 0)
            then ret (ZIO_PIPELINE_CONTINUE, zio)
            else if vdev_nowritecache v
            then ret (ZIO_PIPELINE_CONTINUE, set_io_error ENOTSUP zio)
            else sendreq zio
        | DKIOCTRIM =>
            if negb (delete_disable =? 0)
            then ret (ZIO_PIPELINE_CONTINUE, zio)
            else if vdev_notrim v
            then ret (ZIO_PIPELINE_CONTINUE, set_io_error ENOTSUP zio)
            else sendreq zio
        | DKIOC_OTHER =>
            ret (ZIO_PIPELINE_CONTINUE, set_io_error ENOTSUP zio)
        end
  | _ => sendreq zio
  end.

(** [vdev_geom_io_done], [vdev_geom_hold] and [vdev_geom_rele], lines
    757-770, have empty bodies. *)
Definition vdev_geom_io_done (zio : zio_t) : M unit := ret tt.

Definition vdev_geom_hold (vd : nat) : M unit := ret tt.

Definition vdev_geom_rele (vd : nat) : M unit := ret tt.

End vdev_geom.

(** ** The entry points as operations *)

(** The entry points of the file and the callbacks of its geom, as the
    pool manager and the GEOM event thread call them. *)
Inductive vdev_op :=
| OpOpen (vd psize max_psize ashift : nat)
| OpClose (vd : nat)
| OpIoStart (zio : zio_t)
| OpIoIntr (bp : bio)
| OpIoDone (zio : zio_t)
| OpHold (vd : nat)
| OpRele (vd : nat)
| OpOrphan (cp : nat)
| OpAttrChanged (cp : nat) (attr : string).

Section operations.
Context {K : SysConsts}.

Definition run_op (o : vdev_op) : M unit :=
  match o with
  | OpOpen vd psize max_psize ashift =>
      vdev_geom_open vd psize max_psize ashift;; ret tt
  | OpClose vd => vdev_geom_close vd
  | OpIoStart zio => vdev_geom_io_start zio;; ret tt
  | OpIoIntr bp => vdev_geom_io_intr bp
  | OpIoDone zio => vdev_geom_io_done zio
  | OpHold vd => vdev_geom_hold vd
  | OpRele vd => vdev_geom_rele vd
  | OpOrphan cp => vdev_geom_orphan cp
  | OpAttrChanged cp attr => vdev_geom_attrchanged cp attr
  end.

Fixpoint run_ops (l : list vdev_op) : M unit :=
  match l with
  | [] => ret tt
  | o :: l' => run_op o;; run_ops l'
  end.

(** The completions of a list of requests, one after the other. *)
Fixpoint run_completions (l : list bio) : M unit :=
  match l with
  | [] => ret tt
  | bp :: l' => vdev_geom_io_intr bp;; run_completions l'
  end.

End operations.

(** ** Concrete inputs *)

(** The constants as FreeBSD on amd64 defines them, a pool opened for
    reading and writing, and a disk [ada0] whose label names the pool and
    the vdev. *)
Definition freebsd : SysConsts :=
  {| ENOENT := 2; EIO := 5; ENXIO := 6; EINVAL := 22; ENOTSUP := 45;
     MAXPHYS := 131072; VDEV_PAD_SIZE := 8192; SPA_MINBLOCKSIZE := 512;
     FWRITE := 2; VDEV_LABELS := 4; VDEV_LABEL_SIZE := 262144;
     vdev_label_offset := fun psize l offset =>
       offset + l * 262144 + (if l <? 2 then 0 else psize - 4 * 262144);
     ZPOOL_CONFIG_POOL_GUID := "pool_guid"; ZPOOL_CONFIG_GUID := "guid";
     ENOENT_nonzero := ltac:(discriminate);
     EINVAL_nonzero := ltac:(discriminate) |}.

Definition tank : spa_t :=
  {| spa_guid := 77; spa_load_state := SPA_LOAD_OPEN;
     spa_splitting_newspa := false; spa_mode := 3 |}.

Definition closed_vdev (path : string) (guid : Z) : vdev_t :=
  {| vdev_path := Some path; vdev_physpath := None; vdev_guid := guid;
     vdev_spa := tank; vdev_prevstate := VDEV_STATE_CLOSED; vdev_tsd := None;
     vdev_nowritecache := false; vdev_notrim := false;
     vdev_remove_wanted := false; vdev_delayed_close := false;
     vs_aux := VDEV_AUX_NONE; vdev_is_readable := true |}.

Definition label_of (pool guid : Z) : list nvpair_t :=
  [ {| nvpair_name := "version"; nvpair_type := DATA_TYPE_UINT64;
       nvpair_value_uint64 := 28 |};
    {| nvpair_name := "name"; nvpair_type := DATA_TYPE_OTHER;
       nvpair_value_uint64 := 0 |};
    {| nvpair_name := "pool_guid"; nvpair_type := DATA_TYPE_UINT64;
       nvpair_value_uint64 := pool |};
    {| nvpair_name := "guid"; nvpair_type := DATA_TYPE_UINT64;
       nvpair_value_uint64 := guid |} ].

Definition disk (name : string) (sectorsize : Z) (pool guid : Z) : g_provider :=
  {| pp_name := name; pp_sectorsize := sectorsize;
     pp_mediasize := 1073741824; pp_error := 0; pp_wither := false;
     pp_geom_wither := false; pp_class_zfs := false;
     pp_labels := [Some (label_of pool guid)];
     pp_physpath := "id1,enc@n5000/type@0/slot@1" |}.

Definition boot (vdevs : gmap nat vdev_t) (providers : list g_provider)
    (oracle : nat -> Z) : world :=
  {| w_vdevs := vdevs; w_providers := providers; w_geoms := ∅;
     w_class_geom := []; w_consumers := ∅; w_next := 10%nat;
     w_oracle := oracle; w_tick := 0%nat; w_mem := ∅; w_log := [];
     zfs_nocacheflush := false; vdev_geom_bio_flush_disable := 0;
     vdev_geom_bio_delete_disable := 0 |}.

(** The state a computation ends in, the starting state if it is stuck. *)
Definition exec {A} (m : M A) (w : world) : world :=
  match m w with
  | Some (_, w') => w'
  | None => w
  end.

(** One vdev, [1], on [ada0]; nothing of the device layer fails. *)
Definition world_ada0 : world :=
  boot {[ 1%nat := closed_vdev "/dev/ada0" 99 ]} [disk "ada0" 512 77 99] (fun _ => 0).

Definition world_ada0_open : world :=
  exec (vdev_geom_open (K := freebsd) 1 100 101 102) world_ada0.

Definition flush_zio : zio_t :=
  {| io_type := ZIO_TYPE_IOCTL; io_cmd := DKIOCFLUSHWRITECACHE; io_offset := 0;
     io_size := 0; io_error := 0; io_vd := 1%nat; io_spa := tank |}.

(** The flush request of [flush_zio], completed by the device with
    [ENOTSUP]. *)
Definition flush_notsup : bio :=
  {| bio_cmd := BIO_FLUSH; bio_ordered := true;
     bio_done := Some vdev_geom_io_intr_fn; bio_offset := 1073741824;
     bio_length := 0; bio_data := None; bio_caller1 := Some flush_zio;
     bio_error := 45; bio_resid := 0; bio_to := Some 0%nat |}.

(** [ada0] is open, one flush was sent and came back not supported. *)
Definition world_flush_notsup : world :=
  exec (vdev_geom_io_intr (K := freebsd) flush_notsup)
    (exec (vdev_geom_io_start (K := freebsd) flush_zio) world_ada0_open).

Definition set_pp_error (e : Z) (p : g_provider) : g_provider :=
  {| pp_name := pp_name p; pp_sectorsize := pp_sectorsize p;
     pp_mediasize := pp_mediasize p; pp_error := e; pp_wither := pp_wither p;
     pp_geom_wither := pp_geom_wither p; pp_class_zfs := pp_class_zfs p;
     pp_labels := pp_labels p; pp_physpath := pp_physpath p |}.

(** [ada0] is open and the disk has just been pulled: its provider carries
    the error [ENXIO]. *)
Definition world_ada0_pulled : world :=
  set_w_providers (map (set_pp_error 6)) world_ada0_open.

Definition read_zio : zio_t :=
  {| io_type := ZIO_TYPE_READ; io_cmd := DKIOC_OTHER; io_offset := 4194304;
     io_size := 131072; io_error := 0; io_vd := 1%nat; io_spa := tank |}.

Definition read_completed (error resid : Z) : bio :=
  {| bio_cmd := BIO_READ; bio_ordered := false;
     bio_done := Some vdev_geom_io_intr_fn; bio_offset := 4194304;
     bio_length := 131072; bio_data := Some 0; bio_caller1 := Some read_zio;
     bio_error := error; bio_resid := resid; bio_to := Some 0%nat |}.

(** A read that went through, a short read, and two reads that failed. *)
Definition pulled_completions : list bio :=
  [read_completed 0 0; read_completed 0 512; read_completed 5 131072;
   read_completed 5 131072].

(** The disk was pulled and the device layer has orphaned the consumer of
    vdev 1 before the completions arrive. *)
Definition world_ada0_orphaned : world :=
  exec (vdev_geom_orphan 11) world_ada0_pulled.

Definition trim_zio : zio_t :=
  {| io_type := ZIO_TYPE_IOCTL; io_cmd := DKIOCTRIM; io_offset := 8388608;
     io_size := 65536; io_error := 0; io_vd := 1%nat; io_spa := tank |}.

Definition trim_notsup : bio :=
  {| bio_cmd := BIO_DELETE; bio_ordered := false;
     bio_done := Some vdev_geom_io_intr_fn; bio_offset := 8388608;
     bio_length := 65536; bio_data := None; bio_caller1 := Some trim_zio;
     bio_error := 45; bio_resid := 0; bio_to := Some 0%nat |}.

(** A day in the life of the open vdev 1 after its flush came back not
    supported. *)
Definition busy_day : list vdev_op :=
  [OpIoStart flush_zio; OpIoStart trim_zio; OpIoIntr trim_notsup;
   OpAttrChanged 11 "GEOM::physpath"; OpIoStart read_zio;
   OpIoIntr (read_completed 5 131072); OpIoDone read_zio; OpHold 1; OpRele 1;
   OpOrphan 11; OpIoStart flush_zio; OpClose 1].

(** The device layer refuses the write claim five times in a row (with
    [EPERM]), from its eighth answer on. *)
Definition world_ada0_busy : world :=
  boot {[ 1%nat := closed_vdev "/dev/ada0" 99 ]} [disk "ada0" 512 77 99]
    (fun t => if (7 <=? t)%nat && (t <=? 11)%nat then 1 else 0).


(** [ada0], named by the path of the vdev, has 520-byte sectors and the
    label of another pool; [ada1] carries the identity of the vdev. *)
Definition world_two_disks : world :=
  boot {[ 1%nat := closed_vdev "/dev/ada0" 99 ]}
    [disk "ada0" 520 5 6; disk "ada1" 512 77 99] (fun _ => 0).

(** The same two disks; the device layer refuses its first call, the
    attach to [ada0], with [ENXIO]. *)
Definition world_two_disks_refused : world :=
  boot {[ 1%nat := closed_vdev "/dev/ada0" 99 ]}
    [disk "ada0" 520 5 6; disk "ada1" 512 77 99]
    (fun t => if (t =? 0)%nat then 6 else 0).


(** [ada0] was open, a trim came back not supported, and the vdev was
    closed again. *)
Definition world_trim_notsup_closed : world :=
  exec (vdev_geom_close 1)
    (exec (vdev_geom_io_intr (K := freebsd) trim_notsup)
       (exec (vdev_geom_io_start (K := freebsd) trim_zio) world_flush_notsup)).

(** A hot spare [da9] shared by two pools: vdev 1 belongs to [tank],
    vdev 2 to [dozer].  The label of a spare carries its guid and no pool
    guid, and both vdevs are being added (never opened before, no pool
    load in progress), so each open ends in the unconditional reuse of the
    path. *)
Definition dozer : spa_t :=
  {| spa_guid := 88; spa_load_state := SPA_LOAD_NONE;
     spa_splitting_newspa := false; spa_mode := 3 |}.

Definition tank_new : spa_t :=
  {| spa_guid := 77; spa_load_state := SPA_LOAD_NONE;
     spa_splitting_newspa := false; spa_mode := 3 |}.

Definition spare_vdev (spa : spa_t) : vdev_t :=
  {| vdev_path := Some "/dev/da9"; vdev_physpath := None; vdev_guid := 500;
     vdev_spa := spa; vdev_prevstate := VDEV_STATE_UNKNOWN; vdev_tsd := None;
     vdev_nowritecache := false; vdev_notrim := false;
     vdev_remove_wanted := false; vdev_delayed_close := false;
     vs_aux := VDEV_AUX_NONE; vdev_is_readable := true |}.

Definition spare_disk : g_provider :=
  {| pp_name := "da9"; pp_sectorsize := 512; pp_mediasize := 1073741824;
     pp_error := 0; pp_wither := false; pp_geom_wither := false;
     pp_class_zfs := false;
     pp_labels :=
       [Some [ {| nvpair_name := "version"; nvpair_type := DATA_TYPE_UINT64;
                  nvpair_value_uint64 := 28 |};
               {| nvpair_name := "guid"; nvpair_type := DATA_TYPE_UINT64;
                  nvpair_value_uint64 := 500 |} ]];
     pp_physpath := "id1,enc@n5000/type@0/slot@9" |}.

Definition world_spare : world :=
  boot {[ 1%nat := spare_vdev tank_new; 2%nat := spare_vdev dozer ]}
    [spare_disk] (fun _ => 0).

(** Both pools have opened their spare. *)
Definition world_spare_open : world :=
  exec (vdev_geom_open (K := freebsd) 2 200 201 202)
    (exec (vdev_geom_open (K := freebsd) 1 100 101 102) world_spare).

Definition big_read (size : Z) : zio_t :=
  {| io_type := ZIO_TYPE_READ; io_cmd := DKIOC_OTHER; io_offset := 4194304;
     io_size := size; io_error := 0; io_vd := 1%nat; io_spa := tank |}.

(** A provider of the ZFS class itself: a volume of the pool. *)
Definition zvol : g_provider :=
  {| pp_name := "zvol/tank/swap"; pp_sectorsize := 512; pp_mediasize := 1073741824;
     pp_error := 0; pp_wither := false; pp_geom_wither := false;
     pp_class_zfs := true; pp_labels := [];
     pp_physpath := "zvol/tank/swap" |}.

(** The vdev has a relative path. *)
Definition world_relative_path : world :=
  boot {[ 1%nat := closed_vdev "ada0" 99 ]} [disk "ada0" 512 77 99] (fun _ => 0).

(** The disk of the vdev is gone; the only provider left is a volume. *)
Definition world_only_zvol : world :=
  boot {[ 1%nat := closed_vdev "/dev/ada0" 99 ]} [zvol] (fun _ => 0).

(** The disk of vdev 1 has moved: it is [ada1] now, and no [ada0] is
    left. *)
Definition world_moved_disk : world :=
  boot {[ 1%nat := closed_vdev "/dev/ada0" 99 ]} [disk "ada1" 512 77 99] (fun _ => 0).

(** The disk that moved has been found by its identity. *)
Definition world_moved_disk_open : world :=
  exec (vdev_geom_open (K := freebsd) 1 100 101 102) world_moved_disk.

(** Two vdevs on two disks, both open: the consumer of [ada1] is the
    newer one and stands first on the list of the geom. *)
Definition world_pair_open : world :=
  exec (vdev_geom_open (K := freebsd) 2 200 201 202)
    (exec (vdev_geom_open (K := freebsd) 1 100 101 102)
       (boot {[ 1%nat := closed_vdev "/dev/ada0" 99; 2%nat := closed_vdev "/dev/ada1" 98 ]}
          [disk "ada0" 512 77 99; disk "ada1" 512 77 98] (fun _ => 0))).

(** ** Vocabulary of the properties *)

(** [preserves R m]: every run of [m] relates the state it starts from to
    the state it ends in. *)
Definition preserves (R : world -> world -> Prop) {A} (m : M A) : Prop :=
  forall w a w', m w = Some (a, w') -> R w w'.

(** What a vdev keeps through everything the file does outside of the
    completion handler and the last lines of [vdev_geom_open]. *)
Definition keep (v v' : vdev_t) : Prop :=
  vdev_nowritecache v' = vdev_nowritecache v /\
  vdev_notrim v' = vdev_notrim v /\
  vdev_spa v' = vdev_spa v /\
  vdev_guid v' = vdev_guid v /\
  (vdev_tsd v = None -> vdev_tsd v' = None).

(** [frame ok w w']: [w'] has the caller's cells, the providers and the
    oracle of [w]; every vdev of [w] is a vdev of [w'] and is kept; the
    log grew by events that satisfy [ok]. *)
Definition frame (ok : event -> bool) (w w' : world) : Prop :=
  w_mem w' = w_mem w /\
  w_providers w' = w_providers w /\
  w_oracle w' = w_oracle w /\
  (forall vd v, w_vdevs w !! vd = Some v ->
     exists v', w_vdevs w' !! vd = Some v' /\ keep v v') /\
  (exists l, w_log w' = w_log w ++ l /\ forallb ok l = true).

(** Events that are neither a transfer nor a trace of an identity read or
    of an identity scan. *)
Definition quiet (e : event) : bool :=
  match e with
  | EvIoRequest _ _ => false
  | EvZfsLog fmt =>
      negb (String.eqb fmt "Reading guids from %s...") &&
      negb (String.eqb fmt "Searching by guids [%ju:%ju].")
  | _ => true
  end.

Definition any_event (e : event) : bool := true.

Definition above_quiet (ok : event -> bool) : Prop :=
  forall e, quiet e = true -> ok e = true.

(** [wp m Q w]: from [w] the computation [m] is not stuck, and its result
    and final state satisfy [Q]. *)
Definition wp {A} (m : M A) (Q : A -> world -> Prop) (w : world) : Prop :=
  match m w with
  | Some (a, w') => Q a w'
  | None => False
  end.

Definition count (f : event -> bool) (l : list event) : nat :=
  length (List.filter f l).

Definition is_post_remove (vd : nat) (e : event) : bool :=
  match e with
  | EvZfsPostRemove _ v => Nat.eqb v vd
  | _ => false
  end.

Definition is_remove_request (e : event) : bool :=
  match e with
  | EvSpaAsyncRequest _ SPA_ASYNC_REMOVE => true
  | _ => false
  end.

Definition opens (vd : nat) (o : vdev_op) : bool :=
  match o with
  | OpOpen x _ _ _ => Nat.eqb x vd
  | _ => false
  end.

Definition is_open (o : vdev_op) : bool :=
  match o with
  | OpOpen _ _ _ _ => true
  | _ => false
  end.

Definition caps_le (v v' : vdev_t) : Prop :=
  (vdev_nowritecache v = true -> vdev_nowritecache v' = true) /\
  (vdev_notrim v = true -> vdev_notrim v' = true).

(** [sticky_at vd w w']: the vdev [vd] of [w] is still there in [w'], and a
    capability flag that was set in [w] is set in [w']. *)
Definition sticky_at (vd : nat) (w w' : world) : Prop :=
  forall v, w_vdevs w !! vd = Some v ->
    exists v', w_vdevs w' !! vd = Some v' /\ caps_le v v'.

Definition same_mem (w w' : world) : Prop := w_mem w' = w_mem w.

(** The pointers [vdev_geom_detach] follows from the consumer [cp] are
    valid: the consumer, its geom and the vdev it refers back to. *)
Definition consumer_ok (w : world) (cp : nat) : Prop :=
  exists cn g,
    w_consumers w !! cp = Some cn /\
    w_geoms w !! cp_geom cn = Some g /\
    (forall vd, cp_private cn = Some vd -> is_Some (w_vdevs w !! vd)).

(** What a consumer keeps while claims on it are taken and dropped. *)
Definition bound_kept (w w' : world) : Prop :=
  w_providers w' = w_providers w /\
  forall c cn, w_consumers w !! c = Some cn ->
    exists cn', w_consumers w' !! c = Some cn' /\ cp_provider cn' = cp_provider cn.

(** A well-formed state of the device layer: the identifiers of the geoms
    are below the next one to be handed out, every consumer is on the
    list of its geom, and the back-reference of a consumer names a vdev. *)
Definition wf (w : world) : Prop :=
  (forall gp, is_Some (w_geoms w !! gp) -> (gp < w_next w)%nat) /\
  (forall cp cn, w_consumers w !! cp = Some cn ->
     (exists g, w_geoms w !! cp_geom cn = Some g /\ cp ∈ gp_consumer g) /\
     (forall vd, cp_private cn = Some vd -> is_Some (w_vdevs w !! vd))).

(** [wf_kept o w w']: if [w] is well formed and has the vdev [o], if any,
    so is and so has [w']. *)
Definition wf_kept (o : option nat) (w w' : world) : Prop :=
  wf w /\ (forall vd, o = Some vd -> is_Some (w_vdevs w !! vd)) ->
  wf w' /\ (forall vd, o = Some vd -> is_Some (w_vdevs w' !! vd)).

(** The consumer [c] is attached to the provider [pp]. *)
Definition bound_to (w : world) (c pp : nat) : Prop :=
  exists cn, w_consumers w !! c = Some cn /\ cp_provider cn = Some pp.

(** The state [vdev_geom_open] resolves the device in: the handle of the
    vdev has just been reset. *)
Definition open_entry (vd : nat) (v : vdev_t) (w : world) : world :=
  set_w_vdevs (insert vd (set_vdev_tsd None v)) w.

Section vocabulary.
Context {K : SysConsts}.

(** The error [vdev_geom_io_intr] stores in the [zio], lines 631-633. *)
Definition classify (bp : bio) : Z :=
  if (bio_error bp =? 0) && negb (bio_resid bp =? 0) then EIO else bio_error bp.

(** A completion with a hard I/O error whose provider has its error set. *)
Definition fault_completion (w : world) (bp : bio) : bool :=
  (classify bp =? EIO) &&
  match bio_to bp with
  | Some pp =>
      match w_providers w !! pp with
      | Some p => negb (pp_error p =? 0)
      | None => false
      end
  | None => false
  end.

(** A completion of a request of the vdev [vd]. *)
Definition completion_of (w : world) (vd : nat) (bp : bio) : Prop :=
  exists zio pp p,
    bio_caller1 bp = Some zio /\ io_vd zio = vd /\
    bio_to bp = Some pp /\ w_providers w !! pp = Some p.

Definition unsupported_sectorsize (p : g_provider) : bool :=
  (VDEV_PAD_SIZE <? pp_sectorsize p) || negb (ISP2 (pp_sectorsize p)).

(** The [i]-th request of a transfer of [size] bytes at [offset], cut at
    [maxio]. *)
Definition chunk (cmd : bio_cmd_t) (offset size maxio : Z) (i : nat) : bio :=
  sync_bio cmd (offset + Z.of_nat i * maxio)
    (Z.min (size - Z.of_nat i * maxio) maxio) (Z.of_nat i * maxio).

(** [ceil (size / maxio)]. *)
Definition chunks_needed (size maxio : Z) : nat :=
  Z.to_nat ((size + maxio - 1) / maxio).

(** The bytes the first [k] chunks cover. *)
Fixpoint total_length (cmd : bio_cmd_t) (offset size maxio : Z) (k : nat) : Z :=
  match k with
  | O => 0
  | S k' => total_length cmd offset size maxio k' +
            bio_length (chunk cmd offset size maxio k')
  end.

(** What C3 says of one transfer through [vdev_geom_io], and what
    [vdev_geom_io_start] does with a read or a write.  [M] is the largest
    transfer, [MAXPHYS] aligned down to the sector size; the transfer of
    [size] bytes at [offset] takes [n = ceil (size / M)] requests
    [req 0 .. req (n - 1)].  The one request of [vdev_geom_io_start] has
    the offset and the size of the [zio] as an [off_t] holds them: the
    given ones when they are below [2 ^ 63]. *)
Definition chunked_transfer (w : world) (cp : nat) (p : g_provider)
    (cmd : bio_cmd_t) (offset size : Z) : Prop :=
  let M := MAXPHYS - Z.rem MAXPHYS (pp_sectorsize p) in
  let n := chunks_needed size M in
  let req := chunk cmd offset size M in
  (0 < M /\ Z.rem M (pp_sectorsize p) = 0 /\
   Z.of_nat n = (size + M - 1) / M) /\
  (forall i, (i < n)%nat ->
     bio_offset (req i) = offset + Z.of_nat i * M /\
     0 < bio_length (req i) <= M /\
     bio_offset (req i) + bio_length (req i) =
       if (S i <? n)%nat then bio_offset (req (S i)) else offset + size) /\
  total_length cmd offset size M n = size /\
  (exists (m : nat) err w',
     (1 <= m <= n)%nat /\
     vdev_geom_io cp cmd offset size w = Some (err, w') /\
     w_log w' = w_log w ++ map (fun i => EvIoRequest (req i) cp) (seq 0 m) /\
     (forall i, (i + 1 < m)%nat -> w_oracle w (w_tick w + i)%nat = 0) /\
     err = w_oracle w (w_tick w + (m - 1))%nat /\
     (err = 0 -> m = n)) /\
  (forall zio v c cn,
     io_type zio = ZIO_TYPE_READ \/ io_type zio = ZIO_TYPE_WRITE ->
     w_vdevs w !! io_vd zio = Some v -> vdev_tsd v = Some c ->
     w_consumers w !! c = Some cn ->
     exists bp,
       vdev_geom_io_start zio w =
         Some ((ZIO_PIPELINE_STOP, zio),
               set_w_log (fun l => l ++ [EvIoRequest bp c]) w) /\
       bio_offset bp = off_t (io_offset zio) /\
       bio_length bp = off_t (io_size zio) /\
       (0 <= io_offset zio < 2 ^ 63 -> bio_offset bp = io_offset zio) /\
       (0 <= io_size zio < 2 ^ 63 -> bio_length bp = io_size zio) /\
       bio_caller1 bp = Some zio).

End vocabulary.

(** The pairs [nvlist_get_guids] looks at. *)
Definition is_uint64 (e : nvpair_t) : bool :=
  match nvpair_type e with
  | DATA_TYPE_UINT64 => true
  | DATA_TYPE_OTHER => false
  end.

(** A 64-bit pair that carries the guid of the pool, respectively of the
    vdev. *)
Definition names_pool {K : SysConsts} (e : nvpair_t) : Prop :=
  nvpair_type e = DATA_TYPE_UINT64 /\ nvpair_name e = ZPOOL_CONFIG_POOL_GUID.

Definition names_vdev {K : SysConsts} (e : nvpair_t) : Prop :=
  nvpair_type e = DATA_TYPE_UINT64 /\ nvpair_name e = ZPOOL_CONFIG_GUID.

(** The two ways [vdev_geom_io_start] ends: the [zio] is completed inline
    in the state it came in, or one request for it went to the consumer
    behind the handle of its vdev. *)
Definition inline_or_sent {K : SysConsts} (zio : zio_t) (w : world)
    (r : pipeline_t) (z : zio_t) (w' : world) : Prop :=
  (r = ZIO_PIPELINE_CONTINUE /\ w' = w /\
   (z = zio \/ z = set_io_error ENXIO zio \/ z = set_io_error ENOTSUP zio)) \/
  (r = ZIO_PIPELINE_STOP /\ z = zio /\
   exists v c bp,
     w_vdevs w !! io_vd zio = Some v /\ vdev_tsd v = Some c /\
     w' = set_w_log (fun l => l ++ [EvIoRequest bp c]) w /\
     bio_caller1 bp = Some zio /\ bio_done bp = Some vdev_geom_io_intr_fn).

Definition is_zio_interrupt (e : event) : bool :=
  match e with
  | EvZioInterrupt _ => true
  | _ => false
  end.

(** A flush, respectively a delete, that the device answered with
    [ENOTSUP]. *)
Definition flush_unsupported_reply {K : SysConsts} (bp : bio) : bool :=
  bool_decide (bio_cmd bp = BIO_FLUSH) && (bio_error bp =? ENOTSUP).

Definition trim_unsupported_reply {K : SysConsts} (bp : bio) : bool :=
  bool_decide (bio_cmd bp = BIO_DELETE) && (bio_error bp =? ENOTSUP).

(** A hard error that [vdev_geom_io_intr] acts on: the vdev is not yet
    wanted removed. *)
Definition hard_error {K : SysConsts} (v : vdev_t) (bp : bio) : bool :=
  (classify bp =? EIO) && negb (vdev_remove_wanted v).

(** A provider the identity scan passes over. *)
Definition scan_skips (p : g_provider) : bool :=
  pp_class_zfs p || pp_geom_wither p || pp_wither p.

(** [link_kept w w']: every consumer of [w] is a consumer of [w'], with the
    provider, the back-reference and the write claims it had. *)
Definition link_kept (w w' : world) : Prop :=
  forall c cn, w_consumers w !! c = Some cn ->
    exists cn', w_consumers w' !! c = Some cn' /\
      cp_provider cn' = cp_provider cn /\ cp_private cn' = cp_private cn /\
      cp_acw cn' = cp_acw cn.

(** The consumer [c] refers back to the vdev [vd]. *)
Definition owned_by (w : world) (c vd : nat) : Prop :=
  exists cn, w_consumers w !! c = Some cn /\ cp_private cn = Some vd.

(** Where an identity pair comes from: nowhere, or one of the labels. *)
Definition guids_from {K : SysConsts} (labels : list (option (list nvpair_t)))
    (g : Z * Z) : Prop :=
  g = (0, 0) \/ exists config, In (Some config) labels /\ g = nvlist_get_guids config.

(** A geom the first loop of [vdev_geom_attach] passes over: it withers
    or is not named [zfs::vdev]. *)
Definition passed_over (w : world) (gp : nat) : Prop :=
  exists g, w_geoms w !! gp = Some g /\
    (gp_wither g = true \/ gp_name g <> "zfs::vdev"%string).

(** A consumer that is not attached to the provider [pp]. *)
Definition attached_elsewhere (w : world) (pp : nat) (cp : nat) : Prop :=
  exists cn, w_consumers w !! cp = Some cn /\ cp_provider cn <> Some pp.

(** Events that are not a transfer other than a read. *)
Definition reads_only (e : event) : bool :=
  match e with
  | EvIoRequest bp _ => bool_decide (bio_cmd bp = BIO_READ)
  | _ => true
  end.

(** One of the labels of the provider carries the guid of the pool and the
    guid of the vdev (or both guids of the vdev are zero). *)
Definition carries_identity {K : SysConsts} (p : g_provider) (v : vdev_t) : Prop :=
  guids_from (pp_labels p) (spa_guid (vdev_spa v), vdev_guid v).

(** [vdev_geom_open] may fall back on the path alone, lines 534-551. *)
Definition path_alone_allowed (v : vdev_t) : bool :=
  (bool_decide (vdev_prevstate v = VDEV_STATE_UNKNOWN) &&
   bool_decide (spa_load_state (vdev_spa v) = SPA_LOAD_NONE)) ||
  spa_splitting_newspa (vdev_spa v).

(** [untouched z w w']: the consumer [z], allocated in [w], is in [w'] what
    it is in [w]. *)
Definition untouched (z : nat) (w w' : world) : Prop :=
  (z < w_next w)%nat ->
  (z < w_next w')%nat /\ w_consumers w' !! z = w_consumers w !! z.

(** The tasting consumer [zcp] is allocated and attached to [o]. *)
Definition tasting (zcp : nat) (o : option nat) (w : world) : Prop :=
  (zcp < w_next w)%nat /\
  exists cn, w_consumers w !! zcp = Some cn /\ cp_provider cn = o.

(** [prevstate_kept w w']: every vdev of [w] is a vdev of [w'] with the
    previous state it has in [w]. *)
Definition prevstate_kept (w w' : world) : Prop :=
  forall vd v, w_vdevs w !! vd = Some v ->
    exists v', w_vdevs w' !! vd = Some v' /\ vdev_prevstate v' = vdev_prevstate v.

(** * Proofs *)

(** ** Reasoning about computations *)

Lemma bind_Some {A B} (m : M A) (k : A -> M B) w b w' :
  bind m k w = Some (b, w') <->
  exists a w1, m w = Some (a, w1) /\ k a w1 = Some (b, w').
Proof.
  unfold bind. split.
  - destruct (m w) as [[a w1]|]; [|discriminate]. intros H. eauto.
  - intros (a & w1 & -> & H). exact H.
Qed.

Lemma bind_run {A B} (m : M A) (k : A -> M B) w a w1 :
  m w = Some (a, w1) -> bind m k w = k a w1.
Proof. unfold bind. intros ->. reflexivity. Qed.

Section preserves.
Context (R : world -> world -> Prop).
Hypothesis R_refl : forall w, R w w.
Hypothesis R_trans : forall w1 w2 w3, R w1 w2 -> R w2 w3 -> R w1 w3.

Lemma pres_ret {A} (a : A) : preserves R (ret a).
Proof. intros w a' w' [= _ <-]. apply R_refl. Qed.

Lemma pres_stuck {A} : preserves R (@stuck A).
Proof. intros w a w' [=]. Qed.

Lemma pres_gets {A} (f : world -> A) : preserves R (gets f).
Proof. intros w a w' [= _ <-]. apply R_refl. Qed.

Lemma pres_deref {A} (o : option A) : preserves R (deref o).
Proof. destruct o; [apply pres_ret | apply pres_stuck]. Qed.

Lemma pres_bind {A B} (m : M A) (k : A -> M B) :
  preserves R m -> (forall a, preserves R (k a)) -> preserves R (bind m k).
Proof.
  intros Hm Hk w b w' (a & w1 & H1 & H2)%bind_Some.
  eapply R_trans; [eapply Hm | eapply Hk]; eassumption.
Qed.

Lemma pres_modify (f : world -> world) :
  (forall w, R w (f w)) -> preserves R (modify f).
Proof. intros H w a w' [= _ <-]. apply H. Qed.

End preserves.

(** *** The frame relation *)

Lemma keep_refl v : keep v v.
Proof. repeat split; auto. Qed.

Lemma keep_trans v1 v2 v3 : keep v1 v2 -> keep v2 v3 -> keep v1 v3.
Proof.
  intros (a1 & a2 & a3 & a4 & a5) (b1 & b2 & b3 & b4 & b5).
  repeat split; try congruence. auto.
Qed.

Lemma frame_refl ok w : frame ok w w.
Proof.
  repeat split; auto.
  - intros vd v H. exists v. split; [assumption | apply keep_refl].
  - exists []. split; [symmetry; apply app_nil_r | reflexivity].
Qed.

Lemma frame_trans ok w1 w2 w3 : frame ok w1 w2 -> frame ok w2 w3 -> frame ok w1 w3.
Proof.
  intros (m1 & p1 & r1 & v1 & l1 & e1 & o1) (m2 & p2 & r2 & v2 & l2 & e2 & o2).
  repeat split; try congruence.
  - intros vd v H. destruct (v1 vd v H) as (v' & H' & K').
    destruct (v2 vd v' H') as (v'' & H'' & K'').
    exists v''. split; [assumption | eapply keep_trans; eassumption].
  - exists (l1 ++ l2). split.
    + rewrite e2, e1. symmetry. apply app_assoc.
    + rewrite forallb_app, o1, o2. reflexivity.
Qed.

Lemma frame_weaken (ok ok' : event -> bool) w w' :
  (forall e, ok e = true -> ok' e = true) -> frame ok w w' -> frame ok' w w'.
Proof.
  intros Hsub (m & p & r & v & l & e & o). repeat split; auto.
  exists l. split; [assumption|].
  rewrite forallb_forall in *. auto.
Qed.

Lemma above_quiet_any : above_quiet any_event.
Proof. intros e _. reflexivity. Qed.

Lemma above_quiet_quiet : above_quiet quiet.
Proof. intros e H. exact H. Qed.

Create HintDb pres discriminated.

Section frame_primitives.
Context (ok : event -> bool).

Lemma fpres_ret {A} (a : A) : preserves (frame ok) (ret a).
Proof. apply pres_ret, frame_refl. Qed.

Lemma fpres_stuck {A} : preserves (frame ok) (@stuck A).
Proof. apply pres_stuck. Qed.

Lemma fpres_gets {A} (f : world -> A) : preserves (frame ok) (gets f).
Proof. apply pres_gets, frame_refl. Qed.

Lemma fpres_deref {A} (o : option A) : preserves (frame ok) (deref o).
Proof. apply pres_deref, frame_refl. Qed.

Lemma fpres_bind {A B} (m : M A) (k : A -> M B) :
  preserves (frame ok) m -> (forall a, preserves (frame ok) (k a)) ->
  preserves (frame ok) (bind m k).
Proof. apply pres_bind, frame_trans. Qed.

Lemma fpres_emit e : ok e = true -> preserves (frame ok) (emit e).
Proof.
  intros He. apply pres_modify. intros w. repeat split; auto.
  - intros vd v H. exists v. split; [assumption | apply keep_refl].
  - exists [e]. split; [reflexivity | cbn; rewrite He; reflexivity].
Qed.

Lemma frame_same_vdevs w w' :
  w_mem w' = w_mem w -> w_providers w' = w_providers w ->
  w_oracle w' = w_oracle w ->
  w_vdevs w' = w_vdevs w -> w_log w' = w_log w -> frame ok w w'.
Proof.
  intros Hm Hp Ho Hv Hl. repeat split; auto.
  - intros vd v H. exists v. rewrite Hv. split; [assumption | apply keep_refl].
  - exists []. rewrite Hl. split; [symmetry; apply app_nil_r | reflexivity].
Qed.

Lemma fpres_vdev_get vd : preserves (frame ok) (vdev_get vd).
Proof. unfold vdev_get. apply fpres_bind; intros; [apply fpres_gets | apply fpres_deref]. Qed.

Lemma fpres_consumer_get cp : preserves (frame ok) (consumer_get cp).
Proof. unfold consumer_get. apply fpres_bind; intros; [apply fpres_gets | apply fpres_deref]. Qed.

Lemma fpres_geom_get gp : preserves (frame ok) (geom_get gp).
Proof. unfold geom_get. apply fpres_bind; intros; [apply fpres_gets | apply fpres_deref]. Qed.

Lemma fpres_provider_get pp : preserves (frame ok) (provider_get pp).
Proof. unfold provider_get. apply fpres_bind; intros; [apply fpres_gets | apply fpres_deref]. Qed.

Lemma fpres_vdev_set vd f :
  (forall v, keep v (f v)) -> preserves (frame ok) (vdev_set vd f).
Proof.
  intros Hf w a w' (v & w1 & H1 & H2)%bind_Some.
  apply bind_Some in H1 as (m & w2 & [= <- <-] & H1).
  destruct (w_vdevs w !! vd) as [v0|] eqn:E; [|discriminate].
  injection H1 as <- <-. injection H2 as _ <-.
  repeat split; auto.
  - intros vd' v' H'. cbn. destruct (decide (vd = vd')) as [<-|Hne].
    + rewrite lookup_insert_eq. exists (f v0). split; [reflexivity|].
      rewrite E in H'. injection H' as <-. apply Hf.
    + rewrite lookup_insert_ne by assumption.
      exists v'. split; [assumption | apply keep_refl].
  - exists []. split; [symmetry; apply app_nil_r | reflexivity].
Qed.

Lemma fpres_consumer_set cp f : preserves (frame ok) (consumer_set cp f).
Proof.
  unfold consumer_set. apply fpres_bind; [apply fpres_consumer_get|].
  intros c. apply pres_modify. intros w. apply frame_same_vdevs; reflexivity.
Qed.

Lemma fpres_geom_set gp f : preserves (frame ok) (geom_set gp f).
Proof.
  unfold geom_set. apply fpres_bind; [apply fpres_geom_get|].
  intros c. apply pres_modify. intros w. apply frame_same_vdevs; reflexivity.
Qed.

Lemma fpres_oracle_next : preserves (frame ok) oracle_next.
Proof. intros w a w' [= _ <-]. apply frame_same_vdevs; reflexivity. Qed.

Lemma fpres_alloc : preserves (frame ok) alloc.
Proof. intros w a w' [= _ <-]. apply frame_same_vdevs; reflexivity. Qed.

Lemma fpres_modify_geoms f : preserves (frame ok) (modify (set_w_geoms f)).
Proof. apply pres_modify. intros w. apply frame_same_vdevs; reflexivity. Qed.

Lemma fpres_modify_class_geom f : preserves (frame ok) (modify (set_w_class_geom f)).
Proof. apply pres_modify. intros w. apply frame_same_vdevs; reflexivity. Qed.

Lemma fpres_modify_consumers f : preserves (frame ok) (modify (set_w_consumers f)).
Proof. apply pres_modify. intros w. apply frame_same_vdevs; reflexivity. Qed.

End frame_primitives.

#[global] Hint Resolve fpres_vdev_get fpres_consumer_get fpres_geom_get
  fpres_provider_get fpres_consumer_set fpres_geom_set fpres_oracle_next
  fpres_alloc fpres_modify_geoms fpres_modify_class_geom
  fpres_modify_consumers above_quiet_any above_quiet_quiet : pres.

Ltac keep_tac := intros; unfold keep; cbn; repeat split; auto.

Ltac emit_tac :=
  apply fpres_emit;
  first [ reflexivity
        | match goal with H : above_quiet _ |- _ => apply H; reflexivity end ].

#[global] Hint Extern 1 (preserves _ (vdev_set _ _)) =>
  apply fpres_vdev_set; keep_tac : pres.
#[global] Hint Extern 1 (preserves _ (emit _)) => emit_tac : pres.
#[global] Hint Extern 1 (preserves _ (ZFS_LOG _)) => unfold ZFS_LOG; emit_tac : pres.
#[global] Hint Extern 1 (preserves _ (printf _)) => unfold printf; emit_tac : pres.
#[global] Hint Extern 1 (preserves _ (tsleep _)) => unfold tsleep; emit_tac : pres.
#[global] Hint Extern 1 (preserves _ (spa_async_request _ _)) =>
  unfold spa_async_request; emit_tac : pres.

(** Goes through a computation bind by bind and branch by branch. *)
Ltac pres :=
  repeat first
    [ progress intros
    | solve [auto with pres]
    | apply fpres_ret | apply fpres_stuck | apply fpres_gets | apply fpres_deref
    | match goal with
      | |- preserves _ (bind _ _) => apply fpres_bind
      | |- preserves _ (if ?b then _ else _) => destruct b
      | |- preserves _ (match ?x with _ => _ end) => destruct x
      end ].

Section frame_geom.
Context (ok : event -> bool).

Lemma fpres_g_new_geomf name : preserves (frame ok) (g_new_geomf name).
Proof. unfold g_new_geomf. pres. Qed.

Lemma fpres_g_new_consumer gp : preserves (frame ok) (g_new_consumer gp).
Proof. unfold g_new_consumer. pres. Qed.

Lemma fpres_g_attach cp pp : preserves (frame ok) (g_attach cp pp).
Proof. unfold g_attach. pres. Qed.

Lemma fpres_g_access cp dcr dcw dce : preserves (frame ok) (g_access cp dcr dcw dce).
Proof. unfold g_access. pres. Qed.

Lemma fpres_g_detach cp : preserves (frame ok) (g_detach cp).
Proof. unfold g_detach. pres. Qed.

Lemma fpres_g_destroy_consumer cp : preserves (frame ok) (g_destroy_consumer cp).
Proof. unfold g_destroy_consumer. pres. Qed.

Lemma fpres_g_wither_geom gp : preserves (frame ok) (g_wither_geom gp).
Proof. unfold g_wither_geom. pres. Qed.

Lemma fpres_g_destroy_geom gp : preserves (frame ok) (g_destroy_geom gp).
Proof. unfold g_destroy_geom. pres. Qed.

Lemma fpres_g_provider_by_name name : preserves (frame ok) (g_provider_by_name name).
Proof. unfold g_provider_by_name. pres. Qed.

Lemma fpres_g_io_getattr cp : preserves (frame ok) (g_io_getattr cp).
Proof. unfold g_io_getattr. pres. Qed.

End frame_geom.

#[global] Hint Resolve fpres_g_new_geomf fpres_g_new_consumer fpres_g_attach
  fpres_g_access fpres_g_detach fpres_g_destroy_consumer fpres_g_wither_geom
  fpres_g_destroy_geom fpres_g_provider_by_name fpres_g_io_getattr : pres.

(** *** The frame of each function *)

Section frame_quiet.
Context {K : SysConsts} (ok : event -> bool) (Hok : above_quiet ok).

Lemma fpres_orphan cp : preserves (frame ok) (vdev_geom_orphan cp).
Proof. unfold vdev_geom_orphan. pres. Qed.

Lemma fpres_attrchanged cp attr : preserves (frame ok) (vdev_geom_attrchanged cp attr).
Proof. unfold vdev_geom_attrchanged. pres. Qed.

Lemma fpres_find_zfs_vdev_geom l : preserves (frame ok) (find_zfs_vdev_geom l).
Proof. induction l as [|gp l IH]; cbn [find_zfs_vdev_geom]; pres. Qed.

Lemma fpres_find_consumer l pp : preserves (frame ok) (find_consumer l pp).
Proof. induction l as [|cp l IH]; cbn [find_consumer]; pres. Qed.

Hint Resolve fpres_attrchanged fpres_find_zfs_vdev_geom fpres_find_consumer : pres.

Lemma fpres_attach pp vd : preserves (frame ok) (vdev_geom_attach pp vd).
Proof. unfold vdev_geom_attach. pres. Qed.

Lemma fpres_detach cp : preserves (frame ok) (vdev_geom_detach cp).
Proof. unfold vdev_geom_detach. pres. Qed.

Hint Resolve fpres_detach : pres.

Lemma fpres_write_claim_retry n vd cp e :
  preserves (frame ok) (write_claim_retry n vd cp e).
Proof. revert e. induction n as [|n IH]; intros e; cbn [write_claim_retry]; pres. Qed.

Hint Resolve fpres_write_claim_retry : pres.

Lemma fpres_open_claim vd cp : preserves (frame ok) (vdev_geom_open_claim vd cp).
Proof. unfold vdev_geom_open_claim. pres. Qed.

Lemma fpres_close vd : preserves (frame ok) (vdev_geom_close vd).
Proof. unfold vdev_geom_close. pres. Qed.

End frame_quiet.

#[global] Hint Resolve fpres_orphan fpres_attrchanged fpres_attach fpres_detach
  fpres_write_claim_retry fpres_open_claim fpres_close : pres.

Section frame_loud.
Context {K : SysConsts}.

Lemma fpres_io_request bp cp : preserves (frame any_event) (g_io_request bp cp).
Proof. unfold g_io_request. pres. Qed.

Hint Resolve fpres_io_request : pres.

Lemma fpres_io_loop fuel cp cmd off offset p size maxio :
  preserves (frame any_event) (vdev_geom_io_loop fuel cp cmd off offset p size maxio).
Proof.
  revert off p size. induction fuel as [|fuel IH]; intros off p size;
    cbn [vdev_geom_io_loop]; unfold biowait; pres.
Qed.

Hint Resolve fpres_io_loop : pres.

Lemma fpres_io cp cmd offset size :
  preserves (frame any_event) (vdev_geom_io cp cmd offset size).
Proof. unfold vdev_geom_io. pres. Qed.

Hint Resolve fpres_io : pres.

Lemma fpres_read_labels n l labels cp psize ss size pguid vguid :
  preserves (frame any_event) (read_labels n l labels cp psize ss size pguid vguid).
Proof.
  revert l labels pguid vguid. induction n as [|n IH]; intros l labels pguid vguid;
    cbn [read_labels]; pres.
Qed.

Hint Resolve fpres_read_labels : pres.

Lemma fpres_read_guids cp : preserves (frame any_event) (vdev_geom_read_guids cp).
Proof. unfold vdev_geom_read_guids. pres. Qed.

Hint Resolve fpres_read_guids : pres.

Lemma fpres_taste_providers l pp zcp vd :
  preserves (frame any_event) (taste_providers l pp zcp vd).
Proof.
  revert pp. induction l as [|p l IH]; intros pp; cbn [taste_providers]; pres.
Qed.

Hint Resolve fpres_taste_providers : pres.

Lemma fpres_attach_by_guids vd : preserves (frame any_event) (vdev_geom_attach_by_guids vd).
Proof. unfold vdev_geom_attach_by_guids. pres. Qed.

Hint Resolve fpres_attach_by_guids : pres.

Lemma fpres_open_by_guids vd : preserves (frame any_event) (vdev_geom_open_by_guids vd).
Proof. unfold vdev_geom_open_by_guids. pres. Qed.

Lemma fpres_open_by_path vd check_guid :
  preserves (frame any_event) (vdev_geom_open_by_path vd check_guid).
Proof. unfold vdev_geom_open_by_path. pres. Qed.

Hint Resolve fpres_open_by_guids fpres_open_by_path : pres.

Lemma fpres_open_resolve vd : preserves (frame any_event) (vdev_geom_open_resolve vd).
Proof. unfold vdev_geom_open_resolve. pres. Qed.

Lemma fpres_sendreq zio : preserves (frame any_event) (sendreq zio).
Proof. unfold sendreq. pres. Qed.

Hint Resolve fpres_sendreq : pres.

Lemma fpres_io_start zio : preserves (frame any_event) (vdev_geom_io_start zio).
Proof. unfold vdev_geom_io_start. pres. Qed.

End frame_loud.

#[global] Hint Resolve fpres_io_request fpres_io_loop fpres_io
  fpres_read_labels fpres_read_guids fpres_taste_providers
  fpres_attach_by_guids fpres_open_by_guids fpres_open_by_path
  fpres_open_resolve fpres_sendreq fpres_io_start : pres.

(** ** Arithmetic of the helpers *)

Lemma off_t_small z : - 2 ^ 63 <= z < 2 ^ 63 -> off_t z = z.
Proof.
  intros H. unfold off_t.
  rewrite Z.mod_small by lia. lia.
Qed.

Lemma testbit_true_ge x n : 0 <= x -> 0 <= n -> Z.testbit x n = true -> 2 ^ n <= x.
Proof.
  intros Hx Hn Hb.
  destruct (Z.eq_dec x 0) as [->|Hx0].
  - rewrite Z.bits_0 in Hb. discriminate.
  - destruct (Z_lt_le_dec x (2 ^ n)) as [Hlt|Hge]; [|assumption].
    rewrite Z.bits_above_log2 in Hb; [discriminate | assumption |].
    apply Z.log2_lt_pow2; lia.
Qed.

Lemma highbit_scan_log2 n x :
  0 < x < 2 ^ Z.of_nat n -> highbit_scan n x = Z.log2 x + 1.
Proof.
  induction n as [|n IH]; intros Hx.
  - cbn in Hx. lia.
  - cbn [highbit_scan].
    destruct (Z.testbit x (Z.of_nat n)) eqn:Hb.
    + apply testbit_true_ge in Hb; [|lia|lia].
      rewrite (Z.log2_unique x (Z.of_nat n)); [lia | lia |].
      replace (Z.of_nat n + 1) with (Z.of_nat (S n)) by lia. lia.
    + apply IH. split; [lia|].
      destruct (Z_lt_le_dec x (2 ^ Z.of_nat n)) as [Hlt|Hge]; [assumption|].
      assert (Z.log2 x = Z.of_nat n) as Hl.
      { apply Z.log2_unique; [lia|].
        replace (Z.of_nat n + 1) with (Z.of_nat (S n)) by lia. lia. }
      pose proof (Z.bit_log2 x ltac:(lia)) as Hb'.
      rewrite Hl in Hb'. congruence.
Qed.

Lemma highbit_log2 x : 0 < x < 2 ^ 64 -> highbit x - 1 = Z.log2 x.
Proof.
  intros Hx. unfold highbit.
  rewrite highbit_scan_log2; [lia | exact Hx].
Qed.

Lemma ISP2_pow2 x : 0 < x -> ISP2 x = true -> x = 2 ^ Z.log2 x.
Proof.
  intros Hx Hp. unfold ISP2 in Hp. apply Z.eqb_eq in Hp.
  pose proof (Z.log2_spec x Hx) as [Hlo Hhi].
  destruct (Z.eq_dec x (2 ^ Z.log2 x)) as [|Hne]; [assumption|].
  exfalso.
  assert (Z.log2 (x - 1) = Z.log2 x) as Hl.
  { apply Z.log2_unique; [apply Z.log2_nonneg|]. lia. }
  assert (Z.testbit (Z.land x (x - 1)) (Z.log2 x) = true) as Hb.
  { rewrite Z.land_spec, (Z.bit_log2 x Hx).
    pose proof (Z.pow_pos_nonneg 2 (Z.log2 x) ltac:(lia) (Z.log2_nonneg x)) as Hpos.
    pose proof (Z.bit_log2 (x - 1) ltac:(lia)) as Hb1.
    rewrite Hl in Hb1. rewrite Hb1. reflexivity. }
  rewrite Hp, Z.bits_0 in Hb. discriminate.
Qed.

Lemma pow2_ISP2 k : 0 <= k -> ISP2 (2 ^ k) = true.
Proof.
  intros Hk. unfold ISP2. apply Z.eqb_eq.
  replace (2 ^ k - 1) with (Z.ones k) by (rewrite Z.ones_equiv; lia).
  rewrite Z.land_ones by assumption.
  apply Z.mod_same. pose proof (Z.pow_pos_nonneg 2 k ltac:(lia) Hk). lia.
Qed.

(** For a positive sector size, [ISP2] is "is a power of two". *)
Lemma ISP2_iff x :
  0 < x -> ISP2 x = true <-> exists k, 0 <= k /\ x = 2 ^ k.
Proof.
  intros Hx. split.
  - intros H. exists (Z.log2 x). split; [apply Z.log2_nonneg | apply ISP2_pow2; assumption].
  - intros (k & Hk & ->). apply pow2_ISP2. assumption.
Qed.

(** ** Running a computation forward *)

Lemma wp_run {A} (m : M A) Q w :
  wp m Q w -> exists a w', m w = Some (a, w') /\ Q a w'.
Proof. unfold wp. destruct (m w) as [[a w']|]; [eauto | tauto]. Qed.

Lemma wp_of_run {A} (m : M A) (Q : A -> world -> Prop) w a w' :
  m w = Some (a, w') -> Q a w' -> wp m Q w.
Proof. unfold wp. intros ->. auto. Qed.

Lemma wp_eq {A} (m : M A) w a w' :
  wp m (fun b w1 => b = a /\ w1 = w') w -> m w = Some (a, w').
Proof. unfold wp. destruct (m w) as [[b w1]|]; [intros [-> ->]; reflexivity | tauto]. Qed.

Lemma wp_mono {A} (m : M A) (Q Q' : A -> world -> Prop) w :
  wp m Q w -> (forall a w', Q a w' -> Q' a w') -> wp m Q' w.
Proof. unfold wp. destruct (m w) as [[a w']|]; auto. Qed.

Lemma wp_preserves {A} (m : M A) R (Q : A -> world -> Prop) w :
  preserves R m -> wp m Q w -> wp m (fun a w' => Q a w' /\ R w w') w.
Proof.
  unfold wp. intros HR. destruct (m w) as [[a w']|] eqn:E; [|tauto].
  intros HQ. split; [assumption | eapply HR; eassumption].
Qed.

Lemma wp_ret {A} (a : A) (Q : A -> world -> Prop) w : Q a w -> wp (ret a) Q w.
Proof. auto. Qed.

Lemma wp_bind {A B} (m : M A) (k : A -> M B) (Q : B -> world -> Prop) w :
  wp m (fun a w' => wp (k a) Q w') w -> wp (bind m k) Q w.
Proof. unfold wp, bind. destruct (m w) as [[a w']|]; auto. Qed.

Lemma wp_gets {A} (f : world -> A) (Q : A -> world -> Prop) w :
  Q (f w) w -> wp (gets f) Q w.
Proof. auto. Qed.

Lemma wp_modify (f : world -> world) (Q : unit -> world -> Prop) w :
  Q tt (f w) -> wp (modify f) Q w.
Proof. auto. Qed.

Lemma wp_deref {A} (o : option A) a (Q : A -> world -> Prop) w :
  o = Some a -> Q a w -> wp (deref o) Q w.
Proof. intros ->. auto. Qed.

Lemma wp_vdev_get vd v (Q : vdev_t -> world -> Prop) w :
  w_vdevs w !! vd = Some v -> Q v w -> wp (vdev_get vd) Q w.
Proof. intros H HQ. unfold wp, vdev_get, bind, gets, deref. rewrite H. exact HQ. Qed.

Lemma wp_vdev_set vd f v (Q : unit -> world -> Prop) w :
  w_vdevs w !! vd = Some v ->
  Q tt (set_w_vdevs (insert vd (f v)) w) -> wp (vdev_set vd f) Q w.
Proof.
  intros H HQ. unfold vdev_set. apply wp_bind.
  eapply wp_vdev_get; [eassumption | exact HQ].
Qed.

Lemma wp_consumer_get cp c (Q : g_consumer -> world -> Prop) w :
  w_consumers w !! cp = Some c -> Q c w -> wp (consumer_get cp) Q w.
Proof. intros H HQ. unfold wp, consumer_get, bind, gets, deref. rewrite H. exact HQ. Qed.

Lemma wp_consumer_set cp f c (Q : unit -> world -> Prop) w :
  w_consumers w !! cp = Some c ->
  Q tt (set_w_consumers (insert cp (f c)) w) -> wp (consumer_set cp f) Q w.
Proof.
  intros H HQ. unfold consumer_set. apply wp_bind.
  eapply wp_consumer_get; [eassumption | exact HQ].
Qed.

Lemma wp_geom_get gp g (Q : g_geom -> world -> Prop) w :
  w_geoms w !! gp = Some g -> Q g w -> wp (geom_get gp) Q w.
Proof. intros H HQ. unfold wp, geom_get, bind, gets, deref. rewrite H. exact HQ. Qed.

Lemma wp_geom_set gp f g (Q : unit -> world -> Prop) w :
  w_geoms w !! gp = Some g ->
  Q tt (set_w_geoms (insert gp (f g)) w) -> wp (geom_set gp f) Q w.
Proof.
  intros H HQ. unfold geom_set. apply wp_bind.
  eapply wp_geom_get; [eassumption | exact HQ].
Qed.

Lemma wp_provider_get pp p (Q : g_provider -> world -> Prop) w :
  w_providers w !! pp = Some p -> Q p w -> wp (provider_get pp) Q w.
Proof. intros H HQ. unfold wp, provider_get, bind, gets, deref. rewrite H. exact HQ. Qed.

Lemma wp_emit e (Q : unit -> world -> Prop) w :
  Q tt (set_w_log (fun l => l ++ [e]) w) -> wp (emit e) Q w.
Proof. auto. Qed.

Lemma wp_oracle_next (Q : Z -> world -> Prop) w :
  Q (w_oracle w (w_tick w)) (set_w_tick S w) -> wp oracle_next Q w.
Proof. auto. Qed.

(** Projections of updated worlds. *)
Ltac wsimpl :=
  cbn [w_vdevs w_providers w_geoms w_class_geom w_consumers w_next w_oracle
       w_tick w_mem w_log zfs_nocacheflush vdev_geom_bio_flush_disable
       vdev_geom_bio_delete_disable
       set_w_vdevs set_w_providers set_w_geoms set_w_class_geom
       set_w_consumers set_w_next set_w_tick set_w_mem set_w_log
       cp_geom cp_provider cp_acr cp_acw cp_ace cp_private
       set_cp_provider set_cp_private add_cp_access
       gp_name gp_wither gp_consumer gp_orphan gp_attrchanged
       set_gp_wither set_gp_consumer set_gp_callbacks
       vdev_path vdev_physpath vdev_guid vdev_spa vdev_prevstate vdev_tsd
       vdev_nowritecache vdev_notrim vdev_remove_wanted vdev_delayed_close
       vs_aux vdev_is_readable
       set_vdev_path set_vdev_physpath set_vdev_tsd set_vdev_nowritecache
       set_vdev_notrim set_vdev_remove_wanted set_vdev_delayed_close
       set_vs_aux] in *.

Ltac lk :=
  wsimpl;
  first [ eassumption
        | rewrite lookup_insert_eq; reflexivity
        | solve [simplify_map_eq; eauto] ].

Ltac wp_step :=
  lazymatch goal with
  | |- wp (bind _ _) _ _ => apply wp_bind
  | |- wp (ret _) _ _ => apply wp_ret
  | |- wp (gets _) _ _ => apply wp_gets
  | |- wp (modify _) _ _ => apply wp_modify
  | |- wp (deref _) _ _ => eapply wp_deref; [wsimpl; solve [eauto] |]
  | |- wp (vdev_get _) _ _ => eapply wp_vdev_get; [lk |]
  | |- wp (vdev_set _ _) _ _ => eapply wp_vdev_set; [lk |]
  | |- wp (consumer_get _) _ _ => eapply wp_consumer_get; [lk |]
  | |- wp (consumer_set _ _) _ _ => eapply wp_consumer_set; [lk |]
  | |- wp (geom_get _) _ _ => eapply wp_geom_get; [lk |]
  | |- wp (geom_set _ _) _ _ => eapply wp_geom_set; [lk |]
  | |- wp (provider_get _) _ _ => eapply wp_provider_get; [lk |]
  | |- wp (emit _) _ _ => apply wp_emit
  | |- wp (ZFS_LOG _) _ _ => apply wp_emit
  | |- wp (printf _) _ _ => apply wp_emit
  | |- wp (tsleep _) _ _ => apply wp_emit
  | |- wp (spa_async_request _ _) _ _ => apply wp_emit
  | |- wp (zfs_post_remove _ _) _ _ => apply wp_emit
  | |- wp (zio_interrupt _) _ _ => apply wp_emit
  | |- wp (g_io_request _ _) _ _ => apply wp_emit
  | |- wp oracle_next _ _ => apply wp_oracle_next
  | |- wp biowait _ _ => apply wp_oracle_next
  end; cbv beta.

Ltac wp_case :=
  lazymatch goal with
  | |- wp (if ?b then _ else _) _ _ => destruct b eqn:?
  | |- wp (match ?x with _ => _ end) _ _ => destruct x eqn:?
  end; cbv beta.

Ltac wp_go := repeat wp_step.

Ltac wp_all := repeat first [wp_step | wp_case].

(** ** Cache flush on a vdev that proved it unsupported (C1) *)

(** C1, as the code has it: on a vdev whose flush-unsupported flag is set,
    a flush submission completes at once ([ZIO_PIPELINE_CONTINUE]) and
    leaves the whole state as it was, so no request reaches the device
    layer.  The error it reports is [ENXIO] when the vdev is not readable,
    the error the [zio] came with when flushes are disabled by a tunable,
    and [ENOTSUP] otherwise: not a zero error. *)
Theorem flush_unsupported_completes_inline {K : SysConsts} (w : world) (zio : zio_t) (v : vdev_t) :
  w_vdevs w !! io_vd zio = Some v ->
  vdev_nowritecache v = true ->
  io_type zio = ZIO_TYPE_IOCTL ->
  io_cmd zio = DKIOCFLUSHWRITECACHE ->
  vdev_geom_io_start zio w =
    Some ((ZIO_PIPELINE_CONTINUE,
           if negb (vdev_is_readable v) then set_io_error ENXIO zio
           else if zfs_nocacheflush w || negb (vdev_geom_bio_flush_disable w =? 0)
                then zio
                else set_io_error ENOTSUP zio), w).
Proof.
  intros Hv Hflag Htype Hcmd.
  apply wp_eq. unfold vdev_geom_io_start. wp_go. rewrite Htype.
  destruct (vdev_is_readable v); cbn [negb]; wp_go; [|auto].
  rewrite Hcmd, Hflag.
  destruct (zfs_nocacheflush w || negb (vdev_geom_bio_flush_disable w =? 0));
    wp_go; auto.
Qed.

Lemma flush_unsupported_completes_inline_witness :
  w_vdevs world_flush_notsup !! io_vd flush_zio <> None /\
  vdev_geom_io_start (K := freebsd) flush_zio world_flush_notsup =
    Some ((ZIO_PIPELINE_CONTINUE, set_io_error 45 flush_zio), world_flush_notsup).
Proof.
  split; [vm_compute; discriminate|].
  refine (eq_trans
    (flush_unsupported_completes_inline (K := freebsd) world_flush_notsup flush_zio
       (set_vdev_nowritecache true (set_vdev_tsd (Some 11%nat)
          (set_vdev_physpath (Some "id1,enc@n5000/type@0/slot@1")
             (closed_vdev "/dev/ada0" 99)))) _ _ _ _) _);
    vm_compute; reflexivity.
Defined.

(** C1 as stated fails: after one flush came back not supported, the next
    flush on the same open handle is not sent to the device, but it
    completes with [ENOTSUP] (45), not with zero. *)
Lemma flush_unsupported_counterexample :
  (exists v, w_vdevs world_flush_notsup !! io_vd flush_zio = Some v /\
             vdev_nowritecache v = true /\ vdev_tsd v = Some 11%nat) /\
  exists z, vdev_geom_io_start (K := freebsd) flush_zio world_flush_notsup =
              Some ((ZIO_PIPELINE_CONTINUE, z), world_flush_notsup) /\
            io_error z = 45 /\ (io_error z =? 0) = false.
Proof.
  split.
  - eexists. vm_compute. repeat split.
  - eexists. vm_compute. repeat split.
Qed.

(** ** Hard errors on completion (C5) *)

Lemma count_app f l l' : count f (l ++ l') = (count f l + count f l')%nat.
Proof. unfold count. rewrite List.filter_app, length_app. reflexivity. Qed.

Section completions.
Context {K : SysConsts}.

Lemma completed_zio_error bp zio :
  io_error (completed_zio bp zio) =
  if (bio_error bp =? 0) && negb (bio_resid bp =? 0) then EIO else bio_error bp.
Proof. unfold completed_zio. cbn. destruct (_ && _); reflexivity. Qed.

Lemma completed_zio_vd bp zio : io_vd (completed_zio bp zio) = io_vd zio.
Proof. unfold completed_zio. cbn. destruct (_ && _); reflexivity. Qed.

Lemma io_intr_step w vd v bp :
  w_vdevs w !! vd = Some v -> completion_of w vd bp ->
  wp (vdev_geom_io_intr bp) (fun _ w' =>
    w_providers w' = w_providers w /\
    exists v', w_vdevs w' !! vd = Some v' /\
      if fault_completion w bp && negb (vdev_remove_wanted v) then
        vdev_remove_wanted v' = true /\
        count (is_post_remove vd) (w_log w') = S (count (is_post_remove vd) (w_log w)) /\
        count is_remove_request (w_log w') = S (count is_remove_request (w_log w))
      else
        vdev_remove_wanted v' = vdev_remove_wanted v /\
        count (is_post_remove vd) (w_log w') = count (is_post_remove vd) (w_log w) /\
        count is_remove_request (w_log w') = count is_remove_request (w_log w)) w.
Proof.
  intros Hv (zio & pp & p & Hz & Hvd & Hto & Hp).
  unfold vdev_geom_io_intr. wp_go. subst vd. cbv zeta.
  unfold fault_completion, classify. rewrite Hto, Hp.
  rewrite completed_zio_error.
  destruct ((if (bio_error bp =? 0) && negb (bio_resid bp =? 0)
             then EIO else bio_error bp) =? EIO);
    destruct (pp_error p =? 0) eqn:Hpe; destruct (vdev_remove_wanted v) eqn:Hrw.
  all: repeat (first [wp_step | wp_case];
               cbn [vdev_remove_wanted vdev_delayed_close set_vdev_remove_wanted
                    set_vdev_notrim set_vdev_nowritecache set_vdev_delayed_close
                    andb negb];
               rewrite ?Hrw, ?Hpe; cbn [andb negb]).
  all: wsimpl; (split; [reflexivity|]); eexists; (split; [lk|]).
  all: cbn [vdev_remove_wanted set_vdev_remove_wanted set_vdev_notrim
            set_vdev_nowritecache set_vdev_delayed_close andb negb].
  all: rewrite ?count_app;
    cbn [count List.filter is_post_remove is_remove_request length].
  all: rewrite ?Nat.eqb_refl; cbn [length]; repeat split; try assumption; lia.
Qed.

Lemma fault_completion_ext w w' bp :
  w_providers w' = w_providers w -> fault_completion w' bp = fault_completion w bp.
Proof. unfold fault_completion. intros ->. reflexivity. Qed.

Lemma completion_of_ext w w' vd bp :
  w_providers w' = w_providers w -> completion_of w vd bp -> completion_of w' vd bp.
Proof. unfold completion_of. intros ->. auto. Qed.

Lemma run_completions_counts l : forall w vd v,
  w_vdevs w !! vd = Some v ->
  Forall (completion_of w vd) l ->
  exists w' v',
    run_completions l w = Some (tt, w') /\
    w_vdevs w' !! vd = Some v' /\
    vdev_remove_wanted v' = vdev_remove_wanted v || existsb (fault_completion w) l /\
    let k := if negb (vdev_remove_wanted v) && existsb (fault_completion w) l
             then 1%nat else 0%nat in
    count (is_post_remove vd) (w_log w') = (count (is_post_remove vd) (w_log w) + k)%nat /\
    count is_remove_request (w_log w') = (count is_remove_request (w_log w) + k)%nat.
Proof.
  induction l as [|bp l IH]; intros w vd v Hv Hall.
  - exists w, v. cbn. rewrite orb_false_r, andb_false_r.
    repeat split; auto.
  - inversion Hall as [|? ? Hbp Hl]; subst.
    destruct (wp_run _ _ _ (io_intr_step w vd v bp Hv Hbp))
      as ([] & w1 & Hrun & Hprov & v1 & Hv1 & Hstep).
    assert (Forall (completion_of w1 vd) l) as Hl1.
    { eapply Forall_impl; [exact Hl|]. intros b. apply completion_of_ext. assumption. }
    destruct (IH w1 vd v1 Hv1 Hl1) as (w' & v' & Hrun' & Hv' & Hrw' & Hc1 & Hc2).
    exists w', v'. cbn [run_completions existsb].
    rewrite (bind_run _ _ _ _ _ Hrun). split; [exact Hrun'|]. split; [exact Hv'|].
    assert (existsb (fault_completion w1) l = existsb (fault_completion w) l) as Hex.
    { clear -Hprov. induction l as [|b l IHl]; cbn; [reflexivity|].
      rewrite IHl, (fault_completion_ext w w1 b Hprov). reflexivity. }
    rewrite Hex in *. cbv zeta in *. rewrite Hrw', Hc1, Hc2.
    destruct (fault_completion w bp), (vdev_remove_wanted v),
      (existsb (fault_completion w) l); cbn in Hstep |- *;
      destruct Hstep as (-> & -> & ->); cbn; repeat split; lia.
Qed.

(** C5, as the code has it: among the completions of the requests of one
    vdev, one at least reports a hard I/O error while the provider's error
    is set.  When the removal of the vdev has not been requested before,
    the first such completion issues the fault report and posts the
    asynchronous removal request, and whatever the later completions
    report, both are issued exactly once.  When the removal has been
    requested before (the orphan callback does so), no completion issues a
    fault report or posts a removal request.  Either way the
    removal-requested flag ends set. *)
Theorem fault_reported_exactly_once (w : world) (vd : nat) (v : vdev_t) (l : list bio) :
  w_vdevs w !! vd = Some v ->
  Forall (completion_of w vd) l ->
  existsb (fault_completion w) l = true ->
  exists w' v',
    run_completions l w = Some (tt, w') /\
    w_vdevs w' !! vd = Some v' /\
    vdev_remove_wanted v' = true /\
    count (is_post_remove vd) (w_log w') =
      (count (is_post_remove vd) (w_log w) +
       if vdev_remove_wanted v then 0 else 1)%nat /\
    count is_remove_request (w_log w') =
      (count is_remove_request (w_log w) +
       if vdev_remove_wanted v then 0 else 1)%nat.
Proof.
  intros Hv Hall Hex.
  destruct (run_completions_counts l w vd v Hv Hall)
    as (w' & v' & Hrun & Hv' & Hrw' & Hc1 & Hc2).
  rewrite Hex in *. rewrite orb_true_r in Hrw'. rewrite andb_true_r in Hc1, Hc2.
  exists w', v'. destruct (vdev_remove_wanted v); cbn [negb] in *;
    repeat split; assumption.
Qed.

End completions.

Lemma fault_reported_exactly_once_witness :
  exists w' v',
    run_completions (K := freebsd) pulled_completions world_ada0_pulled = Some (tt, w') /\
    w_vdevs w' !! 1%nat = Some v' /\
    vdev_remove_wanted v' = true /\
    count (is_post_remove 1) (w_log w') =
      S (count (is_post_remove 1) (w_log world_ada0_pulled)) /\
    count is_remove_request (w_log w') =
      S (count is_remove_request (w_log world_ada0_pulled)).
Proof.
  destruct (fault_reported_exactly_once (K := freebsd) world_ada0_pulled 1
              (set_vdev_physpath (Some "id1,enc@n5000/type@0/slot@1")
                 (set_vdev_tsd (Some 11%nat) (closed_vdev "/dev/ada0" 99)))
              pulled_completions)
    as (w' & v' & Hrun & Hv' & Hrw & Hc1 & Hc2).
  - vm_compute. reflexivity.
  - unfold pulled_completions.
    repeat constructor; exists read_zio, 0%nat; eexists;
      repeat split; vm_compute; reflexivity.
  - vm_compute. reflexivity.
  - exists w', v'. cbn [vdev_remove_wanted set_vdev_physpath set_vdev_tsd closed_vdev]
      in Hc1, Hc2.
    repeat split; try assumption; lia.
Defined.

(** C5 as stated fails once the consumer was orphaned: the removal is
    requested by then, and the completions that report a hard I/O error
    while the provider's error is set issue no fault report and post no
    removal request; the only removal request is the one of the orphan
    callback. *)
Lemma fault_report_after_orphan_counterexample :
  existsb (fault_completion (K := freebsd) world_ada0_orphaned) pulled_completions = true /\
  count (is_post_remove 1) (w_log world_ada0_orphaned) = 0%nat /\
  count is_remove_request (w_log world_ada0_orphaned) = 1%nat /\
  exists w',
    run_completions (K := freebsd) pulled_completions world_ada0_orphaned = Some (tt, w') /\
    count (is_post_remove 1) (w_log w') = 0%nat /\
    count is_remove_request (w_log w') = 1%nat.
Proof.
  split; [vm_compute; reflexivity|]. split; [vm_compute; reflexivity|].
  split; [vm_compute; reflexivity|]. eexists. split; [vm_compute; reflexivity|].
  split; vm_compute; reflexivity.
Qed.

(** ** The capability flags are sticky (C4) *)

Section sticky.
Context {K : SysConsts} (vd : nat).

Lemma sticky_refl w : sticky_at vd w w.
Proof. intros v H. exists v. split; [assumption | split; auto]. Qed.

Lemma sticky_trans w1 w2 w3 :
  sticky_at vd w1 w2 -> sticky_at vd w2 w3 -> sticky_at vd w1 w3.
Proof.
  intros H1 H2 v Hv. destruct (H1 v Hv) as (v' & Hv' & a & b).
  destruct (H2 v' Hv') as (v'' & Hv'' & c & d).
  exists v''. split; [assumption | split; auto].
Qed.

Lemma frame_sticky ok w w' : frame ok w w' -> sticky_at vd w w'.
Proof.
  intros (_ & _ & _ & Hv & _) v H. destruct (Hv vd v H) as (v' & H' & a & b & _).
  exists v'. split; [assumption | split; congruence].
Qed.

Lemma spres_frame {A} (m : M A) ok :
  preserves (frame ok) m -> preserves (sticky_at vd) m.
Proof. intros H w a w' Hrun. eapply frame_sticky, H, Hrun. Qed.

Lemma spres_vdev_set_le x f :
  (forall v, caps_le v (f v)) -> preserves (sticky_at vd) (vdev_set x f).
Proof.
  intros Hf w a w' (v & w1 & H1 & H2)%bind_Some.
  apply bind_Some in H1 as (m & w2 & [= <- <-] & H1).
  destruct (w_vdevs w !! x) as [v0|] eqn:E; [|discriminate].
  injection H1 as <- <-. injection H2 as _ <-.
  intros v' H'. cbn. destruct (decide (x = vd)) as [->|Hne].
  - rewrite lookup_insert_eq. exists (f v0). split; [reflexivity|].
    rewrite E in H'. injection H' as <-. apply Hf.
  - rewrite lookup_insert_ne by assumption.
    exists v'. split; [assumption | split; auto].
Qed.

Lemma spres_vdev_set_other x f :
  x <> vd -> preserves (sticky_at vd) (vdev_set x f).
Proof.
  intros Hne w a w' (v & w1 & H1 & H2)%bind_Some.
  apply bind_Some in H1 as (m & w2 & [= <- <-] & H1).
  destruct (w_vdevs w !! x) as [v0|] eqn:E; [|discriminate].
  injection H1 as <- <-. injection H2 as _ <-.
  intros v' H'. cbn. rewrite lookup_insert_ne by assumption.
  exists v'. split; [assumption | split; auto].
Qed.

Lemma spres_mem_write ptr x : preserves (sticky_at vd) (mem_write ptr x).
Proof.
  intros w a w' [= _ <-] v H. exists v. split; [exact H | split; auto].
Qed.

Ltac spres :=
  repeat first
    [ progress intros
    | solve [apply (spres_frame _ any_event); auto with pres]
    | apply (pres_ret _ sticky_refl)
    | apply pres_stuck
    | apply (pres_deref _ sticky_refl)
    | apply spres_mem_write
    | solve [apply spres_vdev_set_le; intro; split; cbn; auto]
    | solve [apply spres_vdev_set_other; assumption]
    | match goal with
      | |- preserves _ (bind _ _) => apply (pres_bind _ sticky_trans)
      | |- preserves _ (if ?b then _ else _) => destruct b
      | |- preserves _ (match ?x with _ => _ end) => destruct x
      end ].

Lemma spres_io_intr bp : preserves (sticky_at vd) (vdev_geom_io_intr bp).
Proof.
  unfold vdev_geom_io_intr, zfs_post_remove, zio_interrupt. spres.
Qed.

Lemma spres_open_other x psize max_psize ashift :
  x <> vd -> preserves (sticky_at vd) (vdev_geom_open x psize max_psize ashift).
Proof.
  intros Hne. unfold vdev_geom_open. spres.
Qed.

Lemma spres_op o : opens vd o = false -> preserves (sticky_at vd) (run_op o).
Proof.
  destruct o; cbn [opens run_op]; intros Ho;
    unfold vdev_geom_io_done, vdev_geom_hold, vdev_geom_rele.
  - apply Nat.eqb_neq in Ho.
    apply (pres_bind _ sticky_trans); [apply spres_open_other; assumption|].
    intros. apply (pres_ret _ sticky_refl).
  - apply (spres_frame _ any_event). auto with pres.
  - apply (pres_bind _ sticky_trans);
      [apply (spres_frame _ any_event); auto with pres|].
    intros. apply (pres_ret _ sticky_refl).
  - apply spres_io_intr.
  - apply (pres_ret _ sticky_refl).
  - apply (pres_ret _ sticky_refl).
  - apply (pres_ret _ sticky_refl).
  - apply (spres_frame _ any_event). auto with pres.
  - apply (spres_frame _ any_event). auto with pres.
Qed.

Lemma spres_ops l :
  forallb (fun o => negb (opens vd o)) l = true ->
  preserves (sticky_at vd) (run_ops l).
Proof.
  induction l as [|o l IH]; cbn [forallb run_ops]; intros Hl.
  - apply (pres_ret _ sticky_refl).
  - apply andb_prop in Hl as [Ho Hl]. apply negb_true_iff in Ho.
    apply (pres_bind _ sticky_trans); [apply spres_op; assumption|].
    intros. apply IH. assumption.
Qed.

End sticky.

(** C4: whatever the pool manager, the completion handler and the GEOM
    event thread do in a row, on this vdev or on any other, as long as
    none of it is an open of the vdev [vd]: a capability flag of [vd] that
    is set stays set.  Each flag changes only from false to true. *)
Theorem capability_flags_sticky {K : SysConsts} (vd : nat) (l : list vdev_op)
    (w w' : world) (v : vdev_t) :
  forallb (fun o => negb (opens vd o)) l = true ->
  run_ops l w = Some (tt, w') ->
  w_vdevs w !! vd = Some v ->
  exists v', w_vdevs w' !! vd = Some v' /\
    (vdev_nowritecache v = true -> vdev_nowritecache v' = true) /\
    (vdev_notrim v = true -> vdev_notrim v' = true).
Proof.
  intros Hl Hrun Hv. exact (spres_ops vd l Hl w tt w' Hrun v Hv).
Qed.

Lemma capability_flags_sticky_witness :
  exists v', w_vdevs (exec (run_ops (K := freebsd) busy_day) world_flush_notsup) !! 1%nat = Some v' /\
    vdev_nowritecache v' = true.
Proof.
  destruct (capability_flags_sticky (K := freebsd) 1 busy_day world_flush_notsup
              (exec (run_ops (K := freebsd) busy_day) world_flush_notsup)
              (set_vdev_nowritecache true (set_vdev_tsd (Some 11%nat)
                 (set_vdev_physpath (Some "id1,enc@n5000/type@0/slot@1")
                    (closed_vdev "/dev/ada0" 99))))
              ltac:(vm_compute; reflexivity) ltac:(vm_compute; reflexivity)
              ltac:(vm_compute; reflexivity))
    as (v' & Hv' & Hflush & _).
  exists v'. split; [exact Hv' | apply Hflush; reflexivity].
Defined.

(** ** Closing access to a consumer *)

Section detach.
Context {K : SysConsts}.

Lemma detach_total w cp :
  consumer_ok w cp -> exists w', vdev_geom_detach cp w = Some (tt, w').
Proof.
  intros (cn & g & Hc & Hg & Hp).
  assert (wp (vdev_geom_detach cp) (fun _ _ => True) w) as H.
  { unfold vdev_geom_detach, g_access, g_detach, g_destroy_consumer, g_wither_geom.
    wp_go.
    destruct (cp_private cn) as [vd|] eqn:Hpriv.
    - destruct (Hp vd eq_refl) as [v Hv]. wp_all; exact I.
    - wp_all; exact I. }
  destruct (wp_run _ _ _ H) as ([] & w' & Hrun & _). eauto.
Qed.

End detach.

(** ** Reading a finished run backwards *)

Lemma ret_inv {A} (a b : A) w w' : ret a w = Some (b, w') -> b = a /\ w' = w.
Proof. intros [= -> ->]. auto. Qed.

Lemma deref_inv {A} (o : option A) a w w' :
  deref o w = Some (a, w') -> o = Some a /\ w' = w.
Proof. destruct o; [intros [= -> ->]; auto | discriminate]. Qed.

Lemma vdev_get_inv vd v w w' :
  vdev_get vd w = Some (v, w') -> w_vdevs w !! vd = Some v /\ w' = w.
Proof.
  intros (m & w1 & [= <- <-] & H)%bind_Some. apply deref_inv in H. exact H.
Qed.

Lemma vdev_set_inv vd f u w w' :
  vdev_set vd f w = Some (u, w') ->
  exists v, w_vdevs w !! vd = Some v /\ w' = set_w_vdevs (insert vd (f v)) w.
Proof.
  intros (v & w1 & [Hv ->]%vdev_get_inv & [= _ <-])%bind_Some. eauto.
Qed.

Lemma consumer_get_inv cp c w w' :
  consumer_get cp w = Some (c, w') -> w_consumers w !! cp = Some c /\ w' = w.
Proof.
  intros (m & w1 & [= <- <-] & H)%bind_Some. apply deref_inv in H. exact H.
Qed.

Lemma geom_get_inv gp g w w' :
  geom_get gp w = Some (g, w') -> w_geoms w !! gp = Some g /\ w' = w.
Proof.
  intros (m & w1 & [= <- <-] & H)%bind_Some. apply deref_inv in H. exact H.
Qed.

Lemma provider_get_inv pp p w w' :
  provider_get pp w = Some (p, w') -> w_providers w !! pp = Some p /\ w' = w.
Proof.
  intros (m & w1 & [= <- <-] & H)%bind_Some. apply deref_inv in H. exact H.
Qed.

Lemma emit_inv e u w w' :
  emit e w = Some (u, w') -> w' = set_w_log (fun l => l ++ [e]) w.
Proof. intros [= _ <-]. reflexivity. Qed.

Lemma mem_write_inv ptr x u w w' :
  mem_write ptr x w = Some (u, w') -> w' = set_w_mem (insert ptr x) w.
Proof. intros [= _ <-]. reflexivity. Qed.

Ltac minv :=
  repeat match goal with
    | H : bind _ _ _ = Some _ |- _ =>
        let a := fresh "a" in let w := fresh "w" in let H1 := fresh "Hrun" in
        apply bind_Some in H as (a & w & H1 & H)
    | H : ret _ _ = Some _ |- _ => apply ret_inv in H as [? ?]; subst
    | H : stuck _ = Some _ |- _ => discriminate H
    | H : deref _ _ = Some _ |- _ => apply deref_inv in H as [? ?]; subst
    | H : vdev_get _ _ = Some _ |- _ => apply vdev_get_inv in H as [? ?]; subst
    | H : vdev_set _ _ _ = Some _ |- _ => apply vdev_set_inv in H as (? & ? & ?); subst
    | H : consumer_get _ _ = Some _ |- _ => apply consumer_get_inv in H as [? ?]; subst
    | H : provider_get _ _ = Some _ |- _ => apply provider_get_inv in H as [? ?]; subst
    | H : mem_write _ _ _ = Some _ |- _ => apply mem_write_inv in H; subst
    | H : emit _ _ = Some _ |- _ => apply emit_inv in H; subst
    | H : ZFS_LOG _ _ = Some _ |- _ => apply emit_inv in H; subst
    | H : printf _ _ = Some _ |- _ => apply emit_inv in H; subst
    | H : tsleep _ _ = Some _ |- _ => apply emit_inv in H; subst
    end.

(** ** The second half of [vdev_geom_open] *)

Lemma bound_kept_refl w : bound_kept w w.
Proof. split; [reflexivity|]. intros c cn H. eauto. Qed.

Lemma bound_kept_trans w1 w2 w3 :
  bound_kept w1 w2 -> bound_kept w2 w3 -> bound_kept w1 w3.
Proof.
  intros [p1 H1] [p2 H2]. split; [congruence|].
  intros c cn H. destruct (H1 c cn H) as (cn' & H' & E').
  destruct (H2 c cn' H') as (cn'' & H'' & E''). exists cn''. split; [assumption | congruence].
Qed.

Lemma bound_kept_same w w' :
  w_providers w' = w_providers w -> w_consumers w' = w_consumers w ->
  bound_kept w w'.
Proof. intros Hp Hc. split; [assumption|]. rewrite Hc. eauto. Qed.

Lemma bpres_consumer_get cp : preserves bound_kept (consumer_get cp).
Proof. intros w c w' [_ ->]%consumer_get_inv. apply bound_kept_refl. Qed.

Lemma bpres_oracle_next : preserves bound_kept oracle_next.
Proof. intros w e w' [= _ <-]. apply bound_kept_same; reflexivity. Qed.

Lemma bpres_emit e : preserves bound_kept (emit e).
Proof. intros w u w' ->%emit_inv. apply bound_kept_same; reflexivity. Qed.

Lemma bpres_consumer_set cp f :
  (forall c, cp_provider (f c) = cp_provider c) ->
  preserves bound_kept (consumer_set cp f).
Proof.
  intros Hf w u w' (c & w1 & [Hc ->]%consumer_get_inv & [= _ <-])%bind_Some.
  split; [reflexivity|]. intros c' cn' Hc'. wsimpl.
  destruct (decide (cp = c')) as [<-|Hne].
  - rewrite lookup_insert_eq. eexists. split; [reflexivity|].
    rewrite Hc in Hc'. injection Hc' as <-. apply Hf.
  - rewrite lookup_insert_ne by assumption. eauto.
Qed.

Ltac bpres :=
  repeat first
    [ progress intros
    | apply (pres_ret _ bound_kept_refl)
    | apply bpres_consumer_get
    | apply bpres_oracle_next
    | apply bpres_emit
    | solve [apply bpres_consumer_set; intros; reflexivity]
    | match goal with
      | |- preserves _ (bind _ _) => apply (pres_bind _ bound_kept_trans)
      | |- preserves _ (if ?b then _ else _) => destruct b
      end ].

Lemma bpres_g_access cp dcr dcw dce : preserves bound_kept (g_access cp dcr dcw dce).
Proof. unfold g_access. bpres. Qed.

Section open_claim.
Context {K : SysConsts}.

Lemma bpres_write_claim_retry n vd cp e :
  preserves bound_kept (write_claim_retry n vd cp e).
Proof.
  revert e. induction n as [|n IH]; intros e; cbn [write_claim_retry].
  - apply (pres_ret _ bound_kept_refl).
  - apply (pres_bind _ bound_kept_trans); [apply bpres_g_access|].
    intros e'. destruct (e' =? 0); [apply (pres_ret _ bound_kept_refl)|].
    apply (pres_bind _ bound_kept_trans); [apply bpres_emit | intros; apply IH].
Qed.

(** When [vdev_geom_open] keeps its consumer, the consumer is the resolved
    one and the sector size of its provider passed the check. *)
Lemma open_claim_kept vd cp w1 e c w2 :
  vdev_geom_open_claim vd cp w1 = Some ((e, Some c), w2) ->
  cp = Some c /\
  exists cn pp p,
    w_consumers w2 !! c = Some cn /\ cp_provider cn = Some pp /\
    w_providers w2 !! pp = Some p /\
    pp_sectorsize p <= VDEV_PAD_SIZE /\ ISP2 (pp_sectorsize p) = true.
Proof.
  unfold vdev_geom_open_claim. intros H.
  destruct cp as [c0|].
  2:{ apply bind_Some in H as (? & ? & _ & [[=] _]%ret_inv). }
  apply bind_Some in H as (cn & ? & [Hcn ->]%consumer_get_inv & H).
  apply bind_Some in H as (pp & ? & [Hpp ->]%deref_inv & H).
  apply bind_Some in H as (p & ? & [Hp ->]%provider_get_inv & H).
  destruct (_ || _) eqn:Hbad.
  { apply bind_Some in H as (? & ? & _ & H).
    apply bind_Some in H as (? & ? & _ & [[=] _]%ret_inv). }
  apply orb_false_elim in Hbad as [Hpad Hp2].
  apply Z.ltb_ge in Hpad. apply negb_false_iff in Hp2.
  apply bind_Some in H as (v & ? & [Hv ->]%vdev_get_inv & H).
  destruct (_ && _).
  - apply bind_Some in H as (err & w & Hretry & H).
    destruct (negb (err =? 0)).
    { apply bind_Some in H as (? & ? & _ & H).
      apply bind_Some in H as (? & ? & _ & [[=] _]%ret_inv). }
    apply ret_inv in H as [[= -> ->] ->].
    destruct (bpres_write_claim_retry _ _ _ _ _ _ _ Hretry) as [Hprov Hkept].
    destruct (Hkept _ _ Hcn) as (cn' & Hcn' & Eq).
    split; [reflexivity|]. exists cn', pp, p. rewrite Hprov.
    repeat split; try assumption. congruence.
  - apply ret_inv in H as [[= -> ->] ->]. split; [reflexivity|].
    exists cn, pp, p. auto.
Qed.

(** When it drops the consumer, the error is not zero. *)
Lemma open_claim_dropped vd cp w1 e w2 :
  vdev_geom_open_claim vd cp w1 = Some ((e, None), w2) -> e <> 0.
Proof.
  unfold vdev_geom_open_claim. intros H.
  destruct cp as [c0|].
  2:{ apply bind_Some in H as (? & ? & _ & [[= ->] _]%ret_inv). apply ENOENT_nonzero. }
  apply bind_Some in H as (cn & ? & [Hcn ->]%consumer_get_inv & H).
  apply bind_Some in H as (pp & ? & [Hpp ->]%deref_inv & H).
  apply bind_Some in H as (p & ? & [Hp ->]%provider_get_inv & H).
  destruct (_ || _) eqn:Hbad.
  { apply bind_Some in H as (? & ? & _ & H).
    apply bind_Some in H as (? & ? & _ & [[= ->] _]%ret_inv). apply EINVAL_nonzero. }
  apply bind_Some in H as (v & ? & [Hv ->]%vdev_get_inv & H).
  destruct (_ && _).
  - apply bind_Some in H as (err & w & Hretry & H).
    destruct (negb (err =? 0)) eqn:E.
    + apply bind_Some in H as (? & ? & _ & H).
      apply bind_Some in H as (? & ? & _ & [[= ->] _]%ret_inv).
      apply negb_true_iff, Z.eqb_neq in E. exact E.
    + apply ret_inv in H as [[=] _].
  - apply ret_inv in H as [[=] _].
Qed.

(** From the state [vdev_geom_open] starts in to the state its checks on
    the resolved consumer end in. *)
Lemma open_frame w vd v cp w1 r w2 :
  w_vdevs w !! vd = Some v ->
  vdev_geom_open_resolve vd (set_w_vdevs (insert vd (set_vdev_tsd None v)) w) = Some (cp, w1) ->
  vdev_geom_open_claim vd cp w1 = Some (r, w2) ->
  w_mem w2 = w_mem w /\ w_providers w2 = w_providers w /\
  w_oracle w2 = w_oracle w /\
  exists v2, w_vdevs w2 !! vd = Some v2 /\ vdev_tsd v2 = None /\
    vdev_nowritecache v2 = vdev_nowritecache v /\
    vdev_notrim v2 = vdev_notrim v /\ vdev_spa v2 = vdev_spa v.
Proof.
  intros Hv Hres Hclaim.
  pose proof (fpres_open_resolve _ _ _ _ Hres) as F1.
  pose proof (fpres_open_claim any_event above_quiet_any _ _ _ _ _ Hclaim) as F2.
  destruct (frame_trans _ _ _ _ F1 F2) as (Hm & Hp & Ho & Hvd & _).
  repeat split; try assumption.
  destruct (Hvd vd (set_vdev_tsd None v)) as (v2 & Hv2 & k1 & k2 & k3 & _ & k5).
  { wsimpl. apply lookup_insert_eq. }
  exists v2. repeat split; auto.
Qed.

(** What a successful [vdev_geom_open] leaves behind. *)
Lemma open_success w vd v psize max_psize ashift w' :
  w_vdevs w !! vd = Some v ->
  vdev_geom_open vd psize max_psize ashift w = Some (0, w') ->
  exists c cn pp p v',
    w_vdevs w' !! vd = Some v' /\ vdev_tsd v' = Some c /\
    vdev_nowritecache v' = false /\ vdev_notrim v' = vdev_notrim v /\
    w_consumers w' !! c = Some cn /\ cp_provider cn = Some pp /\
    w_providers w' !! pp = Some p /\ w_providers w' = w_providers w /\
    pp_sectorsize p <= VDEV_PAD_SIZE /\ ISP2 (pp_sectorsize p) = true /\
    w_mem w' !! ashift =
      Some (highbit (Z.max (pp_sectorsize p) SPA_MINBLOCKSIZE) - 1).
Proof.
  intros Hv H. unfold vdev_geom_open in H.
  apply bind_Some in H as (v0 & ? & [Hv0 ->]%vdev_get_inv & H).
  rewrite Hv in Hv0. injection Hv0 as <-.
  destruct (match vdev_path v with Some _ => _ | None => _ end).
  { apply bind_Some in H as (? & ? & _ & [E _]%ret_inv).
    symmetry in E. destruct (EINVAL_nonzero E). }
  apply bind_Some in H as (? & ? & (v0 & Hv0 & ->)%vdev_set_inv & H).
  rewrite Hv in Hv0. injection Hv0 as <-.
  apply bind_Some in H as (cp & w1 & Hres & H).
  apply bind_Some in H as ([e ocp] & w2 & Hclaim & H).
  destruct (open_frame _ _ _ _ _ _ _ Hv Hres Hclaim)
    as (Hm & Hp & Ho & v2 & Hv2 & Htsd & Hnwc & Hnt & Hspa).
  cbn [fst snd] in H. destruct ocp as [c|].
  2:{ apply bind_Some in H as (? & ? & _ & [E _]%ret_inv).
      subst e. destruct (open_claim_dropped _ _ _ _ _ Hclaim eq_refl). }
  destruct (open_claim_kept _ _ _ _ _ _ Hclaim) as (-> & cn & pp & p & Hcn & Hpp & Hpr & Hpad & Hp2).
  apply bind_Some in H as (cn' & ? & [Hcn' ->]%consumer_get_inv & H).
  rewrite Hcn in Hcn'. injection Hcn' as <-.
  apply bind_Some in H as (pp' & ? & [Hpp' ->]%deref_inv & H).
  rewrite Hpp in Hpp'. injection Hpp' as <-.
  apply bind_Some in H as (p' & ? & [Hpr' ->]%provider_get_inv & H).
  rewrite Hpr in Hpr'. injection Hpr' as <-.
  apply bind_Some in H as (? & ? & (v2' & Hv2' & ->)%vdev_set_inv & H).
  rewrite Hv2 in Hv2'. injection Hv2' as <-.
  apply bind_Some in H as (? & ? & ->%mem_write_inv & H).
  apply bind_Some in H as (? & ? & ->%mem_write_inv & H).
  apply bind_Some in H as (? & ? & ->%mem_write_inv & H).
  apply bind_Some in H as (? & ? & (v3 & Hv3 & ->)%vdev_set_inv & [_ ->]%ret_inv).
  wsimpl. rewrite lookup_insert_eq in Hv3. injection Hv3 as <-.
  exists c, cn, pp, p. eexists.
  split; [apply lookup_insert_eq|]. wsimpl.
  repeat split; try assumption; try congruence.
  apply lookup_insert_eq.
Qed.

End open_claim.

(** ** Running [vdev_geom_open] forward *)

Lemma consumer_ok_ext w w' cp :
  w_consumers w' = w_consumers w -> w_geoms w' = w_geoms w ->
  w_vdevs w' = w_vdevs w -> consumer_ok w cp -> consumer_ok w' cp.
Proof. unfold consumer_ok. intros -> -> ->. auto. Qed.

Section open_forward.
Context {K : SysConsts}.

Lemma wp_detach w cp (Q : unit -> world -> Prop) :
  consumer_ok w cp ->
  (forall w', frame quiet w w' -> Q tt w') ->
  wp (vdev_geom_detach cp) Q w.
Proof.
  intros Hok HQ. destruct (detach_total w cp Hok) as (w' & Hrun).
  eapply wp_of_run; [exact Hrun|]. apply HQ.
  exact (fpres_detach quiet above_quiet_quiet cp w tt w' Hrun).
Qed.

(** A resolved consumer whose provider has an unsupported sector size is
    detached, and the error is [EINVAL]. *)
Lemma open_claim_unsupported w1 vd c cn pp p :
  w_consumers w1 !! c = Some cn -> cp_provider cn = Some pp ->
  w_providers w1 !! pp = Some p -> consumer_ok w1 c ->
  unsupported_sectorsize p = true ->
  exists w2, vdev_geom_open_claim vd (Some c) w1 = Some ((EINVAL, None), w2) /\
             frame quiet w1 w2.
Proof.
  intros Hcn Hpp Hp Hok Hbad.
  assert (wp (vdev_geom_open_claim vd (Some c))
            (fun r _ => r = (EINVAL, None)) w1) as H.
  { unfold vdev_geom_open_claim. wp_go.
    unfold unsupported_sectorsize in Hbad. rewrite Hbad. wp_go.
    apply wp_detach.
    - eapply consumer_ok_ext; [..|exact Hok]; reflexivity.
    - intros w' _. wp_go. reflexivity. }
  destruct (wp_run _ _ _ H) as (r & w2 & Hrun & ->).
  exists w2. split; [exact Hrun|].
  exact (fpres_open_claim quiet above_quiet_quiet _ _ _ _ _ Hrun).
Qed.

(** The retry loop when every attempt fails: the state changes in the log
    and the tick only, and the error is the one of the last attempt. *)
Lemma write_claim_retry_fails vd c cn n : forall e0 w,
  w_consumers w !! c = Some cn ->
  (forall i, (i < n)%nat -> w_oracle w (w_tick w + i)%nat <> 0) ->
  wp (write_claim_retry n vd c e0)
    (fun e w' =>
       e = match n with O => e0 | S k => w_oracle w (w_tick w + k)%nat end /\
       w_consumers w' = w_consumers w /\ w_geoms w' = w_geoms w /\
       w_vdevs w' = w_vdevs w /\ w_oracle w' = w_oracle w /\
       w_tick w' = (w_tick w + n)%nat) w.
Proof.
  induction n as [|n IH]; intros e0 w Hcn Hfail; cbn [write_claim_retry].
  - wp_go. repeat split; auto.
  - unfold g_access. wp_go.
    pose proof (Hfail 0%nat ltac:(lia)) as H0. rewrite Nat.add_0_r in H0.
    apply Z.eqb_neq in H0. rewrite H0. wp_go. rewrite H0. wp_go.
    eapply wp_mono.
    + apply IH; wsimpl; [exact Hcn|].
      intros i Hi. specialize (Hfail (S i) ltac:(lia)).
      replace (S (w_tick w) + i)%nat with (w_tick w + S i)%nat by lia. exact Hfail.
    + cbv beta. wsimpl. intros e w' (-> & Hc & Hg & Hv & Ho & Ht).
      repeat split; try assumption; [|lia].
      destruct n as [|k].
      * rewrite Nat.add_0_r. reflexivity.
      * replace (S (w_tick w) + k)%nat with (w_tick w + S k)%nat by lia. reflexivity.
Qed.

(** The pool is open for writing, nobody holds a write claim on the
    consumer yet, and all five attempts to take one fail. *)
Lemma open_claim_write_fails w1 vd c cn pp p v1 :
  w_consumers w1 !! c = Some cn -> cp_provider cn = Some pp ->
  w_providers w1 !! pp = Some p -> consumer_ok w1 c ->
  unsupported_sectorsize p = false ->
  cp_acw cn = 0 ->
  w_vdevs w1 !! vd = Some v1 ->
  Z.land (spa_mode (vdev_spa v1)) FWRITE <> 0 ->
  (forall i, (i < 5)%nat -> w_oracle w1 (w_tick w1 + i)%nat <> 0) ->
  exists w2,
    vdev_geom_open_claim vd (Some c) w1 =
      Some ((w_oracle w1 (w_tick w1 + 4)%nat, None), w2) /\
    frame quiet w1 w2.
Proof.
  intros Hcn Hpp Hp Hok Hgood Hacw Hv1 Hmode Hfail.
  assert (wp (vdev_geom_open_claim vd (Some c))
            (fun r _ => r = (w_oracle w1 (w_tick w1 + 4)%nat, None)) w1) as H.
  { unfold vdev_geom_open_claim. wp_go.
    unfold unsupported_sectorsize in Hgood. rewrite Hgood. wp_go.
    rewrite Hacw. apply Z.eqb_neq in Hmode. rewrite Hmode. cbn [Z.eqb andb negb].
    apply wp_bind. eapply wp_mono.
    { apply (write_claim_retry_fails vd c cn 5 0 w1 Hcn Hfail). }
    cbv beta. intros e w' (-> & Hc & Hg & Hv & Ho & Ht).
    pose proof (Hfail 4%nat ltac:(lia)) as H4. apply Z.eqb_neq in H4.
    rewrite H4. cbn [negb]. wp_go.
    apply wp_detach.
    - eapply consumer_ok_ext; [..|exact Hok]; wsimpl; assumption.
    - intros w'' _. wp_go. reflexivity. }
  destruct (wp_run _ _ _ H) as (r & w2 & Hrun & ->).
  exists w2. split; [exact Hrun|].
  exact (fpres_open_claim quiet above_quiet_quiet _ _ _ _ _ Hrun).
Qed.

(** [vdev_geom_open] once its checks dropped the consumer. *)
Lemma open_fails w vd v path psize max_psize ashift cp w1 e w2 :
  w_vdevs w !! vd = Some v ->
  vdev_path v = Some path -> starts_with_slash path = true ->
  vdev_geom_open_resolve vd (set_w_vdevs (insert vd (set_vdev_tsd None v)) w) = Some (cp, w1) ->
  vdev_geom_open_claim vd cp w1 = Some ((e, None), w2) ->
  exists w' v',
    vdev_geom_open vd psize max_psize ashift w = Some (e, w') /\
    w_vdevs w' !! vd = Some v' /\ vdev_tsd v' = None /\
    vs_aux v' = VDEV_AUX_OPEN_FAILED /\
    w_log w' = w_log w2 /\ w_mem w' = w_mem w.
Proof.
  intros Hv Hpath Hslash Hres Hclaim.
  destruct (open_frame _ _ _ _ _ _ _ Hv Hres Hclaim)
    as (Hm & Hp & Ho & v2 & Hv2 & Htsd & _).
  exists (set_w_vdevs (insert vd (set_vs_aux VDEV_AUX_OPEN_FAILED v2)) w2).
  exists (set_vs_aux VDEV_AUX_OPEN_FAILED v2).
  split.
  - apply wp_eq. unfold vdev_geom_open. wp_go.
    rewrite Hpath, Hslash. cbn [negb]. wp_go.
    eapply wp_of_run; [exact Hres|]. cbv beta. wp_go.
    eapply wp_of_run; [exact Hclaim|]. cbv beta. cbn [fst snd]. wp_go.
    auto.
  - wsimpl. rewrite lookup_insert_eq. repeat split; auto.
Qed.

End open_forward.

(** ** Well-formed stores *)

Lemma wf_kept_refl o w : wf_kept o w w.
Proof. intros H. exact H. Qed.

Lemma wf_kept_trans o w1 w2 w3 :
  wf_kept o w1 w2 -> wf_kept o w2 w3 -> wf_kept o w1 w3.
Proof. unfold wf_kept. auto. Qed.

Lemma wf_kept_same o w w' :
  w_geoms w' = w_geoms w -> w_next w' = w_next w ->
  w_consumers w' = w_consumers w -> w_vdevs w' = w_vdevs w ->
  wf_kept o w w'.
Proof. unfold wf_kept, wf. intros -> -> -> ->. auto. Qed.

Lemma wf_consumer_ok w cp :
  wf w -> is_Some (w_consumers w !! cp) -> consumer_ok w cp.
Proof.
  intros [_ Hc] [cn Hcn]. destruct (Hc cp cn Hcn) as [(g & Hg & _) Hp].
  exists cn, g. auto.
Qed.

(** Before anything is attached there is nothing to be ill formed. *)
Lemma wf_boot vdevs providers oracle : wf (boot vdevs providers oracle).
Proof.
  split.
  - intros gp [g Hg]. cbn in Hg. rewrite lookup_empty in Hg. discriminate.
  - intros cp cn Hcn. cbn in Hcn. rewrite lookup_empty in Hcn. discriminate.
Qed.

Ltac wf_split :=
  split;
  [ split;
    [ intros gx Hgx
    | intros cx cnx Hcx; split; [|intros y Hy] ]
  | ]; wsimpl.

Section wf_primitives.
Context (o : option nat).

Lemma kpres_emit e : preserves (wf_kept o) (emit e).
Proof. intros w u w' ->%emit_inv. apply wf_kept_same; reflexivity. Qed.

Lemma kpres_oracle_next : preserves (wf_kept o) oracle_next.
Proof. intros w e w' [= _ <-]. apply wf_kept_same; reflexivity. Qed.

Lemma kpres_mem_write ptr x : preserves (wf_kept o) (mem_write ptr x).
Proof. intros w u w' ->%mem_write_inv. apply wf_kept_same; reflexivity. Qed.

Lemma kpres_vdev_get x : preserves (wf_kept o) (vdev_get x).
Proof. intros w v w' [_ ->]%vdev_get_inv. apply wf_kept_refl. Qed.

Lemma kpres_consumer_get x : preserves (wf_kept o) (consumer_get x).
Proof. intros w v w' [_ ->]%consumer_get_inv. apply wf_kept_refl. Qed.

Lemma kpres_provider_get x : preserves (wf_kept o) (provider_get x).
Proof. intros w v w' [_ ->]%provider_get_inv. apply wf_kept_refl. Qed.

Lemma kpres_geom_get x : preserves (wf_kept o) (geom_get x).
Proof. intros w v w' [_ ->]%geom_get_inv. apply wf_kept_refl. Qed.

Lemma kpres_vdev_set x f : preserves (wf_kept o) (vdev_set x f).
Proof.
  intros w u w' (v & Hv & ->)%vdev_set_inv [[Hg Hcs] Hvd]. wf_split.
  - apply Hg. exact Hgx.
  - apply (Hcs cx cnx Hcx).
  - apply lookup_insert_is_Some'. right. eapply Hcs; eassumption.
  - intros y Hy. apply lookup_insert_is_Some'. auto.
Qed.

(** A consumer may be given the vdev [o] as its back-reference. *)
Lemma kpres_consumer_set cp f :
  (forall c, cp_geom (f c) = cp_geom c) ->
  (forall c, cp_private (f c) = cp_private c \/ cp_private (f c) = None \/
             cp_private (f c) = o) ->
  preserves (wf_kept o) (consumer_set cp f).
Proof.
  intros Hgeom Hpriv w u w' (c & w1 & [Hc ->]%consumer_get_inv & [= _ <-])%bind_Some
    [[Hg Hcs] Hvd].
  wf_split.
  - apply Hg. exact Hgx.
  - destruct (decide (cp = cx)) as [<-|Hne].
    + rewrite lookup_insert_eq in Hcx. injection Hcx as <-.
      rewrite Hgeom. apply (Hcs cp c Hc).
    + rewrite lookup_insert_ne in Hcx by assumption. apply (Hcs cx cnx Hcx).
  - destruct (decide (cp = cx)) as [<-|Hne].
    + rewrite lookup_insert_eq in Hcx. injection Hcx as <-.
      destruct (Hpriv c) as [E|[E|E]]; rewrite E in Hy.
      * eapply Hcs; eassumption.
      * discriminate.
      * apply Hvd. exact Hy.
    + rewrite lookup_insert_ne in Hcx by assumption. eapply Hcs; eassumption.
  - exact Hvd.
Qed.

(** A geom may be changed in any way that keeps its consumers listed. *)
Lemma kpres_geom_set gp f :
  (forall g x, x ∈ gp_consumer g -> x ∈ gp_consumer (f g)) ->
  preserves (wf_kept o) (geom_set gp f).
Proof.
  intros Hf w u w' (g & w1 & [Hgp ->]%geom_get_inv & [= _ <-])%bind_Some
    [[Hg Hcs] Hvd].
  wf_split.
  - apply lookup_insert_is_Some' in Hgx as [<-|Hgx]; eauto.
  - destruct (Hcs cx cnx Hcx) as [(g0 & Hg0 & Hin) _].
    destruct (decide (gp = cp_geom cnx)) as [E|Hne].
    + rewrite <- E in *. rewrite lookup_insert_eq.
      rewrite Hgp in Hg0. injection Hg0 as <-. eauto.
    + rewrite lookup_insert_ne by assumption. eauto.
  - eapply Hcs; eassumption.
  - exact Hvd.
Qed.

(** The new geom takes an identifier no consumer refers to. *)
Lemma kpres_g_new_geomf name : preserves (wf_kept o) (g_new_geomf name).
Proof.
  intros w gp w' H [[Hg Hcs] Hvd].
  apply bind_Some in H as (gp0 & wa & [= <- <-] & H).
  apply bind_Some in H as (ub & wb & [= _ <-] & H).
  apply bind_Some in H as (uc & wc & [= _ <-] & [-> ->]%ret_inv).
  wf_split.
  - apply lookup_insert_is_Some' in Hgx as [<-|Hgx]; [lia|].
    specialize (Hg gx Hgx). lia.
  - destruct (Hcs cx cnx Hcx) as [(g0 & Hg0 & Hin) _].
    exists g0. split; [|assumption].
    rewrite lookup_insert_ne; [assumption|].
    intros E. specialize (Hg (cp_geom cnx) (mk_is_Some _ _ Hg0)). lia.
  - eapply Hcs; eassumption.
  - exact Hvd.
Qed.

Lemma kpres_g_new_consumer gp : preserves (wf_kept o) (g_new_consumer gp).
Proof.
  intros w cp w' H [[Hg Hcs] Hvd].
  apply bind_Some in H as (g & wa & [Hgp ->]%geom_get_inv & H).
  apply bind_Some in H as (cp0 & wb & [= <- <-] & H).
  apply bind_Some in H as (uc & wc & [= _ <-] & H).
  apply bind_Some in H as (ud & wd & H & [-> ->]%ret_inv).
  apply bind_Some in H as (g' & we & [Hgp' ->]%geom_get_inv & [= _ <-]).
  wsimpl. rewrite Hgp in Hgp'. injection Hgp' as <-.
  wf_split.
  - apply lookup_insert_is_Some' in Hgx as [<-|Hgx].
    + specialize (Hg gp (mk_is_Some _ _ Hgp)). lia.
    + specialize (Hg gx Hgx). lia.
  - destruct (decide (w_next w = cx)) as [<-|Hne].
    + rewrite lookup_insert_eq in Hcx. injection Hcx as <-. wsimpl.
      rewrite lookup_insert_eq. eexists. split; [reflexivity|].
      wsimpl. apply elem_of_cons. auto.
    + rewrite lookup_insert_ne in Hcx by assumption.
      destruct (Hcs cx cnx Hcx) as [(g0 & Hg0 & Hin) _].
      destruct (decide (gp = cp_geom cnx)) as [E|Hne'].
      * rewrite <- E in *. rewrite lookup_insert_eq.
        rewrite Hgp in Hg0. injection Hg0 as <-.
        eexists. split; [reflexivity|]. wsimpl. apply elem_of_cons. auto.
      * rewrite lookup_insert_ne by assumption. eauto.
  - destruct (decide (w_next w = cx)) as [<-|Hne].
    + rewrite lookup_insert_eq in Hcx. injection Hcx as <-. discriminate.
    + rewrite lookup_insert_ne in Hcx by assumption. eapply Hcs; eassumption.
  - exact Hvd.
Qed.

Lemma kpres_g_destroy_consumer cp : preserves (wf_kept o) (g_destroy_consumer cp).
Proof.
  intros w u w' H [[Hg Hcs] Hvd].
  apply bind_Some in H as (c & wa & [Hc ->]%consumer_get_inv & H).
  apply bind_Some in H as (g & wb & [Hgp ->]%geom_get_inv & H).
  apply bind_Some in H as (uc & wc & H & [= _ <-]).
  apply bind_Some in H as (g' & wd & [Hgp' ->]%geom_get_inv & [= _ <-]).
  rewrite Hgp in Hgp'. injection Hgp' as <-.
  wf_split.
  - apply lookup_insert_is_Some' in Hgx as [<-|Hgx]; eauto.
  - apply lookup_delete_Some in Hcx as [Hne Hcx].
    destruct (Hcs cx cnx Hcx) as [(g0 & Hg0 & Hin) _].
    destruct (decide (cp_geom c = cp_geom cnx)) as [E|Hne'].
    + rewrite <- E in *. rewrite lookup_insert_eq.
      rewrite Hgp in Hg0. injection Hg0 as <-.
      eexists. split; [reflexivity|]. wsimpl.
      apply list_elem_of_filter. auto.
    + rewrite lookup_insert_ne by assumption. eauto.
  - apply lookup_delete_Some in Hcx as [Hne Hcx]. eapply Hcs; eassumption.
  - exact Hvd.
Qed.

(** A geom is destroyed once it has no consumer, so none is left dangling. *)
Lemma kpres_g_destroy_geom gp : preserves (wf_kept o) (g_destroy_geom gp).
Proof.
  intros w u w' H [[Hg Hcs] Hvd].
  apply bind_Some in H as (g & wa & [Hgp ->]%geom_get_inv & H).
  destruct (gp_consumer g) eqn:Hl; [|discriminate].
  apply bind_Some in H as (ub & wb & [= _ <-] & [= _ <-]).
  wf_split.
  - destruct Hgx as [g' Hx]. apply lookup_delete_Some in Hx as [_ Hx]. eauto.
  - destruct (Hcs cx cnx Hcx) as [(g0 & Hg0 & Hin) _].
    destruct (decide (gp = cp_geom cnx)) as [E|Hne].
    + rewrite <- E in *. rewrite Hgp in Hg0. injection Hg0 as <-.
      rewrite Hl in Hin. apply elem_of_nil in Hin. contradiction.
    + rewrite lookup_delete_ne by assumption. eauto.
  - eapply Hcs; eassumption.
  - exact Hvd.
Qed.

End wf_primitives.

Create HintDb wfk discriminated.

#[global] Hint Resolve kpres_emit kpres_oracle_next kpres_mem_write
  kpres_vdev_get kpres_consumer_get kpres_provider_get kpres_geom_get
  kpres_vdev_set kpres_g_new_geomf kpres_g_new_consumer
  kpres_g_destroy_consumer kpres_g_destroy_geom : wfk.
#[global] Hint Extern 1 (preserves _ (consumer_set _ _)) =>
  apply kpres_consumer_set; intros; wsimpl; auto : wfk.
#[global] Hint Extern 1 (preserves _ (geom_set _ _)) =>
  apply kpres_geom_set; intros; wsimpl; auto : wfk.
#[global] Hint Extern 1 (preserves _ (ZFS_LOG _)) => apply kpres_emit : wfk.
#[global] Hint Extern 1 (preserves _ (printf _)) => apply kpres_emit : wfk.
#[global] Hint Extern 1 (preserves _ (tsleep _)) => apply kpres_emit : wfk.
#[global] Hint Extern 1 (preserves _ (spa_async_request _ _)) =>
  apply kpres_emit : wfk.
#[global] Hint Extern 1 (preserves _ (zfs_post_remove _ _)) =>
  apply kpres_emit : wfk.
#[global] Hint Extern 1 (preserves _ (zio_interrupt _)) =>
  apply kpres_emit : wfk.
#[global] Hint Extern 1 (preserves _ (g_io_request _ _)) =>
  apply kpres_emit : wfk.
#[global] Hint Extern 1 (preserves _ biowait) => apply kpres_oracle_next : wfk.

Ltac kpres :=
  repeat first
    [ progress intros
    | solve [auto with wfk]
    | apply (pres_ret _ (wf_kept_refl _))
    | apply pres_stuck
    | apply (pres_gets _ (wf_kept_refl _))
    | apply (pres_deref _ (wf_kept_refl _))
    | match goal with
      | |- preserves _ (bind _ _) => apply (pres_bind _ (wf_kept_trans _))
      | |- preserves _ (if ?b then _ else _) => destruct b
      | |- preserves _ (match ?x with _ => _ end) => destruct x
      end ].

(** *** What keeps the stores well formed, whatever the vdev *)

Section wf_functions.
Context {K : SysConsts} (o : option nat).

Lemma kpres_g_attach cp pp : preserves (wf_kept o) (g_attach cp pp).
Proof. unfold g_attach. kpres. Qed.

Lemma kpres_g_access cp dcr dcw dce : preserves (wf_kept o) (g_access cp dcr dcw dce).
Proof. unfold g_access. kpres. Qed.

Lemma kpres_g_detach cp : preserves (wf_kept o) (g_detach cp).
Proof. unfold g_detach. kpres. Qed.

Lemma kpres_g_wither_geom gp : preserves (wf_kept o) (g_wither_geom gp).
Proof. unfold g_wither_geom. kpres. Qed.

Lemma kpres_g_provider_by_name name : preserves (wf_kept o) (g_provider_by_name name).
Proof. unfold g_provider_by_name. kpres. Qed.

Lemma kpres_g_io_getattr cp : preserves (wf_kept o) (g_io_getattr cp).
Proof. unfold g_io_getattr. kpres. Qed.

Hint Resolve kpres_g_attach kpres_g_access kpres_g_detach kpres_g_wither_geom
  kpres_g_provider_by_name kpres_g_io_getattr : wfk.

Lemma kpres_orphan cp : preserves (wf_kept o) (vdev_geom_orphan cp).
Proof. unfold vdev_geom_orphan. kpres. Qed.

Lemma kpres_attrchanged cp attr : preserves (wf_kept o) (vdev_geom_attrchanged cp attr).
Proof. unfold vdev_geom_attrchanged. kpres. Qed.

Lemma kpres_find_zfs_vdev_geom l : preserves (wf_kept o) (find_zfs_vdev_geom l).
Proof. induction l as [|gp l IH]; cbn [find_zfs_vdev_geom]; kpres. Qed.

Lemma kpres_find_consumer l pp : preserves (wf_kept o) (find_consumer l pp).
Proof. induction l as [|cp l IH]; cbn [find_consumer]; kpres. Qed.

Lemma kpres_detach cp : preserves (wf_kept o) (vdev_geom_detach cp).
Proof. unfold vdev_geom_detach. kpres. Qed.

Hint Resolve kpres_detach : wfk.

Lemma kpres_close vd : preserves (wf_kept o) (vdev_geom_close vd).
Proof. unfold vdev_geom_close. kpres. Qed.

Lemma kpres_io_loop fuel cp cmd off offset p size maxio :
  preserves (wf_kept o) (vdev_geom_io_loop fuel cp cmd off offset p size maxio).
Proof.
  revert off p size. induction fuel as [|fuel IH]; intros off p size;
    cbn [vdev_geom_io_loop]; kpres.
Qed.

Hint Resolve kpres_io_loop : wfk.

Lemma kpres_io cp cmd offset size :
  preserves (wf_kept o) (vdev_geom_io cp cmd offset size).
Proof. unfold vdev_geom_io. kpres. Qed.

Hint Resolve kpres_io : wfk.

Lemma kpres_read_labels n l labels cp psize ss size pguid vguid :
  preserves (wf_kept o) (read_labels n l labels cp psize ss size pguid vguid).
Proof.
  revert l labels pguid vguid. induction n as [|n IH]; intros l labels pguid vguid;
    cbn [read_labels]; kpres.
Qed.

Hint Resolve kpres_read_labels : wfk.

Lemma kpres_read_guids cp : preserves (wf_kept o) (vdev_geom_read_guids cp).
Proof. unfold vdev_geom_read_guids. kpres. Qed.

Lemma kpres_write_claim_retry n vd cp e :
  preserves (wf_kept o) (write_claim_retry n vd cp e).
Proof. revert e. induction n as [|n IH]; intros e; cbn [write_claim_retry]; kpres. Qed.

Hint Resolve kpres_write_claim_retry : wfk.

Lemma kpres_open_claim vd cp : preserves (wf_kept o) (vdev_geom_open_claim vd cp).
Proof. unfold vdev_geom_open_claim. kpres. Qed.

Lemma kpres_io_intr bp : preserves (wf_kept o) (vdev_geom_io_intr bp).
Proof. unfold vdev_geom_io_intr. kpres. Qed.

Lemma kpres_sendreq zio : preserves (wf_kept o) (sendreq zio).
Proof. unfold sendreq. kpres. Qed.

Hint Resolve kpres_sendreq : wfk.

Lemma kpres_io_start zio : preserves (wf_kept o) (vdev_geom_io_start zio).
Proof. unfold vdev_geom_io_start. kpres. Qed.

End wf_functions.

#[global] Hint Resolve kpres_g_attach kpres_g_access kpres_g_detach
  kpres_g_wither_geom kpres_g_provider_by_name kpres_g_io_getattr
  kpres_orphan kpres_attrchanged kpres_find_zfs_vdev_geom kpres_find_consumer
  kpres_detach kpres_close kpres_io kpres_read_guids kpres_open_claim
  kpres_io_intr kpres_io_start : wfk.

(** *** Opening the vdev [vd] keeps the stores well formed *)

Section wf_open.
Context {K : SysConsts} (vd : nat).

Lemma kpres_attach pp : preserves (wf_kept (Some vd)) (vdev_geom_attach pp vd).
Proof. unfold vdev_geom_attach. kpres. Qed.

Hint Resolve kpres_attach : wfk.

Lemma kpres_taste_providers l pp zcp :
  preserves (wf_kept (Some vd)) (taste_providers l pp zcp vd).
Proof.
  revert pp. induction l as [|p l IH]; intros pp; cbn [taste_providers]; kpres.
Qed.

Hint Resolve kpres_taste_providers : wfk.

Lemma kpres_attach_by_guids :
  preserves (wf_kept (Some vd)) (vdev_geom_attach_by_guids vd).
Proof. unfold vdev_geom_attach_by_guids. kpres. Qed.

Hint Resolve kpres_attach_by_guids : wfk.

Lemma kpres_open_by_guids :
  preserves (wf_kept (Some vd)) (vdev_geom_open_by_guids vd).
Proof. unfold vdev_geom_open_by_guids. kpres. Qed.

Lemma kpres_open_by_path check_guid :
  preserves (wf_kept (Some vd)) (vdev_geom_open_by_path vd check_guid).
Proof. unfold vdev_geom_open_by_path. kpres. Qed.

Hint Resolve kpres_open_by_guids kpres_open_by_path : wfk.

Lemma kpres_open_resolve :
  preserves (wf_kept (Some vd)) (vdev_geom_open_resolve vd).
Proof. unfold vdev_geom_open_resolve. kpres. Qed.

Hint Resolve kpres_open_resolve : wfk.

Lemma kpres_open psize max_psize ashift :
  preserves (wf_kept (Some vd)) (vdev_geom_open vd psize max_psize ashift).
Proof. unfold vdev_geom_open. kpres. Qed.

End wf_open.

(** Every entry point and callback keeps the stores well formed: the
    states the file reaches from [boot] are well formed. *)
Section wf_invariant.
Context {K : SysConsts}.

Lemma wf_run_op o w u w' : run_op o w = Some (u, w') -> wf w -> wf w'.
Proof.
  intros H Hwf. destruct o; cbn [run_op] in H.
  - apply bind_Some in H as (e & wa & H & [_ ->]%ret_inv).
    eapply (kpres_open vd psize max_psize ashift); [exact H|].
    split; [exact Hwf|]. intros x [= <-].
    unfold vdev_geom_open in H.
    apply bind_Some in H as (v & wb & [Hv _]%vdev_get_inv & _). eauto.
  - eapply (kpres_close None); [exact H|]. split; [exact Hwf | discriminate].
  - apply bind_Some in H as (e & wa & H & [_ ->]%ret_inv).
    eapply (kpres_io_start None); [exact H|]. split; [exact Hwf | discriminate].
  - eapply (kpres_io_intr None); [exact H|]. split; [exact Hwf | discriminate].
  - apply ret_inv in H as [_ ->]. exact Hwf.
  - apply ret_inv in H as [_ ->]. exact Hwf.
  - apply ret_inv in H as [_ ->]. exact Hwf.
  - eapply (kpres_orphan None); [exact H|]. split; [exact Hwf | discriminate].
  - eapply (kpres_attrchanged None); [exact H|]. split; [exact Hwf | discriminate].
Qed.

Lemma wf_run_ops l : forall w u w', run_ops l w = Some (u, w') -> wf w -> wf w'.
Proof.
  induction l as [|o l IH]; cbn [run_ops]; intros w u w' H Hwf.
  - apply ret_inv in H as [_ ->]. exact Hwf.
  - apply bind_Some in H as (u1 & w1 & H1 & H).
    eapply IH; [exact H|]. eapply wf_run_op; eassumption.
Qed.

End wf_invariant.

(** ** The consumer a resolution returns *)

Lemma bound_to_kept w w' c pp : bound_kept w w' -> bound_to w c pp -> bound_to w' c pp.
Proof.
  intros [_ Hk] (cn & Hcn & Hpp). destruct (Hk c cn Hcn) as (cn' & Hcn' & E).
  exists cn'. split; [assumption | congruence].
Qed.

Lemma bpres_vdev_get x : preserves bound_kept (vdev_get x).
Proof. intros w v w' [_ ->]%vdev_get_inv. apply bound_kept_refl. Qed.

Lemma bpres_provider_get x : preserves bound_kept (provider_get x).
Proof. intros w v w' [_ ->]%provider_get_inv. apply bound_kept_refl. Qed.

Lemma bpres_vdev_set x f : preserves bound_kept (vdev_set x f).
Proof. intros w u w' (v & _ & ->)%vdev_set_inv. apply bound_kept_same; reflexivity. Qed.

Create HintDb bk discriminated.

#[global] Hint Resolve bpres_consumer_get bpres_oracle_next bpres_emit
  bpres_g_access bpres_vdev_get bpres_provider_get bpres_vdev_set : bk.
#[global] Hint Extern 1 (preserves _ (consumer_set _ _)) =>
  apply bpres_consumer_set; intros; reflexivity : bk.
#[global] Hint Extern 1 (preserves _ (ZFS_LOG _)) => apply bpres_emit : bk.
#[global] Hint Extern 1 (preserves _ (spa_async_request _ _)) =>
  apply bpres_emit : bk.
#[global] Hint Extern 1 (preserves _ (g_io_request _ _)) =>
  apply bpres_emit : bk.
#[global] Hint Extern 1 (preserves _ biowait) => apply bpres_oracle_next : bk.

Ltac lpres :=
  repeat first
    [ progress intros
    | solve [auto with bk]
    | apply (pres_ret _ bound_kept_refl)
    | apply pres_stuck
    | apply (pres_gets _ bound_kept_refl)
    | apply (pres_deref _ bound_kept_refl)
    | match goal with
      | |- preserves _ (bind _ _) => apply (pres_bind _ bound_kept_trans)
      | |- preserves _ (if ?b then _ else _) => destruct b
      | |- preserves _ (match ?x with _ => _ end) => destruct x
      end ].

Section returned_consumer.
Context {K : SysConsts}.

Lemma bpres_g_io_getattr cp : preserves bound_kept (g_io_getattr cp).
Proof. unfold g_io_getattr. lpres. Qed.

Hint Resolve bpres_g_io_getattr : bk.

Lemma bpres_attrchanged cp attr : preserves bound_kept (vdev_geom_attrchanged cp attr).
Proof. unfold vdev_geom_attrchanged. lpres. Qed.

Lemma bpres_io_loop fuel cp cmd off offset p size maxio :
  preserves bound_kept (vdev_geom_io_loop fuel cp cmd off offset p size maxio).
Proof.
  revert off p size. induction fuel as [|fuel IH]; intros off p size;
    cbn [vdev_geom_io_loop]; lpres.
Qed.

Hint Resolve bpres_io_loop : bk.

Lemma bpres_io cp cmd offset size :
  preserves bound_kept (vdev_geom_io cp cmd offset size).
Proof. unfold vdev_geom_io. lpres. Qed.

Hint Resolve bpres_io : bk.

Lemma bpres_read_labels n l labels cp psize ss size pguid vguid :
  preserves bound_kept (read_labels n l labels cp psize ss size pguid vguid).
Proof.
  revert l labels pguid vguid. induction n as [|n IH]; intros l labels pguid vguid;
    cbn [read_labels]; lpres.
Qed.

Hint Resolve bpres_read_labels : bk.

Lemma bpres_read_guids cp : preserves bound_kept (vdev_geom_read_guids cp).
Proof. unfold vdev_geom_read_guids. lpres. Qed.

(** A successful [g_attach] binds the consumer to the provider. *)
Lemma g_attach_bound cp pp w e w' :
  g_attach cp pp w = Some (e, w') -> negb (e =? 0) = false -> bound_to w' cp pp.
Proof.
  intros H He. unfold g_attach in H.
  apply bind_Some in H as (cn & wa & [Hcn ->]%consumer_get_inv & H).
  apply bind_Some in H as (p & wb & [Hp ->]%provider_get_inv & H).
  apply bind_Some in H as (e0 & wc & [= <- <-] & H).
  destruct (w_oracle w (w_tick w) =? 0) eqn:E.
  - apply bind_Some in H as (u & wd & H & [-> ->]%ret_inv).
    apply bind_Some in H as (cn' & we & [Hcn' ->]%consumer_get_inv & [= _ <-]).
    eexists. wsimpl. split; [apply lookup_insert_eq | reflexivity].
  - apply ret_inv in H as [-> ->]. rewrite E in He. discriminate.
Qed.

(** The consumer loop returns a consumer of the provider. *)
Lemma find_consumer_bound l pp w cp w' :
  find_consumer l pp w = Some (Some cp, w') -> bound_to w' cp pp.
Proof.
  induction l as [|c0 l IH]; cbn [find_consumer]; intros H.
  - apply ret_inv in H as [[=] _].
  - apply bind_Some in H as (cn & wa & [Hcn ->]%consumer_get_inv & H).
    destruct (bool_decide (cp_provider cn = Some pp)) eqn:E.
    + apply bind_Some in H as (u & wb & ->%emit_inv & [[= <-] ->]%ret_inv).
      apply bool_decide_eq_true in E. exists cn. wsimpl. auto.
    + apply IH. exact H.
Qed.

(** Attaching a fresh consumer, lines 170-177 and 188-197. *)
Lemma attach_new_bound cp pp (fail1 fail2 : M (option nat)) msg w c w' :
  (forall w r w', fail1 w = Some (r, w') -> r = None) ->
  (forall w r w', fail2 w = Some (r, w') -> r = None) ->
  (let* e := g_attach cp pp in
   if negb (e =? 0) then fail1 else
   let* e := g_access cp 1 0 1 in
   if negb (e =? 0) then fail2 else
   ZFS_LOG msg;; ret (Some cp)) w = Some (Some c, w') ->
  c = cp /\ bound_to w' c pp.
Proof.
  intros H1 H2 H.
  apply bind_Some in H as (e & wa & Hatt & H).
  destruct (negb (e =? 0)) eqn:E.
  { apply H1 in H. discriminate. }
  apply bind_Some in H as (e2 & wb & Hacc & H).
  destruct (negb (e2 =? 0)) eqn:E2.
  { apply H2 in H. discriminate. }
  apply bind_Some in H as (u & wc & ->%emit_inv & [[= <-] ->]%ret_inv).
  split; [reflexivity|].
  apply (bound_to_kept wb); [apply bound_kept_same; reflexivity|].
  eapply bound_to_kept; [eapply bpres_g_access; exact Hacc|].
  eapply g_attach_bound; eassumption.
Qed.

Lemma returns_None {A} (m : M A) w (r : option nat) w' :
  (m;; ret None) w = Some (r, w') -> r = None.
Proof. intros (a & wa & _ & [-> _]%ret_inv)%bind_Some. reflexivity. Qed.

(** [vdev_geom_attach] returns a consumer of the provider it was given. *)
Lemma attach_bound pp vd w c w' :
  vdev_geom_attach pp vd w = Some (Some c, w') -> bound_to w' c pp.
Proof.
  unfold vdev_geom_attach. intros H.
  apply bind_Some in H as (u & wa & _ & H).
  apply bind_Some in H as (l & wb & _ & H).
  apply bind_Some in H as (found & wc & _ & H).
  apply bind_Some in H as (ocp & wd & Hin & H).
  destruct ocp as [cp|]; [|apply ret_inv in H as [[=] _]].
  apply bind_Some in H as (u1 & we & Hset & H).
  apply bind_Some in H as (u2 & wf & Hattr & [[= <-] ->]%ret_inv).
  eapply bound_to_kept; [eapply bpres_attrchanged; exact Hattr|].
  eapply bound_to_kept.
  { eapply bpres_consumer_set; [|exact Hset]. intros; reflexivity. }
  clear Hset Hattr. destruct found as [gp|].
  - apply bind_Some in Hin as (g & wg & _ & Hin).
    apply bind_Some in Hin as (known & wh & Hfind & Hin).
    destruct known as [cp0|].
    + apply bind_Some in Hin as (e & wi & Hacc & Hin).
      destruct (negb (e =? 0)); [apply ret_inv in Hin as [[=] _]|].
      apply bind_Some in Hin as (u3 & wj & ->%emit_inv & [[= <-] ->]%ret_inv).
      apply (bound_to_kept wi); [apply bound_kept_same; reflexivity|].
      eapply bound_to_kept; [eapply bpres_g_access; exact Hacc|].
      eapply find_consumer_bound. exact Hfind.
    + apply bind_Some in Hin as (cp0 & wi & _ & Hin).
      apply attach_new_bound in Hin as [<- Hb]; [exact Hb| |].
      * intros. eapply returns_None. eassumption.
      * intros w0 r w0' (a & wa0 & _ & Hr)%bind_Some.
        eapply returns_None. eassumption.
  - apply bind_Some in Hin as (gp & wg & _ & Hin).
    apply bind_Some in Hin as (u3 & wh & _ & Hin).
    apply bind_Some in Hin as (cp0 & wi & _ & Hin).
    apply attach_new_bound in Hin as [<- Hb]; [exact Hb| |];
      intros; eapply returns_None; eassumption.
Qed.

Lemma open_by_path_live vd check_guid w c w' :
  vdev_geom_open_by_path vd check_guid w = Some (Some c, w') ->
  is_Some (w_consumers w' !! c).
Proof.
  unfold vdev_geom_open_by_path. intros H.
  apply bind_Some in H as (v & wa & _ & H).
  apply bind_Some in H as (path & wb & _ & H).
  apply bind_Some in H as (found & wc & _ & H).
  destruct found as [pp|]; [|apply ret_inv in H as [[=] _]].
  apply bind_Some in H as (p & wd & _ & H).
  apply bind_Some in H as (u & we & _ & H).
  apply bind_Some in H as (ocp & wf & Hatt & H).
  destruct ocp as [c0|]; [|apply ret_inv in H as [[=] _]].
  apply attach_bound in Hatt.
  assert (forall w2, bound_kept wf w2 -> is_Some (w_consumers w2 !! c0)) as Hlive.
  { intros w2 Hk. destruct (bound_to_kept _ _ _ _ Hk Hatt) as (cn & Hcn & _). eauto. }
  destruct (_ && _).
  - apply bind_Some in H as (g & wg & Hread & H).
    apply bind_Some in H as (v2 & wh & [_ ->]%vdev_get_inv & H).
    destruct (guids_differ g v2).
    + apply bind_Some in H as (u1 & wi & _ & H).
      apply returns_None in H. discriminate.
    + apply bind_Some in H as (u1 & wi & ->%emit_inv & [[= <-] ->]%ret_inv).
      apply Hlive. eapply bound_kept_trans.
      * eapply bpres_read_guids. exact Hread.
      * apply bound_kept_same; reflexivity.
  - apply ret_inv in H as [[= <-] ->]. apply Hlive, bound_kept_refl.
Qed.

Lemma open_by_guids_live vd w c w' :
  vdev_geom_open_by_guids vd w = Some (Some c, w') ->
  is_Some (w_consumers w' !! c).
Proof.
  unfold vdev_geom_open_by_guids. intros H.
  apply bind_Some in H as (u & wa & _ & H).
  apply bind_Some in H as (ocp & wb & _ & H).
  destruct ocp as [c0|].
  - apply bind_Some in H as (cn & wc & [Hcn ->]%consumer_get_inv & H).
    apply bind_Some in H as (pp & wd & [_ ->]%deref_inv & H).
    apply bind_Some in H as (p & we & [_ ->]%provider_get_inv & H).
    apply bind_Some in H as (u1 & wf & (v & _ & ->)%vdev_set_inv & H).
    apply bind_Some in H as (u2 & wg & ->%emit_inv & [[= <-] ->]%ret_inv).
    wsimpl. eauto.
  - apply returns_None in H. discriminate.
Qed.

(** The consumer the resolution returns is in the store. *)
Lemma open_resolve_live vd w c w' :
  vdev_geom_open_resolve vd w = Some (Some c, w') ->
  is_Some (w_consumers w' !! c).
Proof.
  unfold vdev_geom_open_resolve. intros H.
  apply bind_Some in H as (cp & wa & Hpath & H).
  apply bind_Some in H as (cp2 & wb & Hguids & H).
  destruct cp as [c1|].
  - apply ret_inv in Hguids as [-> ->]. apply ret_inv in H as [[= <-] ->].
    eapply open_by_path_live. exact Hpath.
  - destruct cp2 as [c2|].
    + apply ret_inv in H as [[= <-] ->].
      eapply open_by_guids_live. exact Hguids.
    + apply bind_Some in H as (v & wc & [_ ->]%vdev_get_inv & H).
      destruct (_ || _).
      * eapply open_by_path_live. exact H.
      * apply ret_inv in H as [[=] _].
Qed.

(** From a well-formed state, the pointers [vdev_geom_detach] follows from
    the resolved consumer are valid. *)
Lemma open_resolve_ok vd v w c w1 :
  wf w -> w_vdevs w !! vd = Some v ->
  vdev_geom_open_resolve vd (open_entry vd v w) = Some (Some c, w1) ->
  consumer_ok w1 c.
Proof.
  intros Hwf Hv Hres. apply wf_consumer_ok.
  - assert (wf_kept (Some vd) w (open_entry vd v w)) as H0.
    { apply (kpres_vdev_set (Some vd) vd (fun _ => set_vdev_tsd None v) w tt).
      unfold vdev_set, vdev_get, bind, gets, deref, modify. rewrite Hv. reflexivity. }
    pose proof (kpres_open_resolve vd _ _ _ Hres) as H1.
    apply (wf_kept_trans _ _ _ _ H0 H1). split; [exact Hwf|].
    intros x [= <-]. eauto.
  - eapply open_resolve_live. exact Hres.
Qed.

End returned_consumer.


(** ** Opening a vdev (C2, C6, C7, C8, C10) *)

(** C8: from a well-formed state, the pool is open for writing, the device
    was resolved and has a supported sector size, no write claim is held on
    its consumer, and the five attempts to take one all fail.  Then
    [vdev_geom_open] returns the error of the last attempt, which is not
    zero, the handle of the vdev is null and the auxiliary status is
    [VDEV_AUX_OPEN_FAILED]. *)
Theorem write_claim_exhausted {K : SysConsts} (w : world) (vd : nat) (v : vdev_t)
    (path : string) (psize max_psize ashift : nat)
    (c : nat) (w1 : world) (cn : g_consumer) (pp : nat) (p : g_provider) :
  wf w ->
  w_vdevs w !! vd = Some v ->
  vdev_path v = Some path -> starts_with_slash path = true ->
  Z.land (spa_mode (vdev_spa v)) FWRITE <> 0 ->
  vdev_geom_open_resolve vd (open_entry vd v w) = Some (Some c, w1) ->
  w_consumers w1 !! c = Some cn -> cp_provider cn = Some pp ->
  w_providers w1 !! pp = Some p ->
  unsupported_sectorsize p = false ->
  cp_acw cn = 0 ->
  (forall i, (i < 5)%nat -> w_oracle w1 (w_tick w1 + i)%nat <> 0) ->
  exists e w' v',
    vdev_geom_open vd psize max_psize ashift w = Some (e, w') /\
    e <> 0 /\ e = w_oracle w1 (w_tick w1 + 4)%nat /\
    w_vdevs w' !! vd = Some v' /\ vdev_tsd v' = None /\
    vs_aux v' = VDEV_AUX_OPEN_FAILED.
Proof.
  intros Hwf Hv Hpath Hslash Hmode Hres Hcn Hpp Hp Hgood Hacw Hfail.
  pose proof (open_resolve_ok vd v w c w1 Hwf Hv Hres) as Hok.
  destruct (fpres_open_resolve _ _ _ _ Hres) as (_ & _ & _ & Hvd & _).
  destruct (Hvd vd (set_vdev_tsd None v)) as (v1 & Hv1 & _ & _ & Hspa & _).
  { unfold open_entry. wsimpl. apply lookup_insert_eq. }
  wsimpl.
  destruct (open_claim_write_fails w1 vd c cn pp p v1 Hcn Hpp Hp Hok Hgood Hacw Hv1)
    as (w2 & Hclaim & _); [congruence | exact Hfail |].
  destruct (open_fails w vd v path psize max_psize ashift _ _ _ _ Hv Hpath Hslash Hres Hclaim)
    as (w' & v' & Hrun & Hv' & Htsd & Haux & _).
  exists (w_oracle w1 (w_tick w1 + 4)%nat), w', v'.
  repeat split; try assumption. apply Hfail. lia.
Qed.

Lemma write_claim_exhausted_witness :
  exists e w' v',
    vdev_geom_open (K := freebsd) 1 100 101 102 world_ada0_busy = Some (e, w') /\
    e <> 0 /\
    e = w_oracle world_ada0_busy 11%nat /\
    w_vdevs w' !! 1%nat = Some v' /\ vdev_tsd v' = None /\
    vs_aux v' = VDEV_AUX_OPEN_FAILED.
Proof.
  eapply (write_claim_exhausted (K := freebsd) world_ada0_busy 1
            (closed_vdev "/dev/ada0" 99) "/dev/ada0" 100 101 102 11
            (exec (vdev_geom_open_resolve (K := freebsd) 1)
               (open_entry 1 (closed_vdev "/dev/ada0" 99) world_ada0_busy))).
  - apply wf_boot.
  - vm_compute. reflexivity.
  - reflexivity.
  - reflexivity.
  - vm_compute. discriminate.
  - vm_compute. reflexivity.
  - vm_compute. reflexivity.
  - vm_compute. reflexivity.
  - vm_compute. reflexivity.
  - vm_compute. reflexivity.
  - vm_compute. reflexivity.
  - intros i Hi. do 5 (destruct i as [|i]; [vm_compute; discriminate|]). lia.
Defined.


Lemma unsupported_of_shape {K : SysConsts} (p : g_provider) :
  0 < pp_sectorsize p ->
  (VDEV_PAD_SIZE < pp_sectorsize p \/
   ~ exists k, 0 <= k /\ pp_sectorsize p = 2 ^ k) ->
  unsupported_sectorsize p = true.
Proof.
  intros Hpos Hbad. unfold unsupported_sectorsize.
  destruct (VDEV_PAD_SIZE <? pp_sectorsize p) eqn:E; [reflexivity|].
  apply Z.ltb_ge in E. cbn [orb]. apply negb_true_iff.
  destruct Hbad as [Hbig|Hnp]; [lia|].
  destruct (ISP2 (pp_sectorsize p)) eqn:E2; [|reflexivity].
  destruct Hnp. apply ISP2_iff; assumption.
Qed.


Lemma not_pow2_520 : ~ exists k, 0 <= k /\ 520 = 2 ^ k.
Proof.
  intros (k & Hk & E).
  assert (ISP2 520 = true) as H by (apply ISP2_iff; [lia | eauto]).
  vm_compute in H. discriminate.
Qed.



Lemma unsupported_skips_guids {K : SysConsts} (p : g_provider) :
  unsupported_sectorsize p = true ->
  true && ISP2 (pp_sectorsize p) && (pp_sectorsize p <=? VDEV_PAD_SIZE) = false.
Proof.
  unfold unsupported_sectorsize. intros H. cbn [andb].
  destruct (ISP2 (pp_sectorsize p)); [|reflexivity]. cbn [andb negb] in *.
  rewrite orb_false_r in H. apply Z.ltb_lt in H. apply Z.leb_gt. exact H.
Qed.

(** C10, as the code has it: in a well-formed state, the stored path
    names a provider whose sector size is not a power of two or is larger
    than [VDEV_PAD_SIZE], and [vdev_geom_attach] attaches to it.  Then the
    path lookup returns the attached consumer in the very state the attach
    left: its identity is not read.  The resolution stops there, and
    [vdev_geom_open] fails with [EINVAL] having logged neither a transfer,
    nor an identity read, nor the start of an identity scan, whatever
    other providers the system has. *)
Theorem unsupported_path_device_ends_open {K : SysConsts} (w : world) (vd : nat)
    (v : vdev_t) (path : string) (psize max_psize ashift : nat)
    (pp : nat) (p : g_provider) (c : nat) (w1 : world) :
  wf w ->
  w_vdevs w !! vd = Some v ->
  vdev_path v = Some path -> starts_with_slash path = true ->
  provider_index (string_drop 5 path) (w_providers w) 0 = Some pp ->
  w_providers w !! pp = Some p ->
  0 < pp_sectorsize p ->
  (VDEV_PAD_SIZE < pp_sectorsize p \/
   ~ exists k, 0 <= k /\ pp_sectorsize p = 2 ^ k) ->
  vdev_geom_attach pp vd
    (set_w_log (fun l => l ++ [EvZfsLog "Found provider by name %s."])
       (open_entry vd v w)) = Some (Some c, w1) ->
  vdev_geom_open_by_path vd true (open_entry vd v w) = Some (Some c, w1) /\
  vdev_geom_open_resolve vd (open_entry vd v w) = Some (Some c, w1) /\
  exists w' v' l,
    vdev_geom_open vd psize max_psize ashift w = Some (EINVAL, w') /\
    w_vdevs w' !! vd = Some v' /\ vdev_tsd v' = None /\
    vs_aux v' = VDEV_AUX_OPEN_FAILED /\
    w_log w' = w_log w ++ l /\ forallb quiet l = true.
Proof.
  intros Hwf Hv Hpath Hslash Hidx Hp Hpos Hshape Hattach.
  pose proof (unsupported_of_shape p Hpos Hshape) as Hbad.
  destruct (attach_bound _ _ _ _ _ Hattach) as (cn & Hcn & Hpp).
  assert (vdev_geom_open_by_path vd true (open_entry vd v w) = Some (Some c, w1))
    as Hbypath.
  { apply wp_eq. unfold vdev_geom_open_by_path, g_provider_by_name, open_entry.
    wp_go. wsimpl. rewrite Hidx. wp_go.
    eapply wp_of_run; [exact Hattach|]. cbv beta.
    rewrite (unsupported_skips_guids p Hbad). wp_go. auto. }
  assert (vdev_geom_open_resolve vd (open_entry vd v w) = Some (Some c, w1))
    as Hres.
  { unfold vdev_geom_open_resolve.
    rewrite (bind_run _ _ _ _ _ Hbypath). reflexivity. }
  split; [exact Hbypath|]. split; [exact Hres|].
  pose proof (open_resolve_ok vd v w c w1 Hwf Hv Hres) as Hok.
  pose proof (fpres_attach quiet above_quiet_quiet _ _ _ _ _ Hattach)
    as (_ & Hprov & _ & _ & l1 & Hl1 & Hq1).
  assert (w_providers w1 !! pp = Some p) as Hp1.
  { rewrite Hprov. unfold open_entry. wsimpl. exact Hp. }
  destruct (open_claim_unsupported w1 vd c cn pp p Hcn Hpp Hp1 Hok Hbad)
    as (w2 & Hclaim & _ & _ & _ & _ & l2 & Hl2 & Hq2).
  destruct (open_fails w vd v path psize max_psize ashift _ _ _ _ Hv Hpath Hslash Hres Hclaim)
    as (w' & v' & Hrun & Hv' & Htsd & Haux & Hlog & _).
  exists w', v', ([EvZfsLog "Found provider by name %s."] ++ l1 ++ l2).
  repeat split; try assumption.
  - rewrite Hlog, Hl2, Hl1. unfold open_entry. wsimpl.
    rewrite <- !app_assoc. reflexivity.
  - rewrite !forallb_app, Hq1, Hq2. reflexivity.
Qed.

Lemma unsupported_path_device_ends_open_witness :
  exists w' v' l,
    vdev_geom_open (K := freebsd) 1 100 101 102 world_two_disks = Some (22, w') /\
    w_vdevs w' !! 1%nat = Some v' /\ vdev_tsd v' = None /\
    vs_aux v' = VDEV_AUX_OPEN_FAILED /\
    w_log w' = w_log world_two_disks ++ l /\ forallb quiet l = true.
Proof.
  refine (proj2 (proj2
    (unsupported_path_device_ends_open (K := freebsd) world_two_disks 1
       (closed_vdev "/dev/ada0" 99) "/dev/ada0" 100 101 102
       0%nat (disk "ada0" 520 5 6) 11%nat
       (exec (vdev_geom_open_resolve (K := freebsd) 1)
          (open_entry 1 (closed_vdev "/dev/ada0" 99) world_two_disks))
       _ _ _ _ _ _ _ _ _)));
    try (vm_compute; reflexivity).
  - apply wf_boot.
  - right. exact not_pow2_520.
Defined.

(** C10 as stated fails when the device layer refuses the attach to the
    device at the stored path: the path lookup returns nothing, the
    identity scan runs, and the open succeeds on [ada1], the disk that
    carries the identity of the vdev. *)
Lemma refused_attach_scans_counterexample :
  provider_index "ada0" (w_providers world_two_disks_refused) 0 = Some 0%nat /\
  unsupported_sectorsize (K := freebsd) (disk "ada0" 520 5 6) = true /\
  exists w' v' c cn,
    vdev_geom_open (K := freebsd) 1 100 101 102 world_two_disks_refused = Some (0, w') /\
    w_vdevs w' !! 1%nat = Some v' /\ vdev_tsd v' = Some c /\
    w_consumers w' !! c = Some cn /\ cp_provider cn = Some 1%nat /\
    In (EvZfsLog "Searching by guids [%ju:%ju].") (w_log w').
Proof.
  split; [vm_compute; reflexivity|]. split; [vm_compute; reflexivity|].
  do 4 eexists. split; [vm_compute; reflexivity|].
  split; [vm_compute; reflexivity|]. split; [reflexivity|].
  split; [vm_compute; reflexivity|]. split; [reflexivity|].
  cbn [w_log]. repeat first [left; reflexivity | right].
Qed.

(** C2, as the code has it: a successful [vdev_geom_open] leaves the
    flush-unsupported flag false, and leaves the trim-unsupported flag as
    it found it. *)
Theorem open_resets_flush_flag {K : SysConsts} (w : world) (vd : nat) (v : vdev_t)
    (psize max_psize ashift : nat) (w' : world) :
  w_vdevs w !! vd = Some v ->
  vdev_geom_open vd psize max_psize ashift w = Some (0, w') ->
  exists v', w_vdevs w' !! vd = Some v' /\
    vdev_nowritecache v' = false /\ vdev_notrim v' = vdev_notrim v.
Proof.
  intros Hv Hrun.
  destruct (open_success w vd v psize max_psize ashift w' Hv Hrun)
    as (c & cn & pp & p & v' & Hv' & _ & Hnwc & Hnt & _).
  exists v'. auto.
Qed.

Lemma open_resets_flush_flag_witness :
  exists v', w_vdevs (exec (vdev_geom_open (K := freebsd) 1 100 101 102)
                        world_trim_notsup_closed) !! 1%nat = Some v' /\
    vdev_nowritecache v' = false /\ vdev_notrim v' = true.
Proof.
  refine (open_resets_flush_flag (K := freebsd) world_trim_notsup_closed 1
            (set_vdev_notrim true (set_vdev_nowritecache true
               (set_vdev_physpath (Some "id1,enc@n5000/type@0/slot@1")
                  (closed_vdev "/dev/ada0" 99))))
            100 101 102 _ _ _);
    vm_compute; reflexivity.
Defined.

(** C2 as stated fails: the vdev is reopened with success after a trim
    proved unsupported, and the trim-unsupported flag is still set when
    [vdev_geom_open] returns. *)
Lemma open_clears_both_flags_counterexample :
  exists v w' v',
    w_vdevs world_trim_notsup_closed !! 1%nat = Some v /\
    vdev_tsd v = None /\ vdev_nowritecache v = true /\ vdev_notrim v = true /\
    vdev_geom_open (K := freebsd) 1 100 101 102 world_trim_notsup_closed = Some (0, w') /\
    w_vdevs w' !! 1%nat = Some v' /\
    vdev_tsd v' = Some 13%nat /\
    vdev_nowritecache v' = false /\ vdev_notrim v' = true.
Proof. do 3 eexists. vm_compute. repeat split. Qed.

Section same_mem.
Context {K : SysConsts}.

Lemma same_mem_refl w : same_mem w w.
Proof. reflexivity. Qed.

Lemma same_mem_trans w1 w2 w3 : same_mem w1 w2 -> same_mem w2 w3 -> same_mem w1 w3.
Proof. unfold same_mem. congruence. Qed.

Lemma mpres_frame {A} (m : M A) ok : preserves (frame ok) m -> preserves same_mem m.
Proof. intros H w a w' Hrun. exact (proj1 (H w a w' Hrun)). Qed.

Lemma mpres_vdev_set vd f : preserves same_mem (vdev_set vd f).
Proof. intros w u w' (v & _ & ->)%vdev_set_inv. reflexivity. Qed.

Lemma mpres_io_intr bp : preserves same_mem (vdev_geom_io_intr bp).
Proof.
  unfold vdev_geom_io_intr, zfs_post_remove, zio_interrupt.
  repeat first
    [ progress intros
    | solve [apply (mpres_frame _ any_event); auto with pres]
    | apply (pres_ret _ same_mem_refl)
    | apply (pres_deref _ same_mem_refl)
    | apply mpres_vdev_set
    | match goal with
      | |- preserves _ (bind _ _) => apply (pres_bind _ same_mem_trans)
      | |- preserves _ (if ?b then _ else _) => destruct b
      end ].
Qed.

Lemma mpres_op o : is_open o = false -> preserves same_mem (run_op o).
Proof.
  destruct o; cbn [is_open run_op]; intros Ho;
    unfold vdev_geom_io_done, vdev_geom_hold, vdev_geom_rele.
  - discriminate.
  - apply (mpres_frame _ any_event). auto with pres.
  - apply (pres_bind _ same_mem_trans);
      [apply (mpres_frame _ any_event); auto with pres|].
    intros. apply (pres_ret _ same_mem_refl).
  - apply mpres_io_intr.
  - apply (pres_ret _ same_mem_refl).
  - apply (pres_ret _ same_mem_refl).
  - apply (pres_ret _ same_mem_refl).
  - apply (mpres_frame _ any_event). auto with pres.
  - apply (mpres_frame _ any_event). auto with pres.
Qed.

Lemma mpres_ops l :
  forallb (fun o => negb (is_open o)) l = true -> preserves same_mem (run_ops l).
Proof.
  induction l as [|o l IH]; cbn [forallb run_ops]; intros Hl.
  - apply (pres_ret _ same_mem_refl).
  - apply andb_prop in Hl as [Ho Hl]. apply negb_true_iff in Ho.
    apply (pres_bind _ same_mem_trans); [apply mpres_op; assumption|].
    intros. apply IH. assumption.
Qed.

End same_mem.

(** C6: after a successful [vdev_geom_open] the cell [ashift] points to
    holds the base-2 logarithm of the larger of the sector size of the
    bound provider and [SPA_MINBLOCKSIZE]; that sector size, when
    positive, is a power of two.  Whatever runs afterwards, short of
    another open, leaves the cell as it is. *)
Theorem open_ashift_is_log2 {K : SysConsts} (w : world) (vd : nat) (v : vdev_t)
    (psize max_psize ashift : nat) (w' : world) :
  0 < SPA_MINBLOCKSIZE < 2 ^ 64 -> VDEV_PAD_SIZE < 2 ^ 64 ->
  w_vdevs w !! vd = Some v ->
  vdev_geom_open vd psize max_psize ashift w = Some (0, w') ->
  (exists c cn pp p v',
     w_vdevs w' !! vd = Some v' /\ vdev_tsd v' = Some c /\
     w_consumers w' !! c = Some cn /\ cp_provider cn = Some pp /\
     w_providers w' !! pp = Some p /\
     (0 < pp_sectorsize p -> exists k, 0 <= k /\ pp_sectorsize p = 2 ^ k) /\
     w_mem w' !! ashift =
       Some (Z.log2 (Z.max (pp_sectorsize p) SPA_MINBLOCKSIZE))) /\
  (forall l w'',
     forallb (fun o => negb (is_open o)) l = true ->
     run_ops l w' = Some (tt, w'') ->
     w_mem w'' !! ashift = w_mem w' !! ashift).
Proof.
  intros Hmin Hpad Hv Hrun. split.
  - destruct (open_success w vd v psize max_psize ashift w' Hv Hrun)
      as (c & cn & pp & p & v' & Hv' & Htsd & _ & _ & Hcn & Hpp & Hp & _ & Hss & Hp2 & Hmem).
    exists c, cn, pp, p, v'. repeat split; try assumption.
    + intros Hpos. apply ISP2_iff; assumption.
    + rewrite Hmem. f_equal. apply highbit_log2. lia.
  - intros l w'' Hl Hops. rewrite (mpres_ops l Hl w' tt w'' Hops). reflexivity.
Qed.

Lemma open_ashift_is_log2_witness :
  w_mem world_ada0_open !! 102%nat = Some 9 /\
  w_mem (exec (run_ops (K := freebsd) busy_day) world_flush_notsup) !! 102%nat = Some 9.
Proof.
  pose proof (open_ashift_is_log2 (K := freebsd) world_ada0 1
                (closed_vdev "/dev/ada0" 99) 100 101 102 world_ada0_open
                ltac:(vm_compute; split; reflexivity) ltac:(reflexivity)
                ltac:(vm_compute; reflexivity) ltac:(vm_compute; reflexivity))
    as [(c & cn & pp & p & v' & _ & _ & Hcn & Hpp & Hp & _ & Hmem) Hlater].
  assert (w_mem world_ada0_open !! 102%nat = Some 9) as H9
    by (vm_compute; reflexivity).
  split; [exact H9|].
  rewrite <- H9.
  apply (Hlater ([OpIoStart flush_zio; OpIoIntr flush_notsup] ++ busy_day)).
  - reflexivity.
  - vm_compute. reflexivity.
Defined.
(** ** Closing a vdev (C9) *)

Section close.
Context {K : SysConsts}.

(** Closing a vdev whose handle is null changes nothing. *)
Lemma close_null_handle (w : world) (vd : nat) (v : vdev_t) :
  w_vdevs w !! vd = Some v -> vdev_tsd v = None ->
  vdev_geom_close vd w = Some (tt, w).
Proof.
  intros Hv Htsd. apply wp_eq. unfold vdev_geom_close. wp_go.
  rewrite Htsd. wp_go. auto.
Qed.

(** The relation [vdev_geom_detach] keeps on the vdev the consumer refers
    back to: its handle becomes null. *)
Lemma detach_clears_owner (w : world) (cp : nat) (cn : g_consumer) (vd : nat) (w' : world) :
  w_consumers w !! cp = Some cn -> cp_private cn = Some vd ->
  vdev_geom_detach cp w = Some (tt, w') ->
  exists v', w_vdevs w' !! vd = Some v' /\ vdev_tsd v' = None.
Proof.
  intros Hcn Hpriv Hrun. unfold vdev_geom_detach in Hrun.
  apply bind_Some in Hrun as (cn' & ? & [Hcn' ->]%consumer_get_inv & Hrun).
  rewrite Hcn in Hcn'. injection Hcn' as <-.
  apply bind_Some in Hrun as (? & ? & ->%emit_inv & Hrun).
  rewrite Hpriv in Hrun.
  apply bind_Some in Hrun as (? & w1 & Hfirst & Hrest).
  apply bind_Some in Hfirst as (? & ? & (v & Hv & ->)%vdev_set_inv & Hfirst).
  pose proof (fpres_consumer_set any_event _ _ _ _ _ Hfirst) as F1.
  assert (preserves (frame any_event)
    (g_access cp (-1) 0 (-1);;
     let* c := consumer_get cp in
     (if (cp_acr c =? 0) && (cp_ace c =? 0) then
        ZFS_LOG "Destroyed consumer to %s.";;
        (if 0 <? cp_acw c
         then g_access cp 0 (- cp_acw c) 0;; ret tt
         else ret tt);;
        g_detach cp;;
        g_destroy_consumer cp
      else ret tt);;
     let* g := geom_get (cp_geom cn) in
     match gp_consumer g with
     | [] => ZFS_LOG "Destroyed geom %s.";; g_wither_geom (cp_geom cn)
     | _ :: _ => ret tt
     end)) as F2 by pres.
  specialize (F2 _ _ _ Hrest).
  destruct (frame_trans _ _ _ _ F1 F2) as (_ & _ & _ & Hvd & _).
  destruct (Hvd vd (set_vdev_tsd None v)) as (v' & Hv' & _ & _ & _ & _ & Hnone).
  { wsimpl. apply lookup_insert_eq. }
  exists v'. split; [exact Hv' | apply Hnone; reflexivity].
Qed.

(** When the consumer behind the handle refers back to the vdev that is
    closed, the first close nulls the handle and the second is a no-op. *)
Lemma close_twice_sole_owner (w : world) (vd : nat) (v : vdev_t) (cp : nat) (cn : g_consumer) :
  w_vdevs w !! vd = Some v -> vdev_tsd v = Some cp ->
  w_consumers w !! cp = Some cn -> cp_private cn = Some vd ->
  consumer_ok w cp ->
  exists w' v',
    vdev_geom_close vd w = Some (tt, w') /\
    w_vdevs w' !! vd = Some v' /\ vdev_tsd v' = None /\
    vdev_geom_close vd w' = Some (tt, w').
Proof.
  intros Hv Htsd Hcn Hpriv Hok.
  destruct (detach_total w cp Hok) as (w' & Hrun).
  destruct (detach_clears_owner w cp cn vd w' Hcn Hpriv Hrun) as (v' & Hv' & Hnull).
  exists w', v'.
  assert (vdev_geom_close vd w = Some (tt, w')) as Hclose.
  { unfold vdev_geom_close.
    rewrite (bind_run _ _ w v w); [rewrite Htsd; exact Hrun|].
    apply wp_eq. wp_go. auto. }
  repeat split; try assumption.
  apply (close_null_handle w' vd v' Hv' Hnull).
Qed.

End close.

(** C9 at the shared spare: both opens succeeded on the one consumer 15,
    whose back-reference names vdev 2, the last to attach.  The first close
    of vdev 1 nulls the handle of vdev 2 and leaves the handle of vdev 1 in
    place; the second close of vdev 1 finds that handle, drops the claims
    again and destroys the consumer. *)
Theorem close_twice_shared_spare :
  exists v1 v2 cn w' v1' v2' cn' w'' v1'',
    vdev_geom_open (K := freebsd) 1 100 101 102 world_spare <> None /\
    w_vdevs world_spare_open !! 1%nat = Some v1 /\ vdev_tsd v1 = Some 15%nat /\
    w_vdevs world_spare_open !! 2%nat = Some v2 /\ vdev_tsd v2 = Some 15%nat /\
    w_consumers world_spare_open !! 15%nat = Some cn /\
    cp_private cn = Some 2%nat /\ cp_acr cn = 2 /\
    vdev_geom_close 1 world_spare_open = Some (tt, w') /\
    w_vdevs w' !! 1%nat = Some v1' /\ vdev_tsd v1' = Some 15%nat /\
    w_vdevs w' !! 2%nat = Some v2' /\ vdev_tsd v2' = None /\
    w_consumers w' !! 15%nat = Some cn' /\ cp_acr cn' = 1 /\
    vdev_geom_close 1 w' = Some (tt, w'') /\
    w_consumers w'' !! 15%nat = None /\
    w_vdevs w'' !! 1%nat = Some v1'' /\ vdev_tsd v1'' = Some 15%nat.
Proof.
  do 9 eexists. vm_compute.
  repeat match goal with |- _ /\ _ => split end; try reflexivity.
  discriminate.
Qed.
(** ** Transfers in chunks (C3) *)

Section chunks.
Context {K : SysConsts}.

Lemma chunks_needed_lt size maxio (i : nat) :
  0 < maxio -> 0 < size ->
  (i < chunks_needed size maxio)%nat <-> Z.of_nat i * maxio < size.
Proof.
  intros HM Hs. unfold chunks_needed.
  pose proof (Z.div_mod (size + maxio - 1) maxio ltac:(lia)) as Hdm.
  pose proof (Z.mod_pos_bound (size + maxio - 1) maxio HM) as Hmod.
  assert (0 <= (size + maxio - 1) / maxio) as Hq by (apply Z.div_pos; lia).
  split; intros H.
  - assert (Z.of_nat i + 1 <= (size + maxio - 1) / maxio) as Hle by lia.
    nia.
  - apply Nat2Z.inj_lt. rewrite Z2Nat.id by assumption.
    destruct (Z_lt_le_dec (Z.of_nat i) ((size + maxio - 1) / maxio)) as [|Hge];
      [assumption|]. nia.
Qed.

Lemma chunks_needed_fuel size maxio :
  0 < maxio -> 0 < size ->
  (chunks_needed size maxio <= S (Z.to_nat (size / maxio)))%nat.
Proof.
  intros HM Hs. unfold chunks_needed.
  assert ((size + maxio - 1) / maxio <= size / maxio + 1) as H.
  { replace (size / maxio + 1) with ((size + 1 * maxio) / maxio)
      by (rewrite Z.div_add by lia; reflexivity).
    apply Z.div_le_mono; lia. }
  assert (0 <= size / maxio) by (apply Z.div_pos; lia).
  lia.
Qed.

Lemma total_length_min cmd offset size maxio (k : nat) :
  0 < maxio -> 0 < size ->
  (k <= chunks_needed size maxio)%nat ->
  total_length cmd offset size maxio k = Z.min (Z.of_nat k * maxio) size.
Proof.
  intros HM Hs. induction k as [|k IH]; intros Hk.
  - cbn. lia.
  - cbn [total_length chunk sync_bio bio_length]. rewrite IH by lia.
    assert (Z.of_nat k * maxio < size) by (apply chunks_needed_lt; [assumption..|lia]).
    lia.
Qed.

Lemma io_loop_spec cp cmd offset size maxio :
  0 < maxio -> 0 < size -> 0 <= offset -> offset + size + maxio < 2 ^ 63 ->
  forall (r i fuel : nat) (w : world),
    (i + r = chunks_needed size maxio)%nat -> (r <= fuel)%nat ->
    exists (m : nat) err w',
      (m <= r)%nat /\
      vdev_geom_io_loop fuel cp cmd (offset + Z.of_nat i * maxio) (offset + size)
        (Z.of_nat i * maxio) (size - Z.of_nat i * maxio) maxio w = Some (err, w') /\
      w_log w' = w_log w ++
        map (fun j => EvIoRequest (chunk cmd offset size maxio j) cp) (seq i m) /\
      w_tick w' = (w_tick w + m)%nat /\ w_oracle w' = w_oracle w /\
      (forall j, (j + 1 < m)%nat -> w_oracle w (w_tick w + j)%nat = 0) /\
      (m = 0%nat -> err = 0) /\
      ((0 < m)%nat -> err = w_oracle w (w_tick w + (m - 1))%nat) /\
      (err = 0 -> m = r).
Proof.
  intros HM Hs Hoff Hbound. induction r as [|r IH]; intros i fuel w Hi Hfuel.
  - exists 0%nat, 0, w.
    assert (~ Z.of_nat i * maxio < size) as Hdone.
    { intros H. apply chunks_needed_lt in H; [lia | assumption..]. }
    split; [lia|]. split.
    { destruct fuel; cbn [vdev_geom_io_loop];
        (destruct (_ <? _) eqn:E; [apply Z.ltb_lt in E; lia | reflexivity]). }
    cbn [seq map]. rewrite app_nil_r, Nat.add_0_r.
    repeat split; auto; intros; lia.
  - assert (Z.of_nat i * maxio < size) as Hmore
      by (apply chunks_needed_lt; [assumption..|lia]).
    destruct fuel as [|fuel]; [lia|]. cbn [vdev_geom_io_loop].
    destruct (_ <? _) eqn:E; [|apply Z.ltb_ge in E; lia]. clear E.
    unfold g_io_request, biowait.
    set (w1 := set_w_tick S (set_w_log (fun l => l ++
        [EvIoRequest (sync_bio cmd (offset + Z.of_nat i * maxio)
           (Z.min (size - Z.of_nat i * maxio) maxio) (Z.of_nat i * maxio)) cp]) w)).
    destruct (w_oracle w (w_tick w) =? 0) eqn:Herr.
    + destruct (IH (S i) fuel w1 ltac:(lia) ltac:(lia))
        as (m & err & w' & Hm & Hrun & Hlog & Htick & Horacle & Hzero & Hm0 & Hlast & Hall).
      exists (S m), err, w'. split; [lia|]. split.
      { apply wp_eq. wp_go. wsimpl. rewrite Herr. cbn [negb].
        rewrite !off_t_small by lia.
        replace (offset + Z.of_nat i * maxio + maxio)
          with (offset + Z.of_nat (S i) * maxio) by lia.
        replace (Z.of_nat i * maxio + maxio) with (Z.of_nat (S i) * maxio) by lia.
        replace (size - Z.of_nat i * maxio - maxio)
          with (size - Z.of_nat (S i) * maxio) by lia.
        eapply wp_of_run; [exact Hrun|]. auto. }
      subst w1. wsimpl. rewrite Hlog, Htick, Horacle. cbn [seq map].
      rewrite <- app_assoc. cbn [app].
      repeat split; try reflexivity; try lia.
      * intros j Hj. destruct j as [|j].
        -- rewrite Nat.add_0_r. apply Z.eqb_eq. exact Herr.
        -- replace (w_tick w + S j)%nat with (S (w_tick w) + j)%nat by lia.
           apply Hzero. lia.
      * intros _. destruct m as [|m].
        -- rewrite Hm0 by reflexivity. cbn. rewrite Nat.add_0_r.
           symmetry. apply Z.eqb_eq. exact Herr.
        -- rewrite Hlast by lia.
           f_equal. lia.
    + exists 1%nat, (w_oracle w (w_tick w)), w1. split; [lia|]. split.
      { apply wp_eq. wp_go. wsimpl. rewrite Herr. cbn [negb]. wp_go. auto. }
      subst w1. wsimpl. cbn [seq map].
      apply Z.eqb_neq in Herr.
      repeat split; try reflexivity; try lia.
      intros _. cbn. rewrite Nat.add_0_r. reflexivity.
Qed.

Lemma maxio_positive ss :
  0 < ss <= MAXPHYS ->
  0 < MAXPHYS - Z.rem MAXPHYS ss <= MAXPHYS /\
  Z.rem (MAXPHYS - Z.rem MAXPHYS ss) ss = 0.
Proof.
  intros Hss. rewrite Z.rem_mod_nonneg by lia.
  pose proof (Z.mod_pos_bound MAXPHYS ss ltac:(lia)) as Hmod.
  split; [lia|].
  rewrite Z.rem_mod_nonneg by lia.
  rewrite (Z.div_mod MAXPHYS ss) at 1 by lia.
  replace (ss * (MAXPHYS / ss) + MAXPHYS mod ss - MAXPHYS mod ss)
    with (MAXPHYS / ss * ss) by lia.
  apply Z.mod_mul. lia.
Qed.

Lemma io_start_single_request (w : world) (zio : zio_t) (v : vdev_t) (c : nat)
    (cn : g_consumer) :
  io_type zio = ZIO_TYPE_READ \/ io_type zio = ZIO_TYPE_WRITE ->
  w_vdevs w !! io_vd zio = Some v -> vdev_tsd v = Some c ->
  w_consumers w !! c = Some cn ->
  exists bp,
    vdev_geom_io_start zio w =
      Some ((ZIO_PIPELINE_STOP, zio),
            set_w_log (fun l => l ++ [EvIoRequest bp c]) w) /\
    bio_offset bp = off_t (io_offset zio) /\
    bio_length bp = off_t (io_size zio) /\
    (0 <= io_offset zio < 2 ^ 63 -> bio_offset bp = io_offset zio) /\
    (0 <= io_size zio < 2 ^ 63 -> bio_length bp = io_size zio) /\
    bio_caller1 bp = Some zio.
Proof.
  intros Htype Hv Htsd Hcn. exists (start_bio zio 0). split.
  - apply wp_eq. unfold vdev_geom_io_start. wp_go.
    destruct Htype as [E|E]; rewrite E; unfold sendreq; wp_go;
      rewrite Htsd; wp_go; rewrite E; wp_go; auto.
  - unfold start_bio.
    destruct Htype as [E|E]; rewrite E; cbn [bio_offset bio_length bio_caller1];
      repeat split; try reflexivity; intros Hr; apply off_t_small; lia.
Qed.

(** C3, as the code has it: a read or write that goes through
    [vdev_geom_io] is cut into [ceil (L / M)] requests, issued in
    increasing offset order, each starting where the one before ends, their
    lengths adding up to [L]; the first request that fails is the last one
    issued and its error is the result.  A read or write that goes through
    [vdev_geom_io_start] is not cut: it is one request for the whole
    range, with the offset and the length stored in the [off_t] fields of
    the request. *)
Theorem transfer_is_chunked (w : world) (cp : nat) (cn : g_consumer) (pp : nat)
    (p : g_provider) (cmd : bio_cmd_t) (offset size : Z) :
  w_consumers w !! cp = Some cn -> cp_provider cn = Some pp ->
  w_providers w !! pp = Some p ->
  0 < pp_sectorsize p <= MAXPHYS ->
  0 <= offset -> 0 < size ->
  Z.rem offset (pp_sectorsize p) = 0 -> Z.rem size (pp_sectorsize p) = 0 ->
  offset + size + (MAXPHYS - Z.rem MAXPHYS (pp_sectorsize p)) < 2 ^ 63 ->
  chunked_transfer w cp p cmd offset size.
Proof.
  intros Hcn Hpp Hp Hss Hoff Hsize Haoff Hasize Hbound.
  unfold chunked_transfer.
  destruct (maxio_positive _ Hss) as [HM HMss].
  set (M := MAXPHYS - Z.rem MAXPHYS (pp_sectorsize p)) in *.
  set (n := chunks_needed size M).
  assert (0 <= (size + M - 1) / M) as Hq by (apply Z.div_pos; lia).
  split; [|split; [|split; [|split]]].
  - repeat split; try lia; try assumption.
    unfold n, chunks_needed. rewrite Z2Nat.id by assumption. reflexivity.
  - intros i Hi.
    assert (Z.of_nat i * M < size) as Hlt by (apply chunks_needed_lt; [lia..|exact Hi]).
    cbn [chunk sync_bio bio_offset bio_length].
    split; [reflexivity|]. split; [lia|].
    destruct (S i <? n)%nat eqn:E.
    + apply Nat.ltb_lt in E.
      assert (Z.of_nat (S i) * M < size) by (apply chunks_needed_lt; [lia..|exact E]).
      lia.
    + apply Nat.ltb_ge in E.
      assert (~ Z.of_nat (S i) * M < size) as Hno.
      { intros H. apply chunks_needed_lt in H; [|lia..]. fold n in H. lia. }
      lia.
  - rewrite total_length_min by (try lia; reflexivity).
    assert (~ Z.of_nat n * M < size) as Hno.
    { intros H. apply chunks_needed_lt in H; [|lia..]. fold n in H. lia. }
    lia.
  - destruct (io_loop_spec cp cmd offset size M ltac:(lia) Hsize Hoff ltac:(lia)
                n 0%nat (S (Z.to_nat (size / M))) w ltac:(reflexivity)
                (chunks_needed_fuel size M ltac:(lia) Hsize))
      as (m & err & w' & Hm & Hrun & Hlog & _ & _ & Hzero & Hm0 & Hlast & Hall).
    assert (1 <= n)%nat as Hn.
    { assert (0 < n)%nat; [|lia]. apply chunks_needed_lt; [lia..|]. cbn. lia. }
    assert (1 <= m)%nat as Hm1.
    { destruct m as [|m]; [|lia]. specialize (Hm0 eq_refl). specialize (Hall Hm0). lia. }
    exists m, err, w'. split; [lia|]. split.
    { apply wp_eq. unfold vdev_geom_io. wp_go.
      destruct (pp_sectorsize p =? 0) eqn:E0; [apply Z.eqb_eq in E0; lia|].
      rewrite Haoff, Hasize. cbn [Z.eqb negb].
      rewrite off_t_small by lia. fold M.
      cbn [Z.of_nat Z.mul Z.add] in Hrun. rewrite Z.add_0_r, Z.sub_0_r in Hrun.
      eapply wp_of_run; [exact Hrun|]. auto. }
    repeat split; auto; apply Hlast; lia.
  - intros zio v c cn'. apply io_start_single_request.
Qed.

End chunks.

Lemma transfer_is_chunked_witness :
  chunked_transfer (K := freebsd) world_ada0_open 11 (disk "ada0" 512 77 99)
    BIO_READ 0 278528.
Proof.
  eapply (transfer_is_chunked (K := freebsd) world_ada0_open 11 _ 0%nat);
    try (vm_compute; reflexivity).
  - vm_compute. split; [reflexivity | discriminate].
  - vm_compute. discriminate.
Defined.

(** C3 as stated fails for the dispatcher: a read of 262144 bytes is two
    chunks of [M = 131072] bytes, and [vdev_geom_io_start] issues one
    request of 262144 bytes. *)
Lemma dispatcher_chunks_counterexample :
  chunks_needed 262144 (131072 - Z.rem 131072 512) = 2%nat /\
  exists bp,
    vdev_geom_io_start (K := freebsd) (big_read 262144) world_ada0_open =
      Some ((ZIO_PIPELINE_STOP, big_read 262144),
            set_w_log (fun l => l ++ [EvIoRequest bp 11]) world_ada0_open) /\
    bio_offset bp = 4194304 /\ bio_length bp = 262144.
Proof.
  split; [reflexivity|]. eexists. vm_compute. repeat split.
Qed.

(** * Further properties of the file *)

(** ** The identity pairs of a label *)

Section guids.
Context {K : SysConsts}.

Lemma nvlist_get_guids_loop_filter l : forall pguid vguid,
  nvlist_get_guids_loop (List.filter is_uint64 l) pguid vguid =
  nvlist_get_guids_loop l pguid vguid.
Proof.
  induction l as [|e l IH]; intros pguid vguid; [reflexivity|].
  cbn [List.filter nvlist_get_guids_loop]. unfold is_uint64.
  destruct (nvpair_type e) eqn:E.
  - cbn [nvlist_get_guids_loop]. rewrite E.
    destruct (_ && _); [reflexivity | apply IH].
  - apply IH.
Qed.

(** X1: pairs that are not 64-bit integers play no part in
    [nvlist_get_guids]: dropping them from the list changes nothing. *)
Theorem nvlist_get_guids_skips_other_types (l : list nvpair_t) :
  nvlist_get_guids (List.filter is_uint64 l) = nvlist_get_guids l.
Proof. apply nvlist_get_guids_loop_filter. Qed.

Lemma nvlist_get_guids_loop_found (a b : Z) l : forall pguid vguid,
  ZPOOL_CONFIG_POOL_GUID <> ZPOOL_CONFIG_GUID ->
  a <> 0 -> b <> 0 ->
  (forall e, In e l -> names_pool e -> nvpair_value_uint64 e = a) ->
  (forall e, In e l -> names_vdev e -> nvpair_value_uint64 e = b) ->
  pguid = a \/ (pguid = 0 /\ exists e, In e l /\ names_pool e) ->
  vguid = b \/ (vguid = 0 /\ exists e, In e l /\ names_vdev e) ->
  nvlist_get_guids_loop l pguid vguid = (a, b).
Proof.
  intros pguid vguid Hne Ha Hb.
  revert pguid vguid. induction l as [|e l IH]; intros pguid vguid Hpa Hvb Hp Hv.
  - destruct Hp as [->|[_ (e & [] & _)]], Hv as [->|[_ (e & [] & _)]]. reflexivity.
  - cbn [nvlist_get_guids_loop].
    assert (forall x, In x l -> names_pool x -> nvpair_value_uint64 x = a) as Hpa'
      by (intros x Hx; apply Hpa; right; exact Hx).
    assert (forall x, In x l -> names_vdev x -> nvpair_value_uint64 x = b) as Hvb'
      by (intros x Hx; apply Hvb; right; exact Hx).
    destruct (nvpair_type e) eqn:Et.
    + destruct (String.eqb (nvpair_name e) ZPOOL_CONFIG_POOL_GUID) eqn:En.
      * apply String.eqb_eq in En.
        rewrite (Hpa e (or_introl eq_refl) (conj Et En)).
        assert (vguid = b \/ vguid = 0 /\ exists x, In x l /\ names_vdev x) as Hv'.
        { destruct Hv as [->|[-> (x & [<-|Hx] & Hn)]]; auto.
          - destruct Hn as [_ Hn]. congruence.
          - right. eauto. }
        destruct (negb (a =? 0) && negb (vguid =? 0)) eqn:Estop.
        -- apply andb_prop in Estop as [_ Ev].
           apply negb_true_iff, Z.eqb_neq in Ev.
           destruct Hv' as [->|[-> _]]; [reflexivity | contradiction].
        -- apply IH; auto.
      * apply String.eqb_neq in En.
        assert (pguid = a \/ pguid = 0 /\ exists x, In x l /\ names_pool x) as Hp'.
        { destruct Hp as [->|[-> (x & [<-|Hx] & Hn)]]; auto.
          - destruct Hn as [_ Hn]. contradiction.
          - right. eauto. }
        destruct (String.eqb (nvpair_name e) ZPOOL_CONFIG_GUID) eqn:En2.
        -- apply String.eqb_eq in En2.
           rewrite (Hvb e (or_introl eq_refl) (conj Et En2)).
           destruct (negb (pguid =? 0) && negb (b =? 0)) eqn:Estop.
           ++ apply andb_prop in Estop as [Ep _].
              apply negb_true_iff, Z.eqb_neq in Ep.
              destruct Hp' as [->|[-> _]]; [reflexivity | contradiction].
           ++ apply IH; auto.
        -- apply String.eqb_neq in En2.
           assert (vguid = b \/ vguid = 0 /\ exists x, In x l /\ names_vdev x) as Hv'.
           { destruct Hv as [->|[-> (x & [<-|Hx] & Hn)]]; auto.
             - destruct Hn as [_ Hn]. contradiction.
             - right. eauto. }
           destruct (negb (pguid =? 0) && negb (vguid =? 0)) eqn:Estop.
           ++ apply andb_prop in Estop as [Ep Ev].
              apply negb_true_iff, Z.eqb_neq in Ep.
              apply negb_true_iff, Z.eqb_neq in Ev.
              destruct Hp' as [->|[-> _]]; [|contradiction].
              destruct Hv' as [->|[-> _]]; [reflexivity | contradiction].
           ++ apply IH; auto.
    + apply IH; auto.
      * destruct Hp as [->|[-> (x & [<-|Hx] & Hn)]]; auto.
        -- destruct Hn as [Hn _]. congruence.
        -- right. eauto.
      * destruct Hv as [->|[-> (x & [<-|Hx] & Hn)]]; auto.
        -- destruct Hn as [Hn _]. congruence.
        -- right. eauto.
Qed.

(** X2: when the 64-bit pairs named [ZPOOL_CONFIG_POOL_GUID] all carry the
    non-zero value [a], those named [ZPOOL_CONFIG_GUID] all carry the
    non-zero value [b], and the list has one of each, [nvlist_get_guids]
    returns [(a, b)] wherever the pairs stand in the list. *)
Theorem nvlist_get_guids_any_order (l : list nvpair_t) (a b : Z) :
  ZPOOL_CONFIG_POOL_GUID <> ZPOOL_CONFIG_GUID ->
  a <> 0 -> b <> 0 ->
  (forall e, In e l -> names_pool e -> nvpair_value_uint64 e = a) ->
  (forall e, In e l -> names_vdev e -> nvpair_value_uint64 e = b) ->
  (exists e, In e l /\ names_pool e) ->
  (exists e, In e l /\ names_vdev e) ->
  nvlist_get_guids l = (a, b).
Proof.
  intros Hne Ha Hb Hpa Hvb Hp Hv. unfold nvlist_get_guids.
  apply nvlist_get_guids_loop_found; auto.
Qed.

End guids.

Lemma nvlist_get_guids_any_order_witness :
  nvlist_get_guids (K := freebsd) (rev (label_of 77 99)) = (77, 99).
Proof.
  apply (nvlist_get_guids_any_order (K := freebsd) (rev (label_of 77 99)) 77 99).
  - discriminate.
  - discriminate.
  - discriminate.
  - intros e He [_ Hn]. cbn in He.
    destruct He as [<-|[<-|[<-|[<-|[]]]]]; first [reflexivity | discriminate Hn].
  - intros e He [_ Hn]. cbn in He.
    destruct He as [<-|[<-|[<-|[<-|[]]]]]; first [reflexivity | discriminate Hn].
  - eexists. split; [right; left; reflexivity | split; reflexivity].
  - eexists. split; [left; reflexivity | split; reflexivity].
Defined.

(** ** Submitting a request *)

Section io_start.
Context {K : SysConsts}.

Lemma start_bio_callback zio mediasize :
  bio_caller1 (start_bio zio mediasize) = Some zio /\
  bio_done (start_bio zio mediasize) = Some vdev_geom_io_intr_fn.
Proof. unfold start_bio. destruct (io_type zio), (io_cmd zio); split; reflexivity. Qed.

Lemma sendreq_inline_or_sent zio w r z w' :
  sendreq zio w = Some ((r, z), w') -> inline_or_sent zio w r z w'.
Proof.
  unfold sendreq. intros H.
  apply bind_Some in H as (v & wa & [Hv ->]%vdev_get_inv & H).
  destruct (vdev_tsd v) as [c|] eqn:Htsd.
  - apply bind_Some in H as (cn & wb & [Hcn ->]%consumer_get_inv & H).
    apply bind_Some in H as (m & wc & Hm & H).
    apply bind_Some in H as (u & wd & ->%emit_inv & [[= -> ->] ->]%ret_inv).
    assert (wc = w) as ->.
    { destruct (io_type zio), (io_cmd zio);
        try (apply ret_inv in Hm as [_ ->]; reflexivity).
      apply bind_Some in Hm as (pp & we & [_ ->]%deref_inv & Hm).
      apply bind_Some in Hm as (p & wf & [_ ->]%provider_get_inv & [_ ->]%ret_inv).
      reflexivity. }
    right. repeat split; try reflexivity.
    exists v, c, (start_bio zio m). repeat split; try assumption;
      apply start_bio_callback.
  - apply ret_inv in H as [[= -> ->] ->]. left. auto.
Qed.

(** X3: [vdev_geom_io_start] either completes the [zio] inline, changing
    no state and leaving the error as it was or setting it to [ENXIO] or
    [ENOTSUP], or it stops the pipeline after sending exactly one request
    to the consumer behind the handle of the vdev, a request that carries
    the [zio] and completes through [vdev_geom_io_intr]. *)
Theorem io_start_inline_or_sent (zio : zio_t) (w : world) (r : pipeline_t)
    (z : zio_t) (w' : world) :
  vdev_geom_io_start zio w = Some ((r, z), w') -> inline_or_sent zio w r z w'.
Proof.
  unfold vdev_geom_io_start. intros H.
  apply bind_Some in H as (v & wa & [Hv ->]%vdev_get_inv & H).
  destruct (io_type zio) eqn:Et; try (apply sendreq_inline_or_sent; exact H).
  destruct (negb (vdev_is_readable v)).
  { apply ret_inv in H as [[= -> ->] ->]. left. auto. }
  apply bind_Some in H as (nf & wb & [= <- <-] & H).
  apply bind_Some in H as (fd & wc & [= <- <-] & H).
  apply bind_Some in H as (dd & wd & [= <- <-] & H).
  destruct (io_cmd zio).
  - destruct (_ || _); [apply ret_inv in H as [[= -> ->] ->]; left; auto|].
    destruct (vdev_nowritecache v); [apply ret_inv in H as [[= -> ->] ->]; left; auto|].
    apply sendreq_inline_or_sent. exact H.
  - destruct (negb _); [apply ret_inv in H as [[= -> ->] ->]; left; auto|].
    destruct (vdev_notrim v); [apply ret_inv in H as [[= -> ->] ->]; left; auto|].
    apply sendreq_inline_or_sent. exact H.
  - apply ret_inv in H as [[= -> ->] ->]. left. auto.
Qed.

End io_start.

Lemma io_start_inline_or_sent_witness :
  inline_or_sent (K := freebsd) read_zio world_ada0_open ZIO_PIPELINE_STOP read_zio
    (exec (vdev_geom_io_start (K := freebsd) read_zio) world_ada0_open).
Proof.
  apply (io_start_inline_or_sent (K := freebsd) read_zio world_ada0_open).
  vm_compute. reflexivity.
Defined.

(** ** Completing a request *)

Section io_intr.
Context {K : SysConsts}.

Lemma io_intr_effect w vd v bp zio pp p :
  w_vdevs w !! vd = Some v ->
  bio_caller1 bp = Some zio -> io_vd zio = vd ->
  bio_to bp = Some pp -> w_providers w !! pp = Some p ->
  wp (vdev_geom_io_intr bp) (fun _ w' =>
    exists v', w_vdevs w' !! vd = Some v' /\
      vdev_nowritecache v' = vdev_nowritecache v || flush_unsupported_reply bp /\
      vdev_notrim v' = vdev_notrim v || trim_unsupported_reply bp /\
      vdev_tsd v' = vdev_tsd v /\
      vdev_delayed_close v' =
        vdev_delayed_close v || (hard_error v bp && (pp_error p =? 0)) /\
      vdev_remove_wanted v' =
        vdev_remove_wanted v || (hard_error v bp && negb (pp_error p =? 0)) /\
      w_consumers w' = w_consumers w /\ w_providers w' = w_providers w /\
      w_mem w' = w_mem w /\
      last (w_log w') = Some (EvZioInterrupt (completed_zio bp zio)) /\
      count is_zio_interrupt (w_log w') = S (count is_zio_interrupt (w_log w))) w.
Proof.
  intros Hv Hz Hvd Hto Hp.
  unfold vdev_geom_io_intr. wp_go. subst vd. cbv zeta.
  unfold flush_unsupported_reply, trim_unsupported_reply, hard_error, classify.
  rewrite completed_zio_error.
  destruct (bool_decide (bio_cmd bp = BIO_FLUSH) && (bio_error bp =? ENOTSUP));
  destruct (bool_decide (bio_cmd bp = BIO_DELETE) && (bio_error bp =? ENOTSUP));
  destruct ((if (bio_error bp =? 0) && negb (bio_resid bp =? 0)
             then EIO else bio_error bp) =? EIO);
    destruct (pp_error p =? 0) eqn:Hpe; destruct (vdev_remove_wanted v) eqn:Hrw;
    destruct (vdev_delayed_close v) eqn:Hdc.
  all: repeat (first [wp_step | wp_case];
               cbn [vdev_remove_wanted vdev_delayed_close set_vdev_remove_wanted
                    set_vdev_notrim set_vdev_nowritecache set_vdev_delayed_close
                    andb negb];
               rewrite ?Hrw, ?Hpe, ?Hdc; cbn [andb negb]).
  all: wsimpl; eexists; (split; [lk|]).
  all: cbn [vdev_remove_wanted vdev_delayed_close vdev_nowritecache vdev_notrim
            vdev_tsd set_vdev_remove_wanted set_vdev_notrim
            set_vdev_nowritecache set_vdev_delayed_close andb negb orb].
  all: rewrite ?Hrw, ?Hdc, ?orb_true_r, ?orb_false_r, ?last_snoc, ?count_app;
    cbn [count List.filter is_zio_interrupt length].
  all: repeat split; try reflexivity; try lia.
Qed.

(** X4: the completion of a request of the vdev [vd] sets the
    flush-unsupported flag exactly when the request was a flush answered
    with [ENOTSUP], and the trim-unsupported flag exactly when it was a
    delete answered with [ENOTSUP]; it leaves the handle of the vdev, the
    consumers and the caller's cells alone, and it hands the [zio], with
    the classified error, to [zio_interrupt] exactly once, as the last
    thing it does. *)
Theorem io_intr_records_capabilities (w : world) (vd : nat) (v : vdev_t) (bp : bio)
    (zio : zio_t) (pp : nat) (p : g_provider) :
  w_vdevs w !! vd = Some v ->
  bio_caller1 bp = Some zio -> io_vd zio = vd ->
  bio_to bp = Some pp -> w_providers w !! pp = Some p ->
  exists w' v',
    vdev_geom_io_intr bp w = Some (tt, w') /\
    w_vdevs w' !! vd = Some v' /\
    vdev_nowritecache v' = vdev_nowritecache v || flush_unsupported_reply bp /\
    vdev_notrim v' = vdev_notrim v || trim_unsupported_reply bp /\
    vdev_tsd v' = vdev_tsd v /\
    w_consumers w' = w_consumers w /\ w_mem w' = w_mem w /\
    last (w_log w') = Some (EvZioInterrupt (completed_zio bp zio)) /\
    io_error (completed_zio bp zio) = classify bp /\
    count is_zio_interrupt (w_log w') = S (count is_zio_interrupt (w_log w)).
Proof.
  intros Hv Hz Hvd Hto Hp.
  destruct (wp_run _ _ _ (io_intr_effect w vd v bp zio pp p Hv Hz Hvd Hto Hp))
    as ([] & w' & Hrun & v' & Hv' & H1 & H2 & H3 & _ & _ & H6 & _ & H8 & H9 & H10).
  exists w', v'. repeat split; try assumption.
  apply completed_zio_error.
Qed.

(** X5: a hard I/O error on a vdev that is not yet wanted removed, while
    the provider's own error is clear, marks the vdev for a delayed close
    and nothing more: removal is not requested and no fault is
    reported. *)
Theorem io_intr_hard_error_delays_close (w : world) (vd : nat) (v : vdev_t) (bp : bio)
    (zio : zio_t) (pp : nat) (p : g_provider) :
  w_vdevs w !! vd = Some v ->
  bio_caller1 bp = Some zio -> io_vd zio = vd ->
  bio_to bp = Some pp -> w_providers w !! pp = Some p ->
  classify bp = EIO -> vdev_remove_wanted v = false -> pp_error p = 0 ->
  exists w' v',
    vdev_geom_io_intr bp w = Some (tt, w') /\
    w_vdevs w' !! vd = Some v' /\
    vdev_delayed_close v' = true /\ vdev_remove_wanted v' = false /\
    count (is_post_remove vd) (w_log w') = count (is_post_remove vd) (w_log w) /\
    count is_remove_request (w_log w') = count is_remove_request (w_log w).
Proof.
  intros Hv Hz Hvd Hto Hp Hhard Hrw Herr.
  destruct (wp_run _ _ _ (io_intr_effect w vd v bp zio pp p Hv Hz Hvd Hto Hp))
    as ([] & w' & Hrun & v' & Hv' & _ & _ & _ & Hdc & Hrm & _).
  assert (completion_of w vd bp) as Hc by (exists zio, pp, p; auto).
  destruct (wp_run _ _ _ (io_intr_step w vd v bp Hv Hc))
    as ([] & w'' & Hrun' & _ & v'' & _ & Hstep).
  rewrite Hrun in Hrun'. injection Hrun' as <-.
  unfold hard_error in Hdc, Hrm. rewrite Hhard, Hrw, Herr, Z.eqb_refl in Hdc, Hrm.
  cbn in Hdc, Hrm. rewrite orb_true_r in Hdc.
  assert (fault_completion w bp = false) as Hnf.
  { unfold fault_completion. rewrite Hto, Hp, Herr. cbn. apply andb_false_r. }
  rewrite Hnf in Hstep. cbn in Hstep. destruct Hstep as (_ & Hc1 & Hc2).
  exists w', v'. repeat split; assumption.
Qed.

(** Completions leave the handle of the vdev and the consumers alone. *)
Lemma run_completions_handle l : forall w vd v w',
  w_vdevs w !! vd = Some v ->
  Forall (completion_of w vd) l ->
  run_completions l w = Some (tt, w') ->
  w_consumers w' = w_consumers w /\
  exists v', w_vdevs w' !! vd = Some v' /\ vdev_tsd v' = vdev_tsd v.
Proof.
  induction l as [|bp l IH]; intros w vd v w' Hv Hall Hrun; cbn [run_completions] in Hrun.
  - apply ret_inv in Hrun as [_ ->]. eauto.
  - inversion Hall as [|? ? (zio & pp & p & Hz & Hvd & Hto & Hp) Hl]; subst.
    destruct (wp_run _ _ _ (io_intr_effect w (io_vd zio) v bp zio pp p Hv Hz eq_refl Hto Hp))
      as ([] & w1 & Hrun1 & v1 & Hv1 & _ & _ & Htsd & _ & _ & Hc & Hpr & _).
    rewrite (bind_run _ _ _ _ _ Hrun1) in Hrun.
    assert (Forall (completion_of w1 (io_vd zio)) l) as Hl1.
    { eapply Forall_impl; [exact Hl|]. intros b. apply completion_of_ext. assumption. }
    destruct (IH w1 (io_vd zio) v1 w' Hv1 Hl1 Hrun) as (Hc' & v' & Hv' & Htsd').
    split; [congruence|]. exists v'. split; [assumption | congruence].
Qed.

End io_intr.

Lemma io_intr_records_capabilities_witness :
  exists w' v',
    vdev_geom_io_intr (K := freebsd) flush_notsup
      (exec (vdev_geom_io_start (K := freebsd) flush_zio) world_ada0_open) =
      Some (tt, w') /\
    w_vdevs w' !! 1%nat = Some v' /\
    vdev_nowritecache v' = true /\ vdev_notrim v' = false /\
    vdev_tsd v' = Some 11%nat /\
    last (w_log w') = Some (EvZioInterrupt (set_io_error 45 flush_zio)).
Proof.
  pose proof (fun v => io_intr_records_capabilities (K := freebsd)
              (exec (vdev_geom_io_start (K := freebsd) flush_zio) world_ada0_open)
              1 v flush_notsup flush_zio 0%nat (disk "ada0" 512 77 99)) as H.
  edestruct H as (w' & v' & Hrun & Hv' & Hf & Ht & Htsd & _ & _ & Hlast & _);
    try (vm_compute; reflexivity).
  exists w', v'. repeat split; assumption.
Defined.

Lemma io_intr_hard_error_delays_close_witness :
  exists w' v',
    vdev_geom_io_intr (K := freebsd) (read_completed 5 131072) world_ada0_open =
      Some (tt, w') /\
    w_vdevs w' !! 1%nat = Some v' /\
    vdev_delayed_close v' = true /\ vdev_remove_wanted v' = false /\
    count (is_post_remove 1) (w_log w') = count (is_post_remove 1) (w_log world_ada0_open) /\
    count is_remove_request (w_log w') = count is_remove_request (w_log world_ada0_open).
Proof.
  eapply (io_intr_hard_error_delays_close (K := freebsd) world_ada0_open 1 _
            (read_completed 5 131072) read_zio 0%nat (disk "ada0" 512 77 99));
    vm_compute; reflexivity.
Defined.

(** ** The callbacks of the geom *)

Section callbacks.
Context {K : SysConsts}.

(** X6: once the provider of a consumer was orphaned, the vdev the
    consumer refers back to is wanted removed and the removal was requested
    once; the completions that follow report no fault and request no
    further removal, whatever errors they carry. *)
Theorem orphan_silences_fault_reports (w : world) (cp : nat) (cn : g_consumer)
    (vd : nat) (v : vdev_t) (l : list bio) :
  w_consumers w !! cp = Some cn -> cp_private cn = Some vd ->
  w_vdevs w !! vd = Some v ->
  Forall (completion_of w vd) l ->
  exists w' v',
    (vdev_geom_orphan cp;; run_completions l) w = Some (tt, w') /\
    w_vdevs w' !! vd = Some v' /\
    vdev_remove_wanted v' = true /\ vdev_tsd v' = vdev_tsd v /\
    w_consumers w' = w_consumers w /\
    count (is_post_remove vd) (w_log w') = count (is_post_remove vd) (w_log w) /\
    count is_remove_request (w_log w') = S (count is_remove_request (w_log w)).
Proof.
  intros Hcn Hpriv Hv Hall.
  set (w1 := set_w_log (fun l => l ++ [EvSpaAsyncRequest (vdev_spa v) SPA_ASYNC_REMOVE])
               (set_w_vdevs (insert vd (set_vdev_remove_wanted true v)) w)).
  assert (vdev_geom_orphan cp w = Some (tt, w1)) as Hrun.
  { apply wp_eq. unfold vdev_geom_orphan. wp_go. rewrite Hpriv. wp_go. auto. }
  assert (Forall (completion_of w1 vd) l) as Hall1.
  { eapply Forall_impl; [exact Hall|]. intros b. apply completion_of_ext. reflexivity. }
  destruct (run_completions_counts l w1 vd (set_vdev_remove_wanted true v))
    as (w' & v' & Hrun' & Hv' & Hrw' & Hc1 & Hc2);
    [subst w1; wsimpl; apply lookup_insert_eq | exact Hall1 |].
  destruct (run_completions_handle l w1 vd (set_vdev_remove_wanted true v) w')
    as (Hcons & y & Hy & Ey);
    [subst w1; wsimpl; apply lookup_insert_eq | exact Hall1 | exact Hrun' |].
  rewrite Hv' in Hy. injection Hy as <-.
  exists w', v'. rewrite (bind_run _ _ _ _ _ Hrun).
  cbn [vdev_remove_wanted set_vdev_remove_wanted negb andb orb] in *.
  subst w1. wsimpl. rewrite !count_app in Hc1, Hc2.
  cbn [count List.filter is_post_remove is_remove_request length] in Hc1, Hc2.
  repeat split; try assumption; lia.
Qed.

End callbacks.

Lemma orphan_silences_fault_reports_witness :
  exists w' v',
    (vdev_geom_orphan 11;; run_completions (K := freebsd) pulled_completions)
      world_ada0_pulled = Some (tt, w') /\
    w_vdevs w' !! 1%nat = Some v' /\
    vdev_remove_wanted v' = true /\ vdev_tsd v' = Some 11%nat /\
    count (is_post_remove 1) (w_log w') =
      count (is_post_remove 1) (w_log world_ada0_pulled) /\
    count is_remove_request (w_log w') =
      S (count is_remove_request (w_log world_ada0_pulled)).
Proof.
  pose proof (fun cn v => orphan_silences_fault_reports (K := freebsd)
                world_ada0_pulled 11 cn 1 v pulled_completions) as H.
  edestruct H as (w' & v' & Hrun & Hv' & Hrw & Htsd & _ & Hc1 & Hc2).
  - vm_compute. reflexivity.
  - reflexivity.
  - vm_compute. reflexivity.
  - unfold pulled_completions.
    repeat constructor; exists read_zio, 0%nat; eexists;
      repeat split; vm_compute; reflexivity.
  - exists w', v'. repeat split; assumption.
Defined.

Section physpath.
Context {K : SysConsts}.

Lemma add_cp_access_back cn : add_cp_access (-1) 0 0 (add_cp_access 1 0 0 cn) = cn.
Proof.
  destruct cn as [g pr r wr e pv]. unfold add_cp_access. cbn.
  f_equal; lia.
Qed.

(** X7: when the device layer grants the read claim and answers the
    attribute, [vdev_geom_attrchanged] for [GEOM::physpath] records the
    physical path of the provider in the vdev the consumer refers back to
    and asks for a configuration update; the read claim it took is given
    back, so the consumers are exactly as before. *)
Theorem attrchanged_records_physpath (w : world) (cp : nat) (cn : g_consumer)
    (vd : nat) (v : vdev_t) (pp : nat) (p : g_provider) :
  w_consumers w !! cp = Some cn -> cp_private cn = Some vd ->
  cp_provider cn = Some pp -> w_providers w !! pp = Some p ->
  w_vdevs w !! vd = Some v ->
  (forall i, (i < 3)%nat -> w_oracle w (w_tick w + i)%nat = 0) ->
  exists w',
    vdev_geom_attrchanged cp "GEOM::physpath" w = Some (tt, w') /\
    w_consumers w' = w_consumers w /\
    w_vdevs w' = <[vd := set_vdev_physpath (Some (pp_physpath p)) v]> (w_vdevs w) /\
    w_log w' = w_log w ++ [EvSpaAsyncRequest (vdev_spa v) SPA_ASYNC_CONFIG_UPDATE].
Proof.
  intros Hcn Hpriv Hprov Hp Hv Hor.
  pose proof (Hor 0%nat ltac:(lia)) as H0. rewrite Nat.add_0_r in H0.
  pose proof (Hor 1%nat ltac:(lia)) as H1. rewrite Nat.add_1_r in H1.
  pose proof (Hor 2%nat ltac:(lia)) as H2.
  replace (w_tick w + 2)%nat with (S (S (w_tick w))) in H2 by lia.
  assert (wp (vdev_geom_attrchanged cp "GEOM::physpath") (fun _ w' =>
            w_consumers w' = w_consumers w /\
            w_vdevs w' = <[vd := set_vdev_physpath (Some (pp_physpath p)) v]> (w_vdevs w) /\
            w_log w' = w_log w ++ [EvSpaAsyncRequest (vdev_spa v) SPA_ASYNC_CONFIG_UPDATE])
            w) as H.
  { unfold vdev_geom_attrchanged. cbn [String.eqb Ascii.eqb Bool.eqb negb].
    unfold g_access, g_io_getattr.
    do 4 (wp_go; wsimpl; rewrite ?H0, ?H1, ?H2; cbn [Z.eqb negb fst snd]).
    repeat split; try reflexivity.
    rewrite insert_insert_eq, add_cp_access_back. apply insert_id. exact Hcn. }
  destruct (wp_run _ _ _ H) as ([] & w' & Hrun & Hpost). exists w'. auto.
Qed.

End physpath.

Lemma attrchanged_records_physpath_witness :
  exists w',
    vdev_geom_attrchanged 11 "GEOM::physpath" world_ada0_open = Some (tt, w') /\
    w_consumers w' = w_consumers world_ada0_open /\
    w_log w' = w_log world_ada0_open ++
      [EvSpaAsyncRequest tank SPA_ASYNC_CONFIG_UPDATE].
Proof.
  pose proof (fun cn v => attrchanged_records_physpath world_ada0_open 11 cn 1 v
                0%nat (disk "ada0" 512 77 99)) as H.
  edestruct H as (w' & Hrun & Hc & _ & Hlog).
  - vm_compute. reflexivity.
  - reflexivity.
  - reflexivity.
  - reflexivity.
  - vm_compute. reflexivity.
  - intros i _. reflexivity.
  - exists w'. repeat split; assumption.
Defined.

(** ** Opening a vdev: the edges *)

Section open_edges.
Context {K : SysConsts}.

(** X8: without an absolute path [vdev_geom_open] fails with [EINVAL]
    before it looks at the device layer: the auxiliary status becomes
    [VDEV_AUX_BAD_LABEL] and nothing else changes, not even the handle. *)
Theorem open_rejects_relative_path (w : world) (vd : nat) (v : vdev_t)
    (psize max_psize ashift : nat) :
  w_vdevs w !! vd = Some v ->
  (vdev_path v = None \/
   exists path, vdev_path v = Some path /\ starts_with_slash path = false) ->
  vdev_geom_open vd psize max_psize ashift w =
    Some (EINVAL, set_w_vdevs (insert vd (set_vs_aux VDEV_AUX_BAD_LABEL v)) w).
Proof.
  intros Hv Hpath. apply wp_eq. unfold vdev_geom_open. wp_go.
  destruct Hpath as [->|(path & -> & ->)]; cbn [negb]; wp_go; auto.
Qed.

Lemma wp_alloc (Q : nat -> world -> Prop) w :
  Q (w_next w) (set_w_next S w) -> wp alloc Q w.
Proof. auto. Qed.

Lemma taste_providers_skips l : forall pp zcp vd w,
  forallb scan_skips l = true ->
  taste_providers l pp zcp vd w = Some (None, w).
Proof.
  induction l as [|p l IH]; intros pp zcp vd w Hall; [reflexivity|].
  cbn [forallb] in Hall. apply andb_prop in Hall as [Hp Hl].
  cbn [taste_providers]. unfold scan_skips in Hp.
  destruct (pp_class_zfs p); [apply IH; exact Hl|].
  destruct (pp_geom_wither p); [apply IH; exact Hl|].
  destruct (pp_wither p); [apply IH; exact Hl | discriminate].
Qed.

(** The identity scan when there is nothing to taste: the tasting geom and
    its consumer are created and destroyed, and the device layer is not
    called. *)
Lemma attach_by_guids_nothing w vd :
  forallb scan_skips (w_providers w) = true ->
  wp (vdev_geom_attach_by_guids vd) (fun r w' =>
    r = None /\ w_vdevs w' = w_vdevs w /\ w_mem w' = w_mem w /\
    w_tick w' = w_tick w /\ w_providers w' = w_providers w /\
    w_log w' = w_log w) w.
Proof.
  intros Hall. unfold vdev_geom_attach_by_guids, g_new_geomf, g_new_consumer.
  repeat first [wp_step | apply wp_alloc]. unfold wp at 1. wsimpl.
  rewrite taste_providers_skips by exact Hall.
  unfold g_destroy_consumer, g_destroy_geom. wp_go. wsimpl.
  rewrite filter_cons_False by (intros H; apply H; reflexivity).
  rewrite filter_nil. wp_go. wsimpl. repeat split; reflexivity.
Qed.

(** X9: when the path names no provider and the identity scan has nothing
    to taste (every provider belongs to the ZFS class or is withering, or
    there is none), [vdev_geom_open] fails with [ENOENT] without calling
    the device layer: the handle is null, the auxiliary status is
    [VDEV_AUX_OPEN_FAILED] and the caller's cells are untouched. *)
Theorem open_finds_no_provider (w : world) (vd : nat) (v : vdev_t) (path : string)
    (psize max_psize ashift : nat) :
  w_vdevs w !! vd = Some v ->
  vdev_path v = Some path -> starts_with_slash path = true ->
  provider_index (string_drop 5 path) (w_providers w) 0 = None ->
  forallb scan_skips (w_providers w) = true ->
  exists w' v',
    vdev_geom_open vd psize max_psize ashift w = Some (ENOENT, w') /\
    w_vdevs w' !! vd = Some v' /\ vdev_tsd v' = None /\
    vs_aux v' = VDEV_AUX_OPEN_FAILED /\
    w_tick w' = w_tick w /\ w_mem w' = w_mem w.
Proof.
  intros Hv Hpath Hslash Hidx Hall.
  assert (wp (vdev_geom_open vd psize max_psize ashift) (fun e w' =>
            e = ENOENT /\
            (exists v', w_vdevs w' !! vd = Some v' /\ vdev_tsd v' = None /\
                        vs_aux v' = VDEV_AUX_OPEN_FAILED) /\
            w_tick w' = w_tick w /\ w_mem w' = w_mem w) w) as H.
  { unfold vdev_geom_open. wp_go. rewrite Hpath, Hslash. cbn [negb]. wp_go.
    unfold vdev_geom_open_resolve, vdev_geom_open_by_path, g_provider_by_name.
    wp_go. wsimpl. rewrite Hidx. wp_go.
    unfold vdev_geom_open_by_guids. wp_go.
    eapply wp_mono; [apply attach_by_guids_nothing; wsimpl; exact Hall|].
    cbv beta. wsimpl. intros r w1 (-> & Hvd & Hm & Ht & Hpr & Hlog).
    assert (w_vdevs w1 !! vd = Some (set_vdev_tsd None v)) as Hv1
      by (rewrite Hvd; apply lookup_insert_eq).
    wp_go.
    destruct (_ || _).
    - wp_go. wsimpl. rewrite Hpr, Hidx. wp_go.
      unfold vdev_geom_open_claim. wp_go. cbn [fst snd]. wp_go. wsimpl.
      split; [reflexivity|]. split; [|auto].
      eexists. split; [apply lookup_insert_eq|]. split; reflexivity.
    - wp_go. unfold vdev_geom_open_claim. wp_go. cbn [fst snd]. wp_go. wsimpl.
      split; [reflexivity|]. split; [|auto].
      eexists. split; [apply lookup_insert_eq|]. split; reflexivity. }
  destruct (wp_run _ _ _ H) as (e & w' & Hrun & -> & (v' & Hv' & Htsd & Haux) & Ht & Hm).
  exists w', v'. repeat split; assumption.
Qed.

End open_edges.

Lemma open_rejects_relative_path_witness :
  vdev_geom_open (K := freebsd) 1 100 101 102 world_relative_path =
    Some (22, set_w_vdevs (insert 1%nat
                 (set_vs_aux VDEV_AUX_BAD_LABEL (closed_vdev "ada0" 99)))
                world_relative_path).
Proof.
  apply (open_rejects_relative_path (K := freebsd) world_relative_path 1
           (closed_vdev "ada0" 99) 100 101 102).
  - vm_compute. reflexivity.
  - right. exists "ada0"%string. split; reflexivity.
Defined.

Lemma open_finds_no_provider_witness :
  exists w' v',
    vdev_geom_open (K := freebsd) 1 100 101 102 world_only_zvol = Some (2, w') /\
    w_vdevs w' !! 1%nat = Some v' /\ vdev_tsd v' = None /\
    vs_aux v' = VDEV_AUX_OPEN_FAILED /\
    w_tick w' = w_tick world_only_zvol /\ w_mem w' = w_mem world_only_zvol.
Proof.
  apply (open_finds_no_provider (K := freebsd) world_only_zvol 1
           (closed_vdev "/dev/ada0" 99) "/dev/ada0" 100 101 102);
    vm_compute; reflexivity.
Defined.

(** ** Opening a vdev: what the caller gets *)

Section open_result.
Context {K : SysConsts}.

(** How a run of [vdev_geom_open] on an absolute path went: the
    resolution, the checks, and the state the function left. *)
Lemma open_inv w vd v path psize max_psize ashift e w' :
  w_vdevs w !! vd = Some v ->
  vdev_path v = Some path -> starts_with_slash path = true ->
  vdev_geom_open vd psize max_psize ashift w = Some (e, w') ->
  exists cp w1 r w2 v2,
    vdev_geom_open_resolve vd (open_entry vd v w) = Some (cp, w1) /\
    vdev_geom_open_claim vd cp w1 = Some (r, w2) /\
    w_vdevs w2 !! vd = Some v2 /\
    match snd r with
    | None =>
        e = fst r /\
        w' = set_w_vdevs (insert vd (set_vs_aux VDEV_AUX_OPEN_FAILED v2)) w2
    | Some c =>
        e = 0 /\
        exists cn pp p,
          w_consumers w2 !! c = Some cn /\ cp_provider cn = Some pp /\
          w_providers w2 !! pp = Some p /\
          w' = set_w_vdevs
                 (fun m => <[vd := set_vdev_nowritecache false
                                    (set_vdev_tsd (Some c) v2)]> m)
                 (set_w_mem
                    (fun m => <[ashift := highbit (Z.max (pp_sectorsize p)
                                                    SPA_MINBLOCKSIZE) - 1]>
                                (<[max_psize := pp_mediasize p]>
                                   (<[psize := pp_mediasize p]> m))) w2)
    end.
Proof.
  intros Hv Hpath Hslash H. unfold vdev_geom_open in H.
  apply bind_Some in H as (v0 & wa & [Hv0 ->]%vdev_get_inv & H).
  rewrite Hv in Hv0. injection Hv0 as <-.
  rewrite Hpath, Hslash in H. cbn [negb] in H.
  apply bind_Some in H as (u & wb & (v0 & Hv0 & ->)%vdev_set_inv & H).
  rewrite Hv in Hv0. injection Hv0 as <-.
  apply bind_Some in H as (cp & w1 & Hres & H).
  apply bind_Some in H as (r & w2 & Hclaim & H).
  destruct (open_frame _ _ _ _ _ _ _ Hv Hres Hclaim)
    as (_ & _ & _ & v2 & Hv2 & _).
  exists cp, w1, r, w2, v2. split; [exact Hres|]. split; [exact Hclaim|].
  split; [exact Hv2|].
  destruct (snd r) as [c|].
  - apply bind_Some in H as (cn & wc & [Hcn ->]%consumer_get_inv & H).
    apply bind_Some in H as (pp & wd & [Hpp ->]%deref_inv & H).
    apply bind_Some in H as (p & we & [Hp ->]%provider_get_inv & H).
    apply bind_Some in H as (u1 & wf & (v3 & Hv3 & ->)%vdev_set_inv & H).
    rewrite Hv2 in Hv3. injection Hv3 as <-.
    apply bind_Some in H as (u2 & wg & ->%mem_write_inv & H).
    apply bind_Some in H as (u3 & wh & ->%mem_write_inv & H).
    apply bind_Some in H as (u4 & wi & ->%mem_write_inv & H).
    apply bind_Some in H as (u5 & wj & (v4 & Hv4 & ->)%vdev_set_inv & [-> ->]%ret_inv).
    wsimpl. rewrite lookup_insert_eq in Hv4. injection Hv4 as <-.
    split; [reflexivity|]. exists cn, pp, p.
    repeat split; try assumption.
    unfold set_w_vdevs, set_w_mem. cbn. rewrite insert_insert_eq. reflexivity.
  - apply bind_Some in H as (u1 & wc & (v3 & Hv3 & ->)%vdev_set_inv & [-> ->]%ret_inv).
    rewrite Hv2 in Hv3. injection Hv3 as <-. auto.
Qed.

(** X10: however [vdev_geom_open] on an absolute path ends, the handle
    tells: after a failure the handle is null, the auxiliary status is
    [VDEV_AUX_OPEN_FAILED] and the caller's cells are untouched; after a
    success the handle is a consumer of the store. *)
Theorem open_handle_tells_result (w : world) (vd : nat) (v : vdev_t) (path : string)
    (psize max_psize ashift : nat) (e : Z) (w' : world) :
  w_vdevs w !! vd = Some v ->
  vdev_path v = Some path -> starts_with_slash path = true ->
  vdev_geom_open vd psize max_psize ashift w = Some (e, w') ->
  exists v',
    w_vdevs w' !! vd = Some v' /\
    (e = 0 -> exists c, vdev_tsd v' = Some c /\ is_Some (w_consumers w' !! c)) /\
    (e <> 0 -> vdev_tsd v' = None /\ vs_aux v' = VDEV_AUX_OPEN_FAILED /\
               w_mem w' = w_mem w).
Proof.
  intros Hv Hpath Hslash Hrun.
  destruct (open_inv _ _ _ _ _ _ _ _ _ Hv Hpath Hslash Hrun)
    as (cp & w1 & [e1 ocp] & w2 & v2 & Hres & Hclaim & Hv2 & Hend).
  destruct (open_frame _ _ _ _ _ _ _ Hv Hres Hclaim)
    as (Hm & _ & _ & v2' & Hv2' & Htsd & _).
  rewrite Hv2 in Hv2'. injection Hv2' as <-.
  cbn [fst snd] in Hend. destruct ocp as [c|].
  - destruct Hend as (-> & cn & pp & p & Hcn & Hpp & Hp & ->).
    eexists. split; [wsimpl; apply lookup_insert_eq|]. split.
    + intros _. exists c. wsimpl. split; [reflexivity | eauto].
    + intros Hne. contradiction.
  - destruct Hend as (-> & ->).
    eexists. split; [wsimpl; apply lookup_insert_eq|]. split.
    + intros E. destruct (open_claim_dropped _ _ _ _ _ Hclaim E).
    + intros _. wsimpl. auto.
Qed.

(** X11: a successful [vdev_geom_open] stores the media size of the
    provider behind the handle in the cells [psize] and [max_psize] and
    writes no cell of the caller other than the three it was given. *)
Theorem open_reports_media_size (w : world) (vd : nat) (v : vdev_t) (path : string)
    (psize max_psize ashift : nat) (w' : world) :
  w_vdevs w !! vd = Some v ->
  vdev_path v = Some path -> starts_with_slash path = true ->
  vdev_geom_open vd psize max_psize ashift w = Some (0, w') ->
  exists v' c cn pp p,
    w_vdevs w' !! vd = Some v' /\ vdev_tsd v' = Some c /\
    w_consumers w' !! c = Some cn /\ cp_provider cn = Some pp /\
    w_providers w' !! pp = Some p /\
    (psize <> ashift -> w_mem w' !! psize = Some (pp_mediasize p)) /\
    (max_psize <> ashift -> w_mem w' !! max_psize = Some (pp_mediasize p)) /\
    (forall a, a <> psize -> a <> max_psize -> a <> ashift ->
       w_mem w' !! a = w_mem w !! a).
Proof.
  intros Hv Hpath Hslash Hrun.
  destruct (open_inv _ _ _ _ _ _ _ _ _ Hv Hpath Hslash Hrun)
    as (cp & w1 & [e1 ocp] & w2 & v2 & Hres & Hclaim & Hv2 & Hend).
  destruct (open_frame _ _ _ _ _ _ _ Hv Hres Hclaim) as (Hm & _).
  cbn [fst snd] in Hend. destruct ocp as [c|].
  2:{ destruct Hend as (<- & _). destruct (open_claim_dropped _ _ _ _ _ Hclaim eq_refl). }
  destruct Hend as (_ & cn & pp & p & Hcn & Hpp & Hp & ->).
  eexists. exists c, cn, pp, p. wsimpl. rewrite Hm.
  split; [apply lookup_insert_eq|]. repeat split; try assumption.
  - intros Hne. rewrite lookup_insert_ne by congruence.
    destruct (decide (max_psize = psize)) as [->|Hne'].
    + apply lookup_insert_eq.
    + rewrite lookup_insert_ne by assumption. apply lookup_insert_eq.
  - intros Hne. rewrite lookup_insert_ne by congruence. apply lookup_insert_eq.
  - intros a H1 H2 H3. rewrite !lookup_insert_ne by congruence. reflexivity.
Qed.

End open_result.

Lemma open_handle_tells_result_witness :
  exists v',
    w_vdevs (exec (vdev_geom_open (K := freebsd) 1 100 101 102) world_ada0_busy)
      !! 1%nat = Some v' /\
    (1 = 0 -> exists c, vdev_tsd v' = Some c /\
       is_Some (w_consumers
         (exec (vdev_geom_open (K := freebsd) 1 100 101 102) world_ada0_busy) !! c)) /\
    (1 <> 0 -> vdev_tsd v' = None /\ vs_aux v' = VDEV_AUX_OPEN_FAILED /\
       w_mem (exec (vdev_geom_open (K := freebsd) 1 100 101 102) world_ada0_busy) =
       w_mem world_ada0_busy).
Proof.
  apply (open_handle_tells_result (K := freebsd) world_ada0_busy 1
           (closed_vdev "/dev/ada0" 99) "/dev/ada0" 100 101 102 1);
    vm_compute; reflexivity.
Defined.

Lemma open_reports_media_size_witness :
  exists v' c cn pp p,
    w_vdevs world_ada0_open !! 1%nat = Some v' /\ vdev_tsd v' = Some c /\
    w_consumers world_ada0_open !! c = Some cn /\ cp_provider cn = Some pp /\
    w_providers world_ada0_open !! pp = Some p /\
    (100%nat <> 102%nat -> w_mem world_ada0_open !! 100%nat = Some (pp_mediasize p)) /\
    (101%nat <> 102%nat -> w_mem world_ada0_open !! 101%nat = Some (pp_mediasize p)) /\
    (forall a, a <> 100%nat -> a <> 101%nat -> a <> 102%nat ->
       w_mem world_ada0_open !! a = w_mem world_ada0 !! a).
Proof.
  apply (open_reports_media_size (K := freebsd) world_ada0 1
           (closed_vdev "/dev/ada0" 99) "/dev/ada0" 100 101 102);
    vm_compute; reflexivity.
Defined.

(** ** The consumer behind the handle *)

Lemma link_kept_refl w : link_kept w w.
Proof. intros c cn H. eauto. Qed.

Lemma link_kept_trans w1 w2 w3 : link_kept w1 w2 -> link_kept w2 w3 -> link_kept w1 w3.
Proof.
  intros H1 H2 c cn H. destruct (H1 c cn H) as (cn' & H' & E1 & E2 & E3).
  destruct (H2 c cn' H') as (cn'' & H'' & F1 & F2 & F3).
  exists cn''. repeat split; [assumption | congruence..].
Qed.

Lemma link_kept_same w w' : w_consumers w' = w_consumers w -> link_kept w w'.
Proof. intros Hc c cn H. rewrite Hc. eauto. Qed.

Lemma owned_by_kept w w' c vd : link_kept w w' -> owned_by w c vd -> owned_by w' c vd.
Proof.
  intros Hk (cn & Hcn & Hp). destruct (Hk c cn Hcn) as (cn' & Hcn' & _ & E & _).
  exists cn'. split; [assumption | congruence].
Qed.

Lemma npres_consumer_set cp f :
  (forall c, cp_provider (f c) = cp_provider c /\ cp_private (f c) = cp_private c /\
             cp_acw (f c) = cp_acw c) ->
  preserves link_kept (consumer_set cp f).
Proof.
  intros Hf w u w' (c & w1 & [Hc ->]%consumer_get_inv & [= _ <-])%bind_Some.
  intros c' cn' Hc'. wsimpl.
  destruct (decide (cp = c')) as [<-|Hne].
  - rewrite lookup_insert_eq. eexists. split; [reflexivity|].
    rewrite Hc in Hc'. injection Hc' as <-. apply Hf.
  - rewrite lookup_insert_ne by assumption. eauto.
Qed.

Lemma npres_same {A} (m : M A) :
  (forall w a w', m w = Some (a, w') -> w_consumers w' = w_consumers w) ->
  preserves link_kept m.
Proof. intros H w a w' Hrun. apply link_kept_same. eapply H. exact Hrun. Qed.

Lemma npres_emit e : preserves link_kept (emit e).
Proof. apply npres_same. intros w a w' ->%emit_inv. reflexivity. Qed.

Lemma npres_oracle_next : preserves link_kept oracle_next.
Proof. apply npres_same. intros w a w' [= _ <-]. reflexivity. Qed.

Lemma npres_vdev_get x : preserves link_kept (vdev_get x).
Proof. apply npres_same. intros w a w' [_ ->]%vdev_get_inv. reflexivity. Qed.

Lemma npres_consumer_get x : preserves link_kept (consumer_get x).
Proof. apply npres_same. intros w a w' [_ ->]%consumer_get_inv. reflexivity. Qed.

Lemma npres_provider_get x : preserves link_kept (provider_get x).
Proof. apply npres_same. intros w a w' [_ ->]%provider_get_inv. reflexivity. Qed.

Lemma npres_vdev_set x f : preserves link_kept (vdev_set x f).
Proof. apply npres_same. intros w a w' (v & _ & ->)%vdev_set_inv. reflexivity. Qed.

Create HintDb link discriminated.

#[global] Hint Resolve npres_emit npres_oracle_next npres_vdev_get
  npres_consumer_get npres_provider_get npres_vdev_set : link.
#[global] Hint Extern 1 (preserves _ (ZFS_LOG _)) => apply npres_emit : link.
#[global] Hint Extern 1 (preserves _ (tsleep _)) => apply npres_emit : link.
#[global] Hint Extern 1 (preserves _ (spa_async_request _ _)) =>
  apply npres_emit : link.
#[global] Hint Extern 1 (preserves _ (g_io_request _ _)) =>
  apply npres_emit : link.
#[global] Hint Extern 1 (preserves _ biowait) => apply npres_oracle_next : link.

Ltac npres :=
  repeat first
    [ progress intros
    | solve [auto with link]
    | apply (pres_ret _ link_kept_refl)
    | apply pres_stuck
    | apply (pres_gets _ link_kept_refl)
    | apply (pres_deref _ link_kept_refl)
    | match goal with
      | |- preserves _ (bind _ _) => apply (pres_bind _ link_kept_trans)
      | |- preserves _ (if ?b then _ else _) => destruct b
      | |- preserves _ (match ?x with _ => _ end) => destruct x
      end ].

Section owner.
Context {K : SysConsts}.

(** Read and exclusive claims come and go; the write claims stay. *)
Lemma npres_g_access_rx cp dcr dce : preserves link_kept (g_access cp dcr 0 dce).
Proof.
  unfold g_access. npres. apply npres_consumer_set. intros c. cbn.
  repeat split. lia.
Qed.

Hint Resolve npres_g_access_rx : link.

Lemma npres_g_io_getattr cp : preserves link_kept (g_io_getattr cp).
Proof. unfold g_io_getattr. npres. Qed.

Hint Resolve npres_g_io_getattr : link.

Lemma npres_attrchanged cp attr : preserves link_kept (vdev_geom_attrchanged cp attr).
Proof. unfold vdev_geom_attrchanged. npres. Qed.

Lemma npres_io_loop fuel cp cmd off offset p size maxio :
  preserves link_kept (vdev_geom_io_loop fuel cp cmd off offset p size maxio).
Proof.
  revert off p size. induction fuel as [|fuel IH]; intros off p size;
    cbn [vdev_geom_io_loop]; npres.
Qed.

Hint Resolve npres_io_loop : link.

Lemma npres_io cp cmd offset size :
  preserves link_kept (vdev_geom_io cp cmd offset size).
Proof. unfold vdev_geom_io. npres. Qed.

Hint Resolve npres_io : link.

Lemma npres_read_labels n l labels cp psize ss size pguid vguid :
  preserves link_kept (read_labels n l labels cp psize ss size pguid vguid).
Proof.
  revert l labels pguid vguid. induction n as [|n IH]; intros l labels pguid vguid;
    cbn [read_labels]; npres.
Qed.

Hint Resolve npres_read_labels : link.

Lemma npres_read_guids cp : preserves link_kept (vdev_geom_read_guids cp).
Proof. unfold vdev_geom_read_guids. npres. Qed.

(** [vdev_geom_attach] hands out a consumer that refers back to the vdev. *)
Lemma attach_owned pp vd w c w' :
  vdev_geom_attach pp vd w = Some (Some c, w') -> owned_by w' c vd.
Proof.
  unfold vdev_geom_attach. intros H.
  apply bind_Some in H as (u & wa & _ & H).
  apply bind_Some in H as (l & wb & _ & H).
  apply bind_Some in H as (found & wc & _ & H).
  apply bind_Some in H as (ocp & wd & _ & H).
  destruct ocp as [cp|]; [|apply ret_inv in H as [[=] _]].
  apply bind_Some in H as (u1 & we & Hset & H).
  apply bind_Some in H as (u2 & wf & Hattr & [[= <-] ->]%ret_inv).
  eapply owned_by_kept; [eapply npres_attrchanged; exact Hattr|].
  apply bind_Some in Hset as (cn & wg & [Hcn ->]%consumer_get_inv & [= _ <-]).
  eexists. wsimpl. split; [apply lookup_insert_eq | reflexivity].
Qed.

Lemma taste_providers_owned l : forall pp zcp vd w c w',
  taste_providers l pp zcp vd w = Some (Some c, w') -> owned_by w' c vd.
Proof.
  induction l as [|p l IH]; intros pp zcp vd w c w' H; cbn [taste_providers] in H.
  - apply ret_inv in H as [[=] _].
  - destruct (pp_class_zfs p); [eapply IH; exact H|].
    destruct (pp_geom_wither p); [eapply IH; exact H|].
    destruct (pp_wither p); [eapply IH; exact H|].
    apply bind_Some in H as (e0 & wa & _ & H).
    apply bind_Some in H as (e & wb & _ & H).
    destruct (negb (e =? 0)).
    { apply bind_Some in H as (u & wc & _ & H). eapply IH; exact H. }
    apply bind_Some in H as (g & wc & _ & H).
    apply bind_Some in H as (e1 & wd & _ & H).
    apply bind_Some in H as (u & we & _ & H).
    apply bind_Some in H as (v & wf & _ & H).
    destruct (guids_differ g v); [eapply IH; exact H|].
    apply bind_Some in H as (ocp & wg & Hatt & H).
    destruct ocp as [c0|].
    + apply ret_inv in H as [[= <-] ->]. eapply attach_owned. exact Hatt.
    + apply bind_Some in H as (u1 & wh & _ & H). eapply IH; exact H.
Qed.

Lemma open_by_path_owned vd check_guid w c w' :
  vdev_geom_open_by_path vd check_guid w = Some (Some c, w') -> owned_by w' c vd.
Proof.
  unfold vdev_geom_open_by_path. intros H.
  apply bind_Some in H as (v & wa & _ & H).
  apply bind_Some in H as (path & wb & _ & H).
  apply bind_Some in H as (found & wc & _ & H).
  destruct found as [pp|]; [|apply ret_inv in H as [[=] _]].
  apply bind_Some in H as (p & wd & _ & H).
  apply bind_Some in H as (u & we & _ & H).
  apply bind_Some in H as (ocp & wf & Hatt & H).
  destruct ocp as [c0|]; [|apply ret_inv in H as [[=] _]].
  apply attach_owned in Hatt.
  destruct (_ && _).
  - apply bind_Some in H as (g & wg & Hread & H).
    apply bind_Some in H as (v2 & wh & [_ ->]%vdev_get_inv & H).
    destruct (guids_differ g v2).
    + apply bind_Some in H as (u1 & wi & _ & H).
      apply returns_None in H. discriminate.
    + apply bind_Some in H as (u1 & wi & ->%emit_inv & [[= <-] ->]%ret_inv).
      eapply owned_by_kept; [|exact Hatt].
      eapply link_kept_trans; [eapply npres_read_guids; exact Hread|].
      apply link_kept_same. reflexivity.
  - apply ret_inv in H as [[= <-] ->]. exact Hatt.
Qed.

Lemma open_by_guids_owned vd w c w' :
  vdev_geom_open_by_guids vd w = Some (Some c, w') -> owned_by w' c vd.
Proof.
  unfold vdev_geom_open_by_guids. intros H.
  apply bind_Some in H as (u & wa & _ & H).
  apply bind_Some in H as (ocp & wb & Hscan & H).
  destruct ocp as [c0|]; [|apply returns_None in H; discriminate].
  apply bind_Some in H as (cn & wc & [Hcn ->]%consumer_get_inv & H).
  apply bind_Some in H as (pp & wd & [_ ->]%deref_inv & H).
  apply bind_Some in H as (p & we & [_ ->]%provider_get_inv & H).
  apply bind_Some in H as (u1 & wf & (v & _ & ->)%vdev_set_inv & H).
  apply bind_Some in H as (u2 & wg & ->%emit_inv & [[= <-] ->]%ret_inv).
  exists cn. wsimpl. split; [exact Hcn|].
  unfold vdev_geom_attach_by_guids in Hscan.
  apply bind_Some in Hscan as (zgp & w1 & _ & Hscan).
  apply bind_Some in Hscan as (u3 & w2 & _ & Hscan).
  apply bind_Some in Hscan as (zcp & w3 & _ & Hscan).
  apply bind_Some in Hscan as (l & w4 & _ & Hscan).
  apply bind_Some in Hscan as (ocp & w5 & Htaste & Hscan).
  apply bind_Some in Hscan as (u4 & w6 & Hdc & Hscan).
  apply bind_Some in Hscan as (u5 & w7 & Hdg & [<- ->]%ret_inv).
  destruct (taste_providers_owned _ _ _ _ _ _ _ Htaste) as (cn5 & Hcn5 & Hown).
  assert (w_consumers w7 = w_consumers w6) as E7.
  { unfold g_destroy_geom in Hdg.
    apply bind_Some in Hdg as (g & w8 & [_ ->]%geom_get_inv & Hdg).
    destruct (gp_consumer g); [|discriminate].
    apply bind_Some in Hdg as (u6 & w9 & [= _ <-] & [= _ <-]). reflexivity. }
  assert (w_consumers w6 = delete zcp (w_consumers w5)) as E6.
  { unfold g_destroy_consumer in Hdc.
    apply bind_Some in Hdc as (cz & w8 & [_ ->]%consumer_get_inv & Hdc).
    apply bind_Some in Hdc as (g & w9 & [_ ->]%geom_get_inv & Hdc).
    apply bind_Some in Hdc as (u6 & w10 & Hgs & [= _ <-]).
    apply bind_Some in Hgs as (g' & w11 & [_ ->]%geom_get_inv & [= _ <-]).
    reflexivity. }
  rewrite E7, E6 in Hcn. apply lookup_delete_Some in Hcn as [_ Hcn].
  rewrite Hcn5 in Hcn. injection Hcn as <-. exact Hown.
Qed.

(** The consumer the resolution returns refers back to the vdev. *)
Lemma open_resolve_owned vd w c w' :
  vdev_geom_open_resolve vd w = Some (Some c, w') -> owned_by w' c vd.
Proof.
  unfold vdev_geom_open_resolve. intros H.
  apply bind_Some in H as (cp & wa & Hpath & H).
  apply bind_Some in H as (cp2 & wb & Hguids & H).
  destruct cp as [c1|].
  - apply ret_inv in Hguids as [-> ->]. apply ret_inv in H as [[= <-] ->].
    eapply open_by_path_owned. exact Hpath.
  - destruct cp2 as [c2|].
    + apply ret_inv in H as [[= <-] ->].
      eapply open_by_guids_owned. exact Hguids.
    + apply bind_Some in H as (v & wc & [_ ->]%vdev_get_inv & H).
      destruct (_ || _).
      * eapply open_by_path_owned. exact H.
      * apply ret_inv in H as [[=] _].
Qed.

(** The retry loop ends with no error only by taking the write claim. *)
Lemma write_claim_retry_taken n vd c : forall e w w',
  write_claim_retry n vd c e w = Some (0, w') ->
  (n = 0%nat /\ e = 0 /\ w' = w) \/
  exists cn, w_consumers w !! c = Some cn /\
             w_consumers w' = <[c := add_cp_access 0 1 0 cn]> (w_consumers w).
Proof.
  induction n as [|n IH]; intros e w w' H; cbn [write_claim_retry] in H.
  - apply ret_inv in H as [-> ->]. left. auto.
  - right. unfold g_access in H.
    apply bind_Some in H as (e1 & wa & Hacc & H).
    apply bind_Some in Hacc as (cn & wb & [Hcn ->]%consumer_get_inv & Hacc).
    apply bind_Some in Hacc as (e2 & wc & [= <- <-] & Hacc).
    destruct (w_oracle w (w_tick w) =? 0) eqn:E.
    + apply bind_Some in Hacc as (u & wd & Hset & [-> ->]%ret_inv).
      apply bind_Some in Hset as (cn' & we & [Hcn' ->]%consumer_get_inv & [= _ <-]).
      wsimpl. rewrite Hcn in Hcn'. injection Hcn' as <-.
      cbn [Z.eqb] in H. apply ret_inv in H as [_ ->]. wsimpl. eauto.
    + apply ret_inv in Hacc as [-> ->]. rewrite E in H.
      apply bind_Some in H as (u & wd & ->%emit_inv & H).
      destruct (IH _ _ _ H) as [(_ & E0 & _)|(cn' & Hcn' & Hw')].
      * rewrite E0 in E. discriminate.
      * wsimpl. exists cn'. auto.
Qed.

(** X12: after a successful [vdev_geom_open] the handle of the vdev is a
    consumer that refers back to the vdev, and when the pool is open for
    writing the consumer holds a write claim. *)
Theorem open_links_and_claims (w : world) (vd : nat) (v : vdev_t) (path : string)
    (psize max_psize ashift : nat) (w' : world) :
  w_vdevs w !! vd = Some v ->
  vdev_path v = Some path -> starts_with_slash path = true ->
  vdev_geom_open vd psize max_psize ashift w = Some (0, w') ->
  exists v' c cn,
    w_vdevs w' !! vd = Some v' /\ vdev_tsd v' = Some c /\
    w_consumers w' !! c = Some cn /\ cp_private cn = Some vd /\
    (Z.land (spa_mode (vdev_spa v)) FWRITE <> 0 -> cp_acw cn <> 0).
Proof.
  intros Hv Hpath Hslash Hrun.
  destruct (open_inv _ _ _ _ _ _ _ _ _ Hv Hpath Hslash Hrun)
    as (cp & w1 & [e1 ocp] & w2 & v2 & Hres & Hclaim & Hv2 & Hend).
  cbn [fst snd] in Hend. destruct ocp as [c|].
  2:{ destruct Hend as (<- & _). destruct (open_claim_dropped _ _ _ _ _ Hclaim eq_refl). }
  destruct Hend as (_ & cn & pp & p & Hcn & Hpp & Hp & ->).
  destruct (open_claim_kept _ _ _ _ _ _ Hclaim) as (-> & _).
  destruct (open_resolve_owned _ _ _ _ Hres) as (cn1 & Hcn1 & Hown).
  destruct (fpres_open_resolve _ _ _ _ Hres) as (_ & _ & _ & Hvd & _).
  destruct (Hvd vd (set_vdev_tsd None v)) as (v1 & Hv1 & _ & _ & Hspa & _).
  { unfold open_entry. wsimpl. apply lookup_insert_eq. }
  wsimpl.
  eexists. exists c, cn. split; [apply lookup_insert_eq|]. wsimpl.
  split; [reflexivity|]. split; [exact Hcn|].
  unfold vdev_geom_open_claim in Hclaim.
  apply bind_Some in Hclaim as (cn1' & wa & [Hcn1' ->]%consumer_get_inv & H).
  rewrite Hcn1 in Hcn1'. injection Hcn1' as <-.
  apply bind_Some in H as (pp1 & wb & [_ ->]%deref_inv & H).
  apply bind_Some in H as (p1 & wc & [_ ->]%provider_get_inv & H).
  destruct (_ || _).
  { apply bind_Some in H as (u & wd & _ & H).
    apply bind_Some in H as (u1 & we & _ & [[=] _]%ret_inv). }
  apply bind_Some in H as (v1' & wd & [Hv1' ->]%vdev_get_inv & H).
  rewrite Hv1 in Hv1'. injection Hv1' as <-.
  destruct (cp_acw cn1 =? 0) eqn:Eacw;
    destruct (negb (Z.land (spa_mode (vdev_spa v1)) FWRITE =? 0)) eqn:Emode;
    cbn [andb] in H.
  - apply bind_Some in H as (err & we & Hretry & H).
    destruct (negb (err =? 0)) eqn:Eerr.
    { apply bind_Some in H as (u & wf & _ & H).
      apply bind_Some in H as (u1 & wg & _ & [[=] _]%ret_inv). }
    apply ret_inv in H as [_ ->].
    apply negb_false_iff, Z.eqb_eq in Eerr. subst err.
    destruct (write_claim_retry_taken _ _ _ _ _ _ Hretry) as [([=] & _)|(cn0 & Hcn0 & Hw2)].
    rewrite Hcn1 in Hcn0. injection Hcn0 as <-.
    rewrite Hw2, lookup_insert_eq in Hcn. injection Hcn as <-.
    cbn. split; [exact Hown|]. intros _. apply Z.eqb_eq in Eacw. lia.
  - apply ret_inv in H as [_ ->]. rewrite Hcn1 in Hcn. injection Hcn as <-.
    split; [exact Hown|]. intros Hw. exfalso.
    apply negb_false_iff, Z.eqb_eq in Emode. apply Hw. congruence.
  - apply ret_inv in H as [_ ->]. rewrite Hcn1 in Hcn. injection Hcn as <-.
    split; [exact Hown|]. intros _. apply Z.eqb_neq in Eacw. exact Eacw.
  - apply ret_inv in H as [_ ->]. rewrite Hcn1 in Hcn. injection Hcn as <-.
    split; [exact Hown|]. intros _. apply Z.eqb_neq in Eacw. exact Eacw.
Qed.

End owner.

Lemma open_links_and_claims_witness :
  exists v' c cn,
    w_vdevs world_ada0_open !! 1%nat = Some v' /\ vdev_tsd v' = Some c /\
    w_consumers world_ada0_open !! c = Some cn /\ cp_private cn = Some 1%nat /\
    (Z.land (spa_mode (vdev_spa (closed_vdev "/dev/ada0" 99))) 2 <> 0 -> cp_acw cn <> 0).
Proof.
  apply (open_links_and_claims (K := freebsd) world_ada0 1
           (closed_vdev "/dev/ada0" 99) "/dev/ada0" 100 101 102);
    vm_compute; reflexivity.
Defined.

(** ** The path after an identity scan *)

Section scan_path.
Context {K : SysConsts}.

(** Looking a provider up by the name of one that is there finds the first
    provider of that name. *)
Lemma provider_index_finds l : forall i0 pp p,
  l !! pp = Some p ->
  exists i p', provider_index (pp_name p) l i0 = Some (i0 + i)%nat /\
               l !! i = Some p' /\ pp_name p' = pp_name p /\ (i <= pp)%nat.
Proof.
  induction l as [|q l IH]; intros i0 pp p Hp; [discriminate|].
  cbn [provider_index].
  destruct (String.eqb (pp_name q) (pp_name p)) eqn:E.
  - apply String.eqb_eq in E. exists 0%nat, q. rewrite Nat.add_0_r.
    repeat split; auto. lia.
  - destruct pp as [|pp].
    + injection Hp as ->. rewrite String.eqb_refl in E. discriminate.
    + destruct (IH (S i0) pp p Hp) as (i & p' & Hi & Hl & Hn & Hle).
      exists (S i), p'. replace (i0 + S i)%nat with (S i0 + i)%nat by lia.
      repeat split; auto. lia.
Qed.

(** X13: when the identity scan finds the vdev on a provider, the path of
    the vdev is rewritten to [/dev/] followed by the name of that provider:
    an absolute path, under which the lookup by name finds a provider of
    that name again. *)
Theorem open_by_guids_rewrites_path (w : world) (vd c : nat) (w' : world) :
  vdev_geom_open_by_guids vd w = Some (Some c, w') ->
  exists cn pp p v' path,
    w_consumers w' !! c = Some cn /\ cp_provider cn = Some pp /\
    w_providers w' !! pp = Some p /\
    w_vdevs w' !! vd = Some v' /\ vdev_path v' = Some path /\
    path = ("/dev/" +:+ pp_name p)%string /\
    starts_with_slash path = true /\
    exists i p',
      provider_index (string_drop 5 path) (w_providers w') 0 = Some i /\
      w_providers w' !! i = Some p' /\ pp_name p' = pp_name p /\ (i <= pp)%nat.
Proof.
  unfold vdev_geom_open_by_guids. intros H.
  apply bind_Some in H as (u & wa & _ & H).
  apply bind_Some in H as (ocp & wb & _ & H).
  destruct ocp as [c0|]; [|apply returns_None in H; discriminate].
  apply bind_Some in H as (cn & wc & [Hcn ->]%consumer_get_inv & H).
  apply bind_Some in H as (pp & wd & [Hpp ->]%deref_inv & H).
  apply bind_Some in H as (p & we & [Hp ->]%provider_get_inv & H).
  apply bind_Some in H as (u1 & wf & (v & Hv & ->)%vdev_set_inv & H).
  apply bind_Some in H as (u2 & wg & ->%emit_inv & [[= <-] ->]%ret_inv).
  exists cn, pp, p. eexists. exists ("/dev/" +:+ pp_name p)%string. wsimpl.
  split; [exact Hcn|]. split; [exact Hpp|]. split; [exact Hp|].
  split; [apply lookup_insert_eq|]. split; [reflexivity|]. split; [reflexivity|].
  split; [reflexivity|].
  destruct (provider_index_finds (w_providers wb) 0 pp p Hp) as (i & p' & Hi & Hl & Hn & Hle).
  exists i, p'. auto.
Qed.

End scan_path.

Lemma open_by_guids_rewrites_path_witness :
  exists cn pp p v' path,
    w_consumers (exec (vdev_geom_open_by_guids (K := freebsd) 1) world_moved_disk)
      !! 13%nat = Some cn /\ cp_provider cn = Some pp /\
    w_providers (exec (vdev_geom_open_by_guids (K := freebsd) 1) world_moved_disk)
      !! pp = Some p /\
    w_vdevs (exec (vdev_geom_open_by_guids (K := freebsd) 1) world_moved_disk)
      !! 1%nat = Some v' /\ vdev_path v' = Some path /\
    path = ("/dev/" +:+ pp_name p)%string /\
    starts_with_slash path = true /\
    exists i p',
      provider_index (string_drop 5 path)
        (w_providers (exec (vdev_geom_open_by_guids (K := freebsd) 1) world_moved_disk))
        0 = Some i /\
      w_providers (exec (vdev_geom_open_by_guids (K := freebsd) 1) world_moved_disk)
        !! i = Some p' /\ pp_name p' = pp_name p /\ (i <= pp)%nat.
Proof.
  apply (open_by_guids_rewrites_path (K := freebsd) world_moved_disk 1 13).
  vm_compute. reflexivity.
Defined.

(** ** The stores stay well formed *)

Section invariant.
Context {K : SysConsts}.

(** X14: every entry point and callback of the file keeps the stores of
    the device layer well formed: whatever sequence of them runs, no
    consumer is left on a geom that was destroyed or off the list of its
    geom, and no back-reference names a vdev that is not there. *)
Theorem stores_stay_well_formed (l : list vdev_op) (w : world) (w' : world) :
  wf w -> run_ops l w = Some (tt, w') -> wf w'.
Proof. intros Hwf Hrun. exact (wf_run_ops l w tt w' Hrun Hwf). Qed.

End invariant.

Lemma world_spare_open_wf : wf world_spare_open.
Proof.
  apply (wf_run_ops (K := freebsd) [OpOpen 1 100 101 102; OpOpen 2 200 201 202]
           world_spare tt).
  - vm_compute. reflexivity.
  - apply wf_boot.
Qed.

Lemma world_ada0_open_wf : wf world_ada0_open.
Proof.
  apply (wf_run_ops (K := freebsd) [OpOpen 1 100 101 102] world_ada0 tt).
  - vm_compute. reflexivity.
  - apply wf_boot.
Qed.

Lemma stores_stay_well_formed_witness :
  wf (exec (run_ops (K := freebsd)
              (OpOpen 1 100 101 102 :: OpIoStart flush_zio :: OpIoIntr flush_notsup ::
               busy_day)) world_ada0).
Proof.
  apply (stores_stay_well_formed (K := freebsd)
           (OpOpen 1 100 101 102 :: OpIoStart flush_zio :: OpIoIntr flush_notsup ::
            busy_day) world_ada0).
  - apply wf_boot.
  - vm_compute. reflexivity.
Defined.

(** ** Giving a consumer back *)

Section release.
Context {K : SysConsts}.

(** X15: [vdev_geom_detach] counts the users of a consumer: when the
    device layer accepts the releases, the consumer whose last read and
    exclusive claims are dropped is destroyed, and a consumer that has
    other users stays, with one read and one exclusive claim less and no
    back-reference. *)
Theorem detach_counts_users (w : world) (cp : nat) (cn : g_consumer) :
  wf w ->
  w_consumers w !! cp = Some cn ->
  w_oracle w (w_tick w) = 0 ->
  (0 < cp_acw cn -> w_oracle w (S (w_tick w)) = 0) ->
  exists w',
    vdev_geom_detach cp w = Some (tt, w') /\
    w_consumers w' =
      if (cp_acr cn - 1 =? 0) && (cp_ace cn - 1 =? 0)
      then delete cp (w_consumers w)
      else <[cp := add_cp_access (-1) 0 (-1) (set_cp_private None cn)]> (w_consumers w).
Proof.
  intros Hwf Hcn H0 H1.
  destruct (wf_consumer_ok w cp Hwf (mk_is_Some _ _ Hcn)) as (cn0 & g & Hcn0 & Hg & Hpriv).
  rewrite Hcn in Hcn0. injection Hcn0 as <-.
  assert (wp (vdev_geom_detach cp) (fun _ w' =>
            w_consumers w' =
              if (cp_acr cn - 1 =? 0) && (cp_ace cn - 1 =? 0)
              then delete cp (w_consumers w)
              else <[cp := add_cp_access (-1) 0 (-1) (set_cp_private None cn)]>
                     (w_consumers w)) w) as H.
  { unfold vdev_geom_detach, g_access, g_detach, g_destroy_consumer, g_wither_geom.
    wp_go.
    eapply wp_mono with (Q := fun _ w0 =>
      w_consumers w0 = <[cp := set_cp_private None cn]> (w_consumers w) /\
      w_geoms w0 = w_geoms w /\ w_oracle w0 = w_oracle w /\ w_tick w0 = w_tick w).
    - destruct (cp_private cn) as [vd|] eqn:Epriv.
      + destruct (Hpriv vd eq_refl) as [v Hv]. wp_go. wsimpl. auto.
      + wp_go. wsimpl. repeat split; try reflexivity.
        rewrite insert_id; [reflexivity|]. rewrite Hcn. f_equal.
        destruct cn; cbn in *. subst. reflexivity.
    - cbv beta. intros _ w0 (Hc0 & Hg0 & Ho0 & Ht0).
      assert (w_consumers w0 !! cp = Some (set_cp_private None cn)) as Hcp
        by (rewrite Hc0; apply lookup_insert_eq).
      assert (w_geoms w0 !! cp_geom cn = Some g) as Hgw by (rewrite Hg0; exact Hg).
      wp_go. wsimpl. rewrite Ho0, Ht0, H0. cbn [Z.eqb]. wp_go. wsimpl.
      replace (cp_acr cn + -1) with (cp_acr cn - 1) by lia.
      replace (cp_ace cn + -1) with (cp_ace cn - 1) by lia.
      destruct ((cp_acr cn - 1 =? 0) && (cp_ace cn - 1 =? 0)) eqn:Elast.
      + wp_go. wsimpl. rewrite Z.add_0_r.
        destruct (0 <? cp_acw cn) eqn:Eacw.
        * apply Z.ltb_lt in Eacw.
          wp_go. wsimpl. rewrite Ho0, Ht0, (H1 Eacw). cbn [Z.eqb]. wp_go. wsimpl.
          destruct (filter _ _); wp_go; wsimpl; rewrite Hc0;
            rewrite !delete_insert_eq; reflexivity.
        * wp_go. wsimpl.
          destruct (filter _ _); wp_go; wsimpl; rewrite Hc0;
            rewrite !delete_insert_eq; reflexivity.
      + wp_go. destruct (gp_consumer g); wp_go; wsimpl; rewrite Hc0;
          rewrite insert_insert_eq; reflexivity. }
  destruct (wp_run _ _ _ H) as ([] & w' & Hrun & Hpost). exists w'. auto.
Qed.

(** X16: in a well-formed state, closing a vdev whose handle is a consumer
    that refers back to it nulls the handle, and closing it once more
    changes nothing. *)
Theorem close_twice_is_close_once (w : world) (vd : nat) (v : vdev_t) (cp : nat)
    (cn : g_consumer) :
  wf w ->
  w_vdevs w !! vd = Some v -> vdev_tsd v = Some cp ->
  w_consumers w !! cp = Some cn -> cp_private cn = Some vd ->
  exists w' v',
    vdev_geom_close vd w = Some (tt, w') /\
    w_vdevs w' !! vd = Some v' /\ vdev_tsd v' = None /\
    vdev_geom_close vd w' = Some (tt, w').
Proof.
  intros Hwf Hv Htsd Hcn Hpriv.
  apply (close_twice_sole_owner w vd v cp cn Hv Htsd Hcn Hpriv).
  apply wf_consumer_ok; [exact Hwf | eauto].
Qed.

End release.

Lemma detach_counts_users_witness :
  exists w',
    vdev_geom_detach 15 world_spare_open = Some (tt, w') /\
    w_consumers w' =
      <[15%nat := {| cp_geom := 14; cp_provider := Some 0%nat; cp_acr := 1;
                     cp_acw := 1; cp_ace := 1; cp_private := None |}]>
        (w_consumers world_spare_open).
Proof.
  pose proof (fun cn => detach_counts_users world_spare_open 15 cn world_spare_open_wf)
    as H.
  edestruct H as (w' & Hrun & Hc).
  - vm_compute. reflexivity.
  - reflexivity.
  - intros _. reflexivity.
  - exists w'. split; [exact Hrun | exact Hc].
Defined.

Lemma close_twice_is_close_once_witness :
  exists w' v',
    vdev_geom_close 1 world_ada0_open = Some (tt, w') /\
    w_vdevs w' !! 1%nat = Some v' /\ vdev_tsd v' = None /\
    vdev_geom_close 1 w' = Some (tt, w').
Proof.
  pose proof (fun v cn => close_twice_is_close_once world_ada0_open 1 v 11 cn
                world_ada0_open_wf) as H.
  eapply H; vm_compute; reflexivity.
Defined.

(** ** Attaching to a provider that is attached already *)

Section reuse.
Context {K : SysConsts}.

(** The first loop of [vdev_geom_attach] stops at the first geom that is
    not withering and is named [zfs::vdev]. *)
Lemma find_zfs_vdev_geom_finds w gp g rest : forall pre,
  Forall (passed_over w) pre ->
  w_geoms w !! gp = Some g -> gp_wither g = false -> gp_name g = "zfs::vdev"%string ->
  find_zfs_vdev_geom (pre ++ gp :: rest) w = Some (Some gp, w).
Proof.
  intros pre Hpre Hg Hwi Hname.
  induction Hpre as [|x pre (gx & Hgx & Hskip) _ IH]; cbn [app find_zfs_vdev_geom].
  - unfold geom_get, bind, gets, deref. rewrite Hg. cbn. rewrite Hwi, Hname.
    reflexivity.
  - unfold geom_get, bind, gets, deref. rewrite Hgx. cbn.
    destruct (gp_wither gx) eqn:Ew; [exact IH|].
    destruct Hskip as [[=]|Hn].
    destruct (String.eqb (gp_name gx) "zfs::vdev") eqn:En; [|exact IH].
    apply String.eqb_eq in En. contradiction.
Qed.

(** The consumer loop stops at the first consumer attached to the
    provider. *)
Lemma find_consumer_finds w pp c cn crest : forall cpre,
  Forall (attached_elsewhere w pp) cpre ->
  w_consumers w !! c = Some cn -> cp_provider cn = Some pp ->
  find_consumer (cpre ++ c :: crest) pp w =
    Some (Some c, set_w_log (fun l => l ++ [EvZfsLog "Found consumer for %s."]) w).
Proof.
  intros cpre Hpre Hcn Hpp.
  induction Hpre as [|x cpre (cx & Hcx & Hne) _ IH]; cbn [app find_consumer].
  - unfold consumer_get, bind, gets, deref. rewrite Hcn. cbn.
    rewrite bool_decide_eq_true_2 by exact Hpp. reflexivity.
  - unfold consumer_get, bind, gets, deref. rewrite Hcx. cbn.
    rewrite bool_decide_eq_false_2 by exact Hne. exact IH.
Qed.

(** X17: when the geom [zfs::vdev] already has a consumer on the provider,
    [vdev_geom_attach] creates nothing.  The geom is the first one of the
    class that is not withering and bears that name, wherever it stands on
    the list, and the consumer is the first one of the geom that is
    attached to the provider.  [vdev_geom_attach] takes one more exclusive
    claim on that consumer and no write claim, hands it out, and overwrites
    its back-reference with the vdev it is attaching, whichever vdev the
    consumer referred back to before. *)
Theorem attach_reuses_consumer (w : world) (pp vd : nat) (pre : list nat) (gp : nat)
    (rest : list nat) (g : g_geom) (cpre : list nat) (c : nat) (crest : list nat)
    (cn : g_consumer) (p : g_provider) (v : vdev_t) :
  w_class_geom w = pre ++ gp :: rest -> Forall (passed_over w) pre ->
  w_geoms w !! gp = Some g -> gp_wither g = false -> gp_name g = "zfs::vdev"%string ->
  gp_consumer g = cpre ++ c :: crest -> Forall (attached_elsewhere w pp) cpre ->
  w_consumers w !! c = Some cn -> cp_provider cn = Some pp ->
  w_providers w !! pp = Some p -> w_vdevs w !! vd = Some v ->
  w_oracle w (w_tick w) = 0 ->
  exists w' cn',
    vdev_geom_attach pp vd w = Some (Some c, w') /\
    w_next w' = w_next w /\ w_geoms w' = w_geoms w /\
    w_consumers w' !! c = Some cn' /\
    cp_private cn' = Some vd /\ cp_provider cn' = Some pp /\
    cp_ace cn' = cp_ace cn + 1 /\ cp_acw cn' = cp_acw cn.
Proof.
  intros Hcl Hpre Hg Hwi Hname Hlist Hcpre Hcn Hpp Hp Hv H0.
  pose (wa := set_w_log (fun l => l ++ [EvZfsLog "Attaching to %s."]) w).
  assert (find_zfs_vdev_geom (pre ++ gp :: rest) wa = Some (Some gp, wa)) as Hfg.
  { apply (find_zfs_vdev_geom_finds wa gp g); assumption. }
  assert (find_consumer (cpre ++ c :: crest) pp wa =
            Some (Some c, set_w_log (fun l => l ++ [EvZfsLog "Found consumer for %s."]) wa))
    as Hfc.
  { apply (find_consumer_finds wa pp c cn); assumption. }
  assert (wp (vdev_geom_attach pp vd) (fun r w' =>
            r = Some c /\ w_next w' = w_next w /\ w_geoms w' = w_geoms w /\
            exists cn', w_consumers w' !! c = Some cn' /\
              cp_private cn' = Some vd /\ cp_provider cn' = Some pp /\
              cp_ace cn' = cp_ace cn + 1 /\ cp_acw cn' = cp_acw cn) w) as H.
  { unfold vdev_geom_attach. wp_go. wsimpl. rewrite Hcl. fold wa.
    eapply wp_of_run; [exact Hfg|]. cbv beta. wp_go. rewrite Hlist.
    eapply wp_of_run; [exact Hfc|]. cbv beta. subst wa.
    unfold g_access at 1. wp_go. wsimpl. rewrite H0.
    repeat first [wp_step | progress cbn [Z.eqb negb]].
    unfold vdev_geom_attrchanged, g_access, g_io_getattr.
    cbn [String.eqb Ascii.eqb Bool.eqb negb].
    repeat first [wp_step | progress cbn [Z.eqb negb fst snd] | wp_case]; wsimpl;
      (split; [reflexivity|]); (split; [reflexivity|]); (split; [reflexivity|]);
      eexists; (split; [lk|]); wsimpl; repeat split; try reflexivity;
      try assumption; lia. }
  destruct (wp_run _ _ _ H) as (r & w' & Hrun & -> & Hn & Hgs & cn' & Hpost).
  exists w', cn'. auto.
Qed.

End reuse.

Lemma attach_reuses_consumer_witness :
  exists w' cn',
    vdev_geom_attach 0 2 world_pair_open = Some (Some 11%nat, w') /\
    w_next w' = w_next world_pair_open /\
    w_consumers w' !! 11%nat = Some cn' /\
    cp_private cn' = Some 2%nat /\ cp_provider cn' = Some 0%nat /\ cp_ace cn' = 2.
Proof.
  pose proof (fun g cn v => attach_reuses_consumer
                world_pair_open 0 2 [] 10 [] g [12%nat] 11 [] cn
                (disk "ada0" 512 77 99) v) as H.
  edestruct H as (w' & cn' & Hrun & Hn & _ & Hcn' & Hpriv & Hprov & Hace & _);
    try (vm_compute; reflexivity).
  - constructor.
  - repeat constructor. eexists. split; [vm_compute; reflexivity|]. discriminate.
  - exists w', cn'. repeat split; assumption.
Defined.

(** ** Reading the identity of a provider *)

Section read_guids.
Context {K : SysConsts}.

(** The size of the buffer [vdev_geom_read_guids] reads a label into is the
    size of a label rounded up to whole sectors. *)
Lemma label_read_size ss :
  0 < ss -> 0 < VDEV_LABEL_SIZE ->
  let size := VDEV_LABEL_SIZE + ss - Z.rem (VDEV_LABEL_SIZE - 1) ss - 1 in
  VDEV_LABEL_SIZE <= size /\ Z.rem size ss = 0.
Proof.
  intros Hss HL size. subst size.
  rewrite Z.rem_mod_nonneg by lia.
  pose proof (Z.mod_pos_bound (VDEV_LABEL_SIZE - 1) ss Hss) as Hb.
  split; [lia|].
  rewrite Z.rem_mod_nonneg by lia.
  pose proof (Z.div_mod (VDEV_LABEL_SIZE - 1) ss ltac:(lia)) as Hdm.
  replace (VDEV_LABEL_SIZE + ss - (VDEV_LABEL_SIZE - 1) mod ss - 1)
    with (((VDEV_LABEL_SIZE - 1) / ss + 1) * ss) by lia.
  apply Z.mod_mul. lia.
Qed.

(** A transfer that meets the two assertions of [vdev_geom_io] returns. *)
Lemma io_returns w c cn pp p cmd offset size :
  w_consumers w !! c = Some cn -> cp_provider cn = Some pp ->
  w_providers w !! pp = Some p ->
  0 < pp_sectorsize p <= MAXPHYS ->
  0 <= offset -> 0 < size ->
  Z.rem offset (pp_sectorsize p) = 0 -> Z.rem size (pp_sectorsize p) = 0 ->
  offset + size + MAXPHYS < 2 ^ 63 ->
  exists err w', vdev_geom_io c cmd offset size w = Some (err, w') /\ bound_kept w w'.
Proof.
  intros Hcn Hpp Hp Hss Hoff Hsize Haoff Hasize Hbound.
  destruct (maxio_positive _ Hss) as [HM HMss].
  set (M := MAXPHYS - Z.rem MAXPHYS (pp_sectorsize p)) in *.
  destruct (io_loop_spec c cmd offset size M ltac:(lia) Hsize Hoff ltac:(lia)
              (chunks_needed size M) 0%nat (S (Z.to_nat (size / M))) w ltac:(reflexivity)
              (chunks_needed_fuel size M ltac:(lia) Hsize))
    as (m & err & w' & _ & Hrun & _).
  assert (vdev_geom_io c cmd offset size w = Some (err, w')) as Hio.
  { apply wp_eq. unfold vdev_geom_io. wp_go.
    destruct (pp_sectorsize p =? 0) eqn:E0; [apply Z.eqb_eq in E0; lia|].
    rewrite Haoff, Hasize. cbn [Z.eqb negb].
    rewrite off_t_small by lia. fold M.
    cbn [Z.of_nat Z.mul Z.add] in Hrun. rewrite Z.add_0_r, Z.sub_0_r in Hrun.
    eapply wp_of_run; [exact Hrun|]. auto. }
  exists err, w'. split; [exact Hio|]. exact (bpres_io _ _ _ _ _ _ _ Hio).
Qed.

Lemma read_labels_returns c pp p all psize size : forall n l labels pguid vguid w,
  bound_to w c pp -> w_providers w !! pp = Some p ->
  0 < pp_sectorsize p <= MAXPHYS -> 0 < size ->
  Z.rem size (pp_sectorsize p) = 0 ->
  (forall j, l <= j < l + Z.of_nat n ->
     0 <= vdev_label_offset psize j 0 /\
     vdev_label_offset psize j 0 + size + MAXPHYS < 2 ^ 63) ->
  (forall x, In x labels -> In x all) ->
  guids_from all (pguid, vguid) ->
  exists g w',
    read_labels n l labels c psize (pp_sectorsize p) size pguid vguid w = Some (g, w') /\
    guids_from all g /\ bound_kept w w'.
Proof.
  induction n as [|n IH]; intros l labels pguid vguid w Hb Hp Hss Hsize Hasize Hoffs Hsub Hacc.
  - exists (pguid, vguid), w. split; [reflexivity|]. split; [exact Hacc | apply bound_kept_refl].
  - cbn [read_labels]. cbv zeta.
    assert (forall pg vg w1, bound_kept w w1 -> guids_from all (pg, vg) ->
      exists g w',
        read_labels n (l + 1) (tail labels) c psize (pp_sectorsize p) size pg vg w1 =
          Some (g, w') /\ guids_from all g /\ bound_kept w w') as Hnext.
    { intros pg vg w1 Hk Hacc1.
      destruct (IH (l + 1) (tail labels) pg vg w1) as (g & w' & Hrun & Hg & Hk');
        try assumption.
      - eapply bound_to_kept; eassumption.
      - destruct Hk as [-> _]. exact Hp.
      - intros j Hj. apply Hoffs. lia.
      - intros x Hx. apply Hsub. destruct labels; [destruct Hx | right; exact Hx].
      - exists g, w'. split; [exact Hrun|]. split; [exact Hg|].
        eapply bound_kept_trans; eassumption. }
    destruct (negb (Z.rem (vdev_label_offset psize l 0) (pp_sectorsize p) =? 0)) eqn:Eal.
    { apply Hnext; [apply bound_kept_refl | exact Hacc]. }
    apply negb_false_iff, Z.eqb_eq in Eal.
    destruct Hb as (cn & Hcn & Hpp).
    destruct (Hoffs l ltac:(lia)) as [Ho1 Ho2].
    destruct (io_returns w c cn pp p BIO_READ (vdev_label_offset psize l 0) size
                Hcn Hpp Hp Hss Ho1 Hsize Eal Hasize Ho2) as (err & w1 & Hio & Hk).
    rewrite (bind_run _ _ _ _ _ Hio).
    destruct (negb (err =? 0)); [apply Hnext; assumption|].
    destruct labels as [|[config|] labels']; cbn [head];
      try (apply Hnext; assumption).
    destruct (negb (fst (nvlist_get_guids config) =? 0) &&
              negb (snd (nvlist_get_guids config) =? 0)).
    + exists (nvlist_get_guids config), w1. split; [reflexivity|].
      split; [|exact Hk]. right. exists config. split; [|reflexivity].
      apply Hsub. left. reflexivity.
    + apply Hnext; [exact Hk|]. right. exists config. split.
      * apply Hsub. left. reflexivity.
      * destruct (nvlist_get_guids config). reflexivity.
Qed.

(** X18: on a provider with a sector size between one byte and [MAXPHYS]
    whose label offsets are representable, [vdev_geom_read_guids] always
    returns, whatever the device answers: the buffer size it computes is a
    whole number of sectors and it skips the labels that are not sector
    aligned, so neither assertion of [vdev_geom_io] can fail.  The pair it
    returns is zero or was read from one of the labels, the consumer stays
    attached to the provider and the caller's cells are untouched. *)
Theorem read_guids_returns (w : world) (c : nat) (cn : g_consumer) (pp : nat)
    (p : g_provider) :
  w_consumers w !! c = Some cn -> cp_provider cn = Some pp ->
  w_providers w !! pp = Some p ->
  0 < pp_sectorsize p <= MAXPHYS -> 0 < VDEV_LABEL_SIZE ->
  (forall j, 0 <= j < Z.of_nat VDEV_LABELS ->
     0 <= vdev_label_offset (P2ALIGN (pp_mediasize p) VDEV_LABEL_SIZE) j 0 /\
     vdev_label_offset (P2ALIGN (pp_mediasize p) VDEV_LABEL_SIZE) j 0 +
       (VDEV_LABEL_SIZE + pp_sectorsize p) + MAXPHYS < 2 ^ 63) ->
  exists g w',
    vdev_geom_read_guids c w = Some (g, w') /\
    guids_from (pp_labels p) g /\ bound_to w' c pp /\
    w_mem w' = w_mem w.
Proof.
  intros Hcn Hpp Hp Hss HL Hoffs.
  destruct (label_read_size (pp_sectorsize p) ltac:(lia) HL) as [Hsz Hasz].
  cbv zeta in Hsz, Hasz.
  set (size := VDEV_LABEL_SIZE + pp_sectorsize p -
               Z.rem (VDEV_LABEL_SIZE - 1) (pp_sectorsize p) - 1) in *.
  assert (size <= VDEV_LABEL_SIZE + pp_sectorsize p) as Hle.
  { subst size. rewrite Z.rem_mod_nonneg by lia.
    pose proof (Z.mod_pos_bound (VDEV_LABEL_SIZE - 1) (pp_sectorsize p) ltac:(lia)). lia. }
  set (w0 := set_w_log (fun l => l ++ [EvZfsLog "Reading guids from %s..."]) w).
  destruct (read_labels_returns c pp p (pp_labels p)
              (P2ALIGN (pp_mediasize p) VDEV_LABEL_SIZE) size
              VDEV_LABELS 0 (pp_labels p) 0 0 w0)
    as (g & w1 & Hrun & Hg & Hk); try assumption; try lia.
  - exists cn. auto.
  - intros j Hj. destruct (Hoffs j ltac:(lia)) as [H1 H2]. lia.
  - auto.
  - left. reflexivity.
  - assert (exists w', vdev_geom_read_guids c w = Some (g, w') /\
                       w_consumers w' = w_consumers w1) as (w' & Hrg & Hc').
    { unfold vdev_geom_read_guids.
      assert ((pp_sectorsize p =? 0) = false) as E0 by (apply Z.eqb_neq; lia).
      destruct (negb (fst g =? 0) && negb (snd g =? 0)) eqn:Eg.
      - eexists. split.
        + apply wp_eq. wp_go. rewrite E0. wp_go. fold size w0.
          eapply wp_of_run; [exact Hrun|]. cbv beta. rewrite Eg. wp_go. auto.
        + reflexivity.
      - eexists. split.
        + apply wp_eq. wp_go. rewrite E0. wp_go. fold size w0.
          eapply wp_of_run; [exact Hrun|]. cbv beta. rewrite Eg. wp_go. auto.
        + reflexivity. }
    exists g, w'. split; [exact Hrg|]. split; [exact Hg|]. split.
    + destruct Hk as [_ Hk]. destruct (Hk c cn) as (cn' & Hcn' & E); [exact Hcn|].
      exists cn'. rewrite Hc'. split; [exact Hcn' | congruence].
    + destruct (fpres_read_guids _ _ _ _ Hrg) as (Hm & _). exact Hm.
Qed.

End read_guids.

Lemma read_guids_returns_witness :
  exists g w',
    vdev_geom_read_guids (K := freebsd) 11 world_ada0_open = Some (g, w') /\
    guids_from (K := freebsd) (pp_labels (disk "ada0" 512 77 99)) g /\
    bound_to w' 11 0 /\ w_mem w' = w_mem world_ada0_open.
Proof.
  pose proof (fun cn => read_guids_returns (K := freebsd) world_ada0_open 11 cn 0
                (disk "ada0" 512 77 99)) as H.
  eapply H.
  - vm_compute. reflexivity.
  - reflexivity.
  - reflexivity.
  - vm_compute. split; [reflexivity | discriminate].
  - reflexivity.
  - intros j Hj.
    assert (j = 0 \/ j = 1 \/ j = 2 \/ j = 3) as Hcases by (cbn in Hj; lia).
    destruct Hcases as [E|[E|[E|E]]]; subst j;
      vm_compute; split; first [reflexivity | discriminate].
Defined.

(** ** What the file never sends *)

Lemma above_quiet_reads : above_quiet reads_only.
Proof. intros e H. destruct e; try reflexivity. discriminate. Qed.

Section reads_only.
Context {K : SysConsts}.

Hint Resolve above_quiet_reads : pres.

Lemma rpres_io_loop fuel cp off offset p size maxio :
  preserves (frame reads_only) (vdev_geom_io_loop fuel cp BIO_READ off offset p size maxio).
Proof.
  revert off p size. induction fuel as [|fuel IH]; intros off p size;
    cbn [vdev_geom_io_loop]; unfold biowait, g_io_request; pres.
Qed.

Hint Resolve rpres_io_loop : pres.

Lemma rpres_io cp offset size :
  preserves (frame reads_only) (vdev_geom_io cp BIO_READ offset size).
Proof. unfold vdev_geom_io. pres. Qed.

Hint Resolve rpres_io : pres.

Lemma rpres_read_labels n l labels cp psize ss size pguid vguid :
  preserves (frame reads_only) (read_labels n l labels cp psize ss size pguid vguid).
Proof.
  revert l labels pguid vguid. induction n as [|n IH]; intros l labels pguid vguid;
    cbn [read_labels]; pres.
Qed.

Hint Resolve rpres_read_labels : pres.

Lemma rpres_read_guids cp : preserves (frame reads_only) (vdev_geom_read_guids cp).
Proof. unfold vdev_geom_read_guids. pres. Qed.

Hint Resolve rpres_read_guids : pres.

Lemma rpres_taste_providers l pp zcp vd :
  preserves (frame reads_only) (taste_providers l pp zcp vd).
Proof.
  revert pp. induction l as [|p l IH]; intros pp; cbn [taste_providers]; pres.
Qed.

Hint Resolve rpres_taste_providers : pres.

Lemma rpres_open_resolve vd : preserves (frame reads_only) (vdev_geom_open_resolve vd).
Proof.
  unfold vdev_geom_open_resolve, vdev_geom_open_by_path, vdev_geom_open_by_guids,
    vdev_geom_attach_by_guids. pres.
Qed.

(** X19: whatever [vdev_geom_open] does to find and check its device, the
    only transfers it sends are reads: opening a vdev never writes to,
    flushes or trims a provider. *)
Theorem open_only_reads (vd psize max_psize ashift : nat) (w : world) (e : Z)
    (w' : world) :
  vdev_geom_open vd psize max_psize ashift w = Some (e, w') ->
  exists l, w_log w' = w_log w ++ l /\ forallb reads_only l = true.
Proof.
  unfold vdev_geom_open. intros H.
  apply bind_Some in H as (v & wa & [Hv ->]%vdev_get_inv & H).
  destruct (match vdev_path v with Some _ => _ | None => _ end).
  { apply bind_Some in H as (u & wb & (v0 & _ & ->)%vdev_set_inv & [_ ->]%ret_inv).
    exists []. wsimpl. split; [symmetry; apply app_nil_r | reflexivity]. }
  apply bind_Some in H as (u & wb & (v0 & _ & ->)%vdev_set_inv & H).
  apply bind_Some in H as (cp & w1 & Hres & H).
  apply bind_Some in H as (r & w2 & Hclaim & H).
  destruct (rpres_open_resolve _ _ _ _ Hres) as (_ & _ & _ & _ & l1 & Hl1 & Hq1).
  destruct (fpres_open_claim reads_only above_quiet_reads _ _ _ _ _ Hclaim)
    as (_ & _ & _ & _ & l2 & Hl2 & Hq2).
  assert (w_log w' = w_log w2) as Hlog.
  { destruct (snd r) as [c|].
    - apply bind_Some in H as (cn & wc & [_ ->]%consumer_get_inv & H).
      apply bind_Some in H as (pp & wd & [_ ->]%deref_inv & H).
      apply bind_Some in H as (p & we & [_ ->]%provider_get_inv & H).
      apply bind_Some in H as (u1 & wf & (v3 & _ & ->)%vdev_set_inv & H).
      apply bind_Some in H as (u2 & wg & ->%mem_write_inv & H).
      apply bind_Some in H as (u3 & wh & ->%mem_write_inv & H).
      apply bind_Some in H as (u4 & wi & ->%mem_write_inv & H).
      apply bind_Some in H as (u5 & wj & (v4 & _ & ->)%vdev_set_inv & [_ ->]%ret_inv).
      reflexivity.
    - apply bind_Some in H as (u1 & wc & (v3 & _ & ->)%vdev_set_inv & [_ ->]%ret_inv).
      reflexivity. }
  exists (l1 ++ l2). rewrite Hlog, Hl2, Hl1. wsimpl.
  split; [symmetry; apply app_assoc|].
  rewrite forallb_app, Hq1, Hq2. reflexivity.
Qed.

(** X20: [vdev_geom_close] sends nothing to the device, reads no
    identity and writes no cell of the caller; it leaves the capability
    flags, the pool and the guid of every vdev as they were, and a null
    handle stays null. *)
Theorem close_sends_nothing (vd : nat) (w w' : world) :
  vdev_geom_close vd w = Some (tt, w') -> frame quiet w w'.
Proof. intros H. exact (fpres_close quiet above_quiet_quiet vd w tt w' H). Qed.

End reads_only.

Lemma open_only_reads_witness :
  exists l,
    w_log world_ada0_open = w_log world_ada0 ++ l /\ forallb reads_only l = true.
Proof.
  apply (open_only_reads (K := freebsd) 1 100 101 102 world_ada0 0).
  vm_compute. reflexivity.
Defined.

Lemma close_sends_nothing_witness :
  frame quiet world_ada0_open (exec (vdev_geom_close 1) world_ada0_open).
Proof.
  apply (close_sends_nothing 1). vm_compute. reflexivity.
Defined.

(** ** The identity of the device a vdev is bound to *)

Section identity.
Context {K : SysConsts}.

Lemma guids_differ_false g v :
  guids_differ g v = false -> g = (spa_guid (vdev_spa v), vdev_guid v).
Proof.
  unfold guids_differ. intros H. apply orb_false_elim in H as [H1 H2].
  apply negb_false_iff, Z.eqb_eq in H1. apply negb_false_iff, Z.eqb_eq in H2.
  destruct g. cbn in *. congruence.
Qed.

Lemma read_labels_from all c psize ss size : forall n l labels pguid vguid w g w',
  read_labels n l labels c psize ss size pguid vguid w = Some (g, w') ->
  (forall x, In x labels -> In x all) ->
  guids_from all (pguid, vguid) -> guids_from all g.
Proof.
  induction n as [|n IH]; intros l labels pguid vguid w g w' H Hsub Hacc;
    cbn [read_labels] in H.
  - apply ret_inv in H as [-> _]. exact Hacc.
  - cbv zeta in H.
    assert (forall x, In x (tail labels) -> In x all) as Hsub'.
    { intros x Hx. apply Hsub. destruct labels; [destruct Hx | right; exact Hx]. }
    destruct (negb (Z.rem (vdev_label_offset psize l 0) ss =? 0)).
    { eapply IH; eassumption. }
    apply bind_Some in H as (e & w1 & _ & H).
    destruct (negb (e =? 0)); [eapply IH; eassumption|].
    destruct labels as [|[config|] labels']; cbn [head] in H;
      try (eapply IH; eassumption).
    assert (guids_from all (nvlist_get_guids config)) as Hcfg.
    { right. exists config. split; [apply Hsub; left; reflexivity | reflexivity]. }
    destruct (negb (fst (nvlist_get_guids config) =? 0) &&
              negb (snd (nvlist_get_guids config) =? 0)).
    + apply ret_inv in H as [-> _]. exact Hcfg.
    + eapply IH; [exact H | exact Hsub' |].
      destruct (nvlist_get_guids config). exact Hcfg.
Qed.

(** What [vdev_geom_read_guids] returns was read from a label of the
    provider the consumer is attached to. *)
Lemma read_guids_from c w g w' :
  vdev_geom_read_guids c w = Some (g, w') ->
  exists cn pp p,
    w_consumers w !! c = Some cn /\ cp_provider cn = Some pp /\
    w_providers w !! pp = Some p /\ guids_from (pp_labels p) g.
Proof.
  unfold vdev_geom_read_guids. intros H.
  apply bind_Some in H as (cn & wa & [Hcn ->]%consumer_get_inv & H).
  apply bind_Some in H as (pp & wb & [Hpp ->]%deref_inv & H).
  apply bind_Some in H as (p & wc & [Hp ->]%provider_get_inv & H).
  apply bind_Some in H as (u & wd & _ & H).
  destruct (pp_sectorsize p =? 0); [discriminate|].
  apply bind_Some in H as (g0 & we & Hread & H).
  apply bind_Some in H as (u1 & wf & _ & [-> _]%ret_inv).
  exists cn, pp, p. repeat split; try assumption.
  eapply read_labels_from; [exact Hread | auto | left; reflexivity].
Qed.

Lemma keep_identity p v v' : keep v v' -> carries_identity p v' -> carries_identity p v.
Proof.
  intros (_ & _ & Hspa & Hguid & _). unfold carries_identity. rewrite Hspa, Hguid. auto.
Qed.

(** A device accepted under its path, with its identity checked, carries
    the identity of the vdev unless its sector size ruled the check
    out. *)
Lemma open_by_path_checked vd v w c w' :
  w_vdevs w !! vd = Some v ->
  vdev_geom_open_by_path vd true w = Some (Some c, w') ->
  exists pp p,
    w_providers w !! pp = Some p /\ bound_to w' c pp /\
    (unsupported_sectorsize p = false -> carries_identity p v).
Proof.
  unfold vdev_geom_open_by_path. intros Hv H.
  apply bind_Some in H as (v0 & wa & [Hv0 ->]%vdev_get_inv & H).
  rewrite Hv in Hv0. injection Hv0 as <-.
  apply bind_Some in H as (path & wb & [_ ->]%deref_inv & H).
  apply bind_Some in H as (found & wc & Hfound & H).
  apply bind_Some in Hfound as (l & wd & [= <- <-] & [-> ->]%ret_inv).
  destruct (provider_index _ _ _) as [pp|]; [|apply ret_inv in H as [[=] _]].
  apply bind_Some in H as (p & we & [Hp ->]%provider_get_inv & H).
  apply bind_Some in H as (u & wf & ->%emit_inv & H).
  apply bind_Some in H as (ocp & wg & Hatt & H).
  destruct ocp as [c0|]; [|apply ret_inv in H as [[=] _]].
  pose proof (attach_bound _ _ _ _ _ Hatt) as Hb.
  pose proof (fpres_attach any_event above_quiet_any _ _ _ _ _ Hatt) as Fa.
  exists pp, p. split; [exact Hp|].
  destruct (true && ISP2 (pp_sectorsize p) && (pp_sectorsize p <=? VDEV_PAD_SIZE)) eqn:Echk.
  - apply bind_Some in H as (g & wh & Hread & H).
    apply bind_Some in H as (v2 & wi & [Hv2 ->]%vdev_get_inv & H).
    destruct (guids_differ g v2) eqn:Ediff.
    { apply bind_Some in H as (u1 & wj & _ & H). apply returns_None in H. discriminate. }
    apply bind_Some in H as (u1 & wj & ->%emit_inv & [[= <-] ->]%ret_inv).
    pose proof (fpres_read_guids _ _ _ _ Hread) as Fr.
    split.
    + eapply bound_to_kept; [|exact Hb].
      eapply bound_kept_trans; [eapply bpres_read_guids; exact Hread|].
      apply bound_kept_same; reflexivity.
    + intros _.
      destruct (read_guids_from _ _ _ _ Hread) as (cn & pp' & p' & Hcn & Hpp' & Hp' & Hfrom).
      destruct Hb as (cn' & Hcn' & Hpp). rewrite Hcn in Hcn'. injection Hcn' as <-.
      rewrite Hpp in Hpp'. injection Hpp' as <-.
      destruct Fa as (_ & Hprov & _). rewrite Hprov in Hp'. wsimpl.
      rewrite Hp in Hp'. injection Hp' as <-.
      destruct (frame_trans _ _ _ _ (frame_trans _ _ _ _ (frame_refl any_event _)
                  (fpres_attach any_event above_quiet_any _ _ _ _ _ Hatt)) Fr)
        as (_ & _ & _ & Hvd & _).
      destruct (Hvd vd v) as (v2' & Hv2' & Hkeep); [wsimpl; exact Hv|].
      rewrite Hv2 in Hv2'. injection Hv2' as <-.
      apply (keep_identity p v v2 Hkeep). unfold carries_identity.
      rewrite <- (guids_differ_false _ _ Ediff). exact Hfrom.
  - apply ret_inv in H as [[= <-] ->]. split; [exact Hb|].
    intros Hsup. exfalso. unfold unsupported_sectorsize in Hsup.
    apply orb_false_elim in Hsup as [H1 H2].
    apply negb_false_iff in H2. apply Z.ltb_ge in H1.
    rewrite H2 in Echk. cbn [andb] in Echk. apply Z.leb_gt in Echk. lia.
Qed.

End identity.

(** ** The tasting consumer *)

Lemma untouched_refl z w : untouched z w w.
Proof. intros H. auto. Qed.

Lemma untouched_trans z w1 w2 w3 :
  untouched z w1 w2 -> untouched z w2 w3 -> untouched z w1 w3.
Proof.
  intros H1 H2 Hz. destruct (H1 Hz) as [Hz2 E2]. destruct (H2 Hz2) as [Hz3 E3].
  split; [assumption | congruence].
Qed.

Lemma untouched_same z w w' :
  w_next w' = w_next w -> w_consumers w' = w_consumers w -> untouched z w w'.
Proof. intros Hn Hc Hz. rewrite Hn, Hc. auto. Qed.

Section untouched.
Context (z : nat).

Lemma upres_same {A} (m : M A) :
  (forall w a w', m w = Some (a, w') ->
     w_next w' = w_next w /\ w_consumers w' = w_consumers w) ->
  preserves (untouched z) m.
Proof. intros H w a w' Hrun. destruct (H _ _ _ Hrun). apply untouched_same; assumption. Qed.

Lemma upres_emit e : preserves (untouched z) (emit e).
Proof. apply upres_same. intros w a w' ->%emit_inv. auto. Qed.

Lemma upres_oracle_next : preserves (untouched z) oracle_next.
Proof. apply upres_same. intros w a w' [= _ <-]. auto. Qed.

Lemma upres_vdev_get x : preserves (untouched z) (vdev_get x).
Proof. apply upres_same. intros w a w' [_ ->]%vdev_get_inv. auto. Qed.

Lemma upres_vdev_set x f : preserves (untouched z) (vdev_set x f).
Proof. apply upres_same. intros w a w' (v & _ & ->)%vdev_set_inv. auto. Qed.

Lemma upres_consumer_get x : preserves (untouched z) (consumer_get x).
Proof. apply upres_same. intros w a w' [_ ->]%consumer_get_inv. auto. Qed.

Lemma upres_provider_get x : preserves (untouched z) (provider_get x).
Proof. apply upres_same. intros w a w' [_ ->]%provider_get_inv. auto. Qed.

Lemma upres_geom_get x : preserves (untouched z) (geom_get x).
Proof. apply upres_same. intros w a w' [_ ->]%geom_get_inv. auto. Qed.

Lemma upres_geom_set x f : preserves (untouched z) (geom_set x f).
Proof.
  apply upres_same.
  intros w a w' (g & w1 & [_ ->]%geom_get_inv & [= _ <-])%bind_Some. auto.
Qed.

Lemma upres_consumer_set cp f : cp <> z -> preserves (untouched z) (consumer_set cp f).
Proof.
  intros Hne w u w' (c & w1 & [_ ->]%consumer_get_inv & [= _ <-])%bind_Some Hz.
  wsimpl. split; [exact Hz|]. apply lookup_insert_ne. exact Hne.
Qed.

Lemma upres_g_new_geomf name : preserves (untouched z) (g_new_geomf name).
Proof.
  intros w gp w' H Hz.
  apply bind_Some in H as (gp0 & wa & [= <- <-] & H).
  apply bind_Some in H as (ub & wb & [= _ <-] & H).
  apply bind_Some in H as (uc & wc & [= _ <-] & [-> ->]%ret_inv).
  wsimpl. split; [lia | reflexivity].
Qed.

(** A new consumer takes the next identifier, which is not [z]. *)
Lemma g_new_consumer_fresh gp w cp w' :
  g_new_consumer gp w = Some (cp, w') ->
  cp = w_next w /\ untouched z w w'.
Proof.
  intros H.
  apply bind_Some in H as (g & wa & [_ ->]%geom_get_inv & H).
  apply bind_Some in H as (cp0 & wb & [= <- <-] & H).
  apply bind_Some in H as (uc & wc & [= _ <-] & H).
  apply bind_Some in H as (ud & wd & H & [-> ->]%ret_inv).
  apply bind_Some in H as (g' & we & [_ ->]%geom_get_inv & [= _ <-]).
  split; [reflexivity|]. intros Hz. wsimpl. split; [lia|].
  apply lookup_insert_ne. lia.
Qed.

Lemma upres_g_destroy_consumer cp :
  cp <> z -> preserves (untouched z) (g_destroy_consumer cp).
Proof.
  intros Hne w u w' H Hz.
  apply bind_Some in H as (c & wa & [_ ->]%consumer_get_inv & H).
  apply bind_Some in H as (g & wb & [_ ->]%geom_get_inv & H).
  apply bind_Some in H as (uc & wc & H & [= _ <-]).
  apply bind_Some in H as (g' & wd & [_ ->]%geom_get_inv & [= _ <-]).
  wsimpl. split; [exact Hz|]. apply lookup_delete_ne. exact Hne.
Qed.

End untouched.

Create HintDb spare discriminated.

#[global] Hint Resolve upres_emit upres_oracle_next upres_vdev_get upres_vdev_set
  upres_consumer_get upres_provider_get upres_geom_get upres_geom_set
  upres_g_new_geomf : spare.
#[global] Hint Extern 1 (preserves _ (consumer_set _ _)) =>
  apply upres_consumer_set; assumption : spare.
#[global] Hint Extern 1 (preserves _ (g_destroy_consumer _)) =>
  apply upres_g_destroy_consumer; assumption : spare.
#[global] Hint Extern 1 (preserves _ (ZFS_LOG _)) => apply upres_emit : spare.
#[global] Hint Extern 1 (preserves _ (printf _)) => apply upres_emit : spare.
#[global] Hint Extern 1 (preserves _ (spa_async_request _ _)) =>
  apply upres_emit : spare.
#[global] Hint Extern 1 (preserves _ (g_io_request _ _)) =>
  apply upres_emit : spare.
#[global] Hint Extern 1 (preserves _ biowait) => apply upres_oracle_next : spare.

Ltac upres :=
  repeat first
    [ progress intros
    | solve [auto with spare]
    | apply (pres_ret _ (untouched_refl _))
    | apply pres_stuck
    | apply (pres_gets _ (untouched_refl _))
    | apply (pres_deref _ (untouched_refl _))
    | match goal with
      | |- preserves _ (bind _ _) => apply (pres_bind _ (untouched_trans _))
      | |- preserves _ (if ?b then _ else _) => destruct b
      | |- preserves _ (match ?x with _ => _ end) => destruct x
      end ].

Section spared.
Context {K : SysConsts} (z : nat).

Lemma upres_g_attach cp pp : cp <> z -> preserves (untouched z) (g_attach cp pp).
Proof. intros Hne. unfold g_attach. upres. Qed.

Lemma upres_g_access cp dcr dcw dce :
  cp <> z -> preserves (untouched z) (g_access cp dcr dcw dce).
Proof. intros Hne. unfold g_access. upres. Qed.

Lemma upres_g_io_getattr cp : preserves (untouched z) (g_io_getattr cp).
Proof. unfold g_io_getattr. upres. Qed.

Hint Resolve upres_g_io_getattr : spare.
Hint Extern 1 (preserves _ (g_access _ _ _ _)) =>
  apply upres_g_access; assumption : spare.
Hint Extern 1 (preserves _ (g_attach _ _)) =>
  apply upres_g_attach; assumption : spare.

Lemma upres_attrchanged cp attr :
  cp <> z -> preserves (untouched z) (vdev_geom_attrchanged cp attr).
Proof. intros Hne. unfold vdev_geom_attrchanged. upres. Qed.

Lemma upres_find_zfs_vdev_geom l : preserves (untouched z) (find_zfs_vdev_geom l).
Proof. induction l as [|gp l IH]; cbn [find_zfs_vdev_geom]; upres. Qed.

Lemma upres_find_consumer l pp : preserves (untouched z) (find_consumer l pp).
Proof. induction l as [|cp l IH]; cbn [find_consumer]; upres. Qed.

Lemma upres_io_loop fuel cp cmd off offset p size maxio :
  preserves (untouched z) (vdev_geom_io_loop fuel cp cmd off offset p size maxio).
Proof.
  revert off p size. induction fuel as [|fuel IH]; intros off p size;
    cbn [vdev_geom_io_loop]; upres.
Qed.

Hint Resolve upres_io_loop : spare.

Lemma upres_io cp cmd offset size :
  preserves (untouched z) (vdev_geom_io cp cmd offset size).
Proof. unfold vdev_geom_io. upres. Qed.

Hint Resolve upres_io : spare.

Lemma upres_read_labels n l labels cp psize ss size pguid vguid :
  preserves (untouched z) (read_labels n l labels cp psize ss size pguid vguid).
Proof.
  revert l labels pguid vguid. induction n as [|n IH]; intros l labels pguid vguid;
    cbn [read_labels]; upres.
Qed.

Hint Resolve upres_read_labels : spare.

Lemma upres_read_guids cp : preserves (untouched z) (vdev_geom_read_guids cp).
Proof. unfold vdev_geom_read_guids. upres. Qed.

(** [vdev_geom_attach] leaves alone every consumer that is allocated and
    attached to no provider. *)
Lemma attach_spares pp vd w r w' cnz :
  vdev_geom_attach pp vd w = Some (r, w') ->
  w_consumers w !! z = Some cnz -> cp_provider cnz = None ->
  untouched z w w'.
Proof.
  unfold vdev_geom_attach. intros H Hz0 Hnone Hz.
  apply bind_Some in H as (u & wa & ->%emit_inv & H).
  apply bind_Some in H as (l & wb & [= <- <-] & H).
  apply bind_Some in H as (found & wc & Hfz & H).
  destruct (upres_find_zfs_vdev_geom _ _ _ _ Hfz Hz) as [Hzc Ec]. wsimpl.
  apply bind_Some in H as (ocp & wd & Hin & H).
  assert ((z < w_next wd)%nat /\ w_consumers wd !! z = w_consumers w !! z /\
          forall cp, ocp = Some cp -> cp <> z) as (Hzd & Ed & Hne).
  { assert (forall gp cp0 w0 w1 (tail : nat -> M (option nat)),
              (z < w_next w0)%nat -> w_consumers w0 !! z = w_consumers w !! z ->
              g_new_consumer gp w0 = Some (cp0, w1) ->
              (cp0 <> z -> preserves (untouched z) (tail cp0)) ->
              (forall c w2 w3, tail cp0 w2 = Some (Some c, w3) -> c = cp0) ->
              tail cp0 w1 = Some (ocp, wd) ->
              (z < w_next wd)%nat /\ w_consumers wd !! z = w_consumers w !! z /\
              forall cp, ocp = Some cp -> cp <> z) as Hnew.
    { intros gp cp0 w0 w1 tail Hz0' E0 Hnc Htail Hres Hrun.
      destruct (g_new_consumer_fresh z _ _ _ _ Hnc) as [-> U1].
      destruct (U1 Hz0') as [Hz1 E1].
      assert (w_next w0 <> z) as Hne0 by lia.
      destruct (Htail Hne0 _ _ _ Hrun Hz1) as [Hz2 E2].
      split; [exact Hz2|]. split; [congruence|].
      intros cp ->. rewrite (Hres _ _ _ Hrun). exact Hne0. }
    destruct found as [gp|].
    - apply bind_Some in Hin as (g & we & [_ ->]%geom_get_inv & Hin).
      apply bind_Some in Hin as (known & wf & Hfc & Hin).
      destruct (upres_find_consumer _ _ _ _ _ Hfc Hzc) as [Hzf Ef].
      destruct known as [cp0|].
      + assert (cp0 <> z) as Hne0.
        { intros ->. destruct (find_consumer_bound _ _ _ _ _ Hfc) as (cn & Hcn & Hpp).
          rewrite Ef, Ec in Hcn. wsimpl. rewrite Hz0 in Hcn. injection Hcn as <-.
          congruence. }
        assert (preserves (untouched z)
                  (let* e := g_access cp0 1 0 1 in
                   if negb (e =? 0) then ret None
                   else ZFS_LOG "Used existing consumer for %s.";; ret (Some cp0)))
          as U by upres.
        destruct (U _ _ _ Hin Hzf) as [Hzd Ed].
        split; [exact Hzd|]. split; [rewrite Ed, Ef, Ec; reflexivity|].
        intros cp ->.
        apply bind_Some in Hin as (e & wg & _ & Hin).
        destruct (negb (e =? 0)); [apply ret_inv in Hin as [[=] _]|].
        apply bind_Some in Hin as (u1 & wh & _ & [[= <-] _]%ret_inv). exact Hne0.
      + apply bind_Some in Hin as (cp0 & wg & Hnc & Hin).
        apply (Hnew gp cp0 wf wg (fun cp0 =>
                 let* e := g_attach cp0 pp in
                 if negb (e =? 0) then g_destroy_consumer cp0;; ret None else
                 let* e := g_access cp0 1 0 1 in
                 if negb (e =? 0)
                 then g_detach cp0;; g_destroy_consumer cp0;; ret None
                 else ZFS_LOG "Created consumer for %s.";; ret (Some cp0)));
          try assumption.
        * rewrite Ef, Ec. reflexivity.
        * intros Hne0. unfold g_detach. upres.
        * intros c w2 w3 Hr. apply attach_new_bound in Hr as [Hc _]; [exact Hc| |].
          -- intros. eapply returns_None. eassumption.
          -- intros w4 r4 w5 (a & w6 & _ & Hr4)%bind_Some.
             eapply returns_None. eassumption.
    - apply bind_Some in Hin as (gp & we & Hng & Hin).
      destruct (upres_g_new_geomf z _ _ _ _ Hng Hzc) as [Hze Ee].
      apply bind_Some in Hin as (u1 & wf & Hgs & Hin).
      destruct (upres_geom_set z _ _ _ _ _ Hgs Hze) as [Hzf Ef].
      apply bind_Some in Hin as (cp0 & wg & Hnc & Hin).
      apply (Hnew gp cp0 wf wg (fun cp0 =>
               let* e := g_attach cp0 pp in
               if negb (e =? 0) then g_wither_geom gp;; ret None else
               let* e := g_access cp0 1 0 1 in
               if negb (e =? 0) then g_wither_geom gp;; ret None else
               ZFS_LOG "Created geom and consumer for %s.";; ret (Some cp0)));
        try assumption.
      + rewrite Ef, Ee, Ec. reflexivity.
      + intros Hne0. unfold g_wither_geom. upres.
      + intros c w2 w3 Hr. apply attach_new_bound in Hr as [Hc _]; [exact Hc| |];
          intros; eapply returns_None; eassumption. }
  destruct ocp as [cp|].
  - specialize (Hne cp eq_refl).
    assert (preserves (untouched z)
              (consumer_set cp (set_cp_private (Some vd));;
               vdev_geom_attrchanged cp "GEOM::physpath";; ret (Some cp))) as U.
    { apply (pres_bind _ (untouched_trans _)); [apply upres_consumer_set; exact Hne|].
      intros _. apply (pres_bind _ (untouched_trans _));
        [apply upres_attrchanged; exact Hne|].
      intros _. apply (pres_ret _ (untouched_refl _)). }
    destruct (U _ _ _ H Hzd) as [Hz' E']. split; [exact Hz' | congruence].
  - apply ret_inv in H as [_ ->]. split; [exact Hzd | exact Ed].
Qed.

End spared.

Section scan.
Context {K : SysConsts}.

Lemma consumer_set_inv cp f u w w' :
  consumer_set cp f w = Some (u, w') ->
  exists cn, w_consumers w !! cp = Some cn /\
             w' = set_w_consumers (insert cp (f cn)) w.
Proof.
  intros (c & w1 & [Hc ->]%consumer_get_inv & [= _ <-])%bind_Some. eauto.
Qed.

Lemma tasting_untouched zcp o w w' :
  untouched zcp w w' -> tasting zcp o w -> tasting zcp o w'.
Proof.
  intros U [Hz (cn & Hcn & Ho)]. destruct (U Hz) as [Hz' E].
  split; [exact Hz'|]. exists cn. rewrite E. auto.
Qed.

Lemma g_attach_tasting zcp pp w e w' :
  g_attach zcp pp w = Some (e, w') -> tasting zcp None w ->
  tasting zcp (Some pp) w' \/ tasting zcp None w'.
Proof.
  unfold g_attach. intros H [Hz (cn & Hcn & Ho)].
  apply bind_Some in H as (cn0 & wa & [_ ->]%consumer_get_inv & H).
  apply bind_Some in H as (p & wb & [_ ->]%provider_get_inv & H).
  apply bind_Some in H as (e0 & wc & [= <- <-] & H).
  destruct (_ =? 0).
  - apply bind_Some in H as (u & wd & (cn1 & Hcn1 & ->)%consumer_set_inv & [-> ->]%ret_inv).
    left. split; [exact Hz|]. eexists. wsimpl.
    split; [apply lookup_insert_eq | reflexivity].
  - apply ret_inv in H as [_ ->]. right. split; [exact Hz|]. exists cn. auto.
Qed.

Lemma g_access_tasting zcp o dcr dcw dce w e w' :
  g_access zcp dcr dcw dce w = Some (e, w') -> tasting zcp o w -> tasting zcp o w'.
Proof.
  unfold g_access. intros H [Hz (cn & Hcn & Ho)].
  apply bind_Some in H as (cn0 & wa & [_ ->]%consumer_get_inv & H).
  apply bind_Some in H as (e0 & wb & [= <- <-] & H).
  destruct (_ =? 0).
  - apply bind_Some in H as (u & wd & (cn1 & Hcn1 & ->)%consumer_set_inv & [-> ->]%ret_inv).
    wsimpl. rewrite Hcn in Hcn1. injection Hcn1 as <-.
    split; [exact Hz|]. eexists. wsimpl.
    split; [apply lookup_insert_eq | exact Ho].
  - apply ret_inv in H as [_ ->]. split; [exact Hz|]. exists cn. auto.
Qed.

Lemma g_detach_tasting zcp o w u w' :
  g_detach zcp w = Some (u, w') -> tasting zcp o w -> tasting zcp None w'.
Proof.
  unfold g_detach. intros (cn1 & Hcn1 & ->)%consumer_set_inv [Hz _].
  split; [exact Hz|]. eexists. wsimpl. split; [apply lookup_insert_eq | reflexivity].
Qed.

(** The identity scan attaches only to a provider whose labels carry the
    identity of the vdev. *)
Lemma taste_providers_matched zcp vd c w' : forall l i w v,
  taste_providers l i zcp vd w = Some (Some c, w') ->
  w_vdevs w !! vd = Some v -> tasting zcp None w ->
  (forall j p, l !! j = Some p -> w_providers w !! (i + j)%nat = Some p) ->
  exists pp p,
    w_providers w !! pp = Some p /\ bound_to w' c pp /\ carries_identity p v.
Proof.
  induction l as [|p l IH]; intros i w v H Hv Ht Hl; cbn [taste_providers] in H.
  { apply ret_inv in H as [[=] _]. }
  assert (forall w1,
            frame any_event w w1 -> tasting zcp None w1 ->
            taste_providers l (S i) zcp vd w1 = Some (Some c, w') ->
            exists pp p,
              w_providers w !! pp = Some p /\ bound_to w' c pp /\ carries_identity p v)
    as Hnext.
  { intros w1 (_ & Hprov & _ & Hvd & _) Ht1 Hrun.
    destruct (Hvd vd v Hv) as (v1 & Hv1 & Hkeep).
    destruct (IH (S i) w1 v1 Hrun Hv1 Ht1) as (pp & q & Hq & Hb & Hid).
    - intros j q Hq. rewrite Hprov.
      replace (S i + j)%nat with (i + S j)%nat by lia. apply Hl. exact Hq.
    - exists pp, q. rewrite <- Hprov. split; [exact Hq|]. split; [exact Hb|].
      eapply keep_identity; eassumption. }
  specialize (Hl 0%nat p eq_refl). rewrite Nat.add_0_r in Hl.
  destruct (pp_class_zfs p); [apply (Hnext w (frame_refl _ _) Ht H)|].
  destruct (pp_geom_wither p); [apply (Hnext w (frame_refl _ _) Ht H)|].
  destruct (pp_wither p); [apply (Hnext w (frame_refl _ _) Ht H)|].
  apply bind_Some in H as (e0 & w1 & Hatt & H).
  pose proof (fpres_g_attach any_event _ _ _ _ _ Hatt) as F1.
  pose proof (g_attach_tasting _ _ _ _ _ Hatt Ht) as Ht1.
  apply bind_Some in H as (e & w2 & Hacc & H).
  pose proof (frame_trans _ _ _ _ F1 (fpres_g_access any_event _ _ _ _ _ _ _ Hacc)) as F2.
  assert (tasting zcp (Some i) w2 \/ tasting zcp None w2) as Ht2.
  { destruct Ht1 as [T|T]; [left | right]; eapply g_access_tasting; eassumption. }
  destruct (negb (e =? 0)).
  { apply bind_Some in H as (u & w3 & Hdet & H).
    apply (Hnext w3); [|destruct Ht2 as [T|T]; eapply g_detach_tasting; eassumption | exact H].
    eapply frame_trans; [exact F2 | eapply fpres_g_detach; exact Hdet]. }
  apply bind_Some in H as (g & w3 & Hread & H).
  pose proof (frame_trans _ _ _ _ F2 (fpres_read_guids _ _ _ _ Hread)) as F3.
  assert (tasting zcp (Some i) w3 \/ tasting zcp None w3) as Ht3.
  { destruct Ht2 as [T|T]; [left | right];
      (eapply tasting_untouched; [eapply upres_read_guids; exact Hread | exact T]). }
  apply bind_Some in H as (e1 & w4 & Hacc2 & H).
  pose proof (frame_trans _ _ _ _ F3 (fpres_g_access any_event _ _ _ _ _ _ _ Hacc2)) as F4.
  apply bind_Some in H as (u & w5 & Hdet & H).
  pose proof (frame_trans _ _ _ _ F4 (fpres_g_detach any_event _ _ _ _ Hdet)) as F5.
  assert (tasting zcp None w5) as Ht5.
  { destruct Ht3 as [T|T];
      (eapply g_detach_tasting; [exact Hdet | eapply g_access_tasting; eassumption]). }
  apply bind_Some in H as (v5 & w6 & [Hv5 ->]%vdev_get_inv & H).
  destruct (guids_differ g v5) eqn:Ediff; [apply (Hnext w5 F5 Ht5 H)|].
  apply bind_Some in H as (ocp & w6 & Hattach & H).
  destruct Ht5 as [Hz5 (cn5 & Hcn5 & Hnone5)].
  pose proof (attach_spares zcp _ _ _ _ _ cn5 Hattach Hcn5 Hnone5) as U6.
  pose proof (frame_trans _ _ _ _ F5
                (fpres_attach any_event above_quiet_any _ _ _ _ _ Hattach)) as F6.
  destruct ocp as [c0|].
  - apply ret_inv in H as [[= <-] ->].
    exists i, p. split; [exact Hl|]. split; [eapply attach_bound; exact Hattach|].
    destruct (read_guids_from _ _ _ _ Hread) as (cn & pp' & p' & Hcn & Hpp' & Hp' & Hfrom).
    assert (pp' = i) as ->.
    { destruct Ht2 as [[_ (cn2 & Hcn2 & Ho)]|[_ (cn2 & Hcn2 & Ho)]];
        rewrite Hcn in Hcn2; injection Hcn2 as <-; congruence. }
    destruct F2 as (_ & Hprov2 & _). rewrite Hprov2, Hl in Hp'. injection Hp' as <-.
    destruct F5 as (_ & _ & _ & Hvd & _).
    destruct (Hvd vd v Hv) as (v5' & Hv5' & Hkeep).
    rewrite Hv5 in Hv5'. injection Hv5' as <-.
    apply (keep_identity p v v5 Hkeep). unfold carries_identity.
    rewrite <- (guids_differ_false _ _ Ediff). exact Hfrom.
  - apply bind_Some in H as (u1 & w7 & ->%emit_inv & H).
    apply (Hnext (set_w_log (fun l0 => l0 ++ [EvPrintf "ZFS WARNING: Unable to attach to %s.\n"]) w6)).
    + eapply frame_trans; [exact F6|].
      apply (fpres_emit any_event (EvPrintf "ZFS WARNING: Unable to attach to %s.\n")
               eq_refl w6 tt).
      reflexivity.
    + eapply tasting_untouched; [|eapply tasting_untouched; [exact U6|]].
      * apply untouched_same; reflexivity.
      * split; [exact Hz5|]. exists cn5. auto.
    + exact H.
Qed.

Lemma open_by_guids_matched vd v w c w' :
  w_vdevs w !! vd = Some v ->
  vdev_geom_open_by_guids vd w = Some (Some c, w') ->
  exists pp p,
    w_providers w !! pp = Some p /\ bound_to w' c pp /\ carries_identity p v.
Proof.
  unfold vdev_geom_open_by_guids. intros Hv H.
  apply bind_Some in H as (u & wa & ->%emit_inv & H).
  apply bind_Some in H as (ocp & wb & Hscan & H).
  destruct ocp as [c0|]; [|apply returns_None in H; discriminate].
  apply bind_Some in H as (cn & wc & [Hcn ->]%consumer_get_inv & H).
  apply bind_Some in H as (pp0 & wd & [Hpp0 ->]%deref_inv & H).
  apply bind_Some in H as (p0 & we & [_ ->]%provider_get_inv & H).
  apply bind_Some in H as (u1 & wf & (v1 & _ & ->)%vdev_set_inv & H).
  apply bind_Some in H as (u2 & wg & ->%emit_inv & [[= <-] ->]%ret_inv).
  unfold vdev_geom_attach_by_guids in Hscan.
  apply bind_Some in Hscan as (zgp & w1 & Hng & Hscan).
  apply bind_Some in Hscan as (u3 & w2 & Hgs & Hscan).
  apply bind_Some in Hscan as (zcp & w3 & Hnc & Hscan).
  apply bind_Some in Hscan as (l & w4 & [= <- <-] & Hscan).
  apply bind_Some in Hscan as (ocp & w5 & Htaste & Hscan).
  apply bind_Some in Hscan as (u4 & w6 & Hdc & Hscan).
  apply bind_Some in Hscan as (u5 & w7 & Hdg & [E1 E2]%ret_inv).
  subst ocp wb.
  pose proof (frame_trans _ _ _ _
                (frame_trans _ _ _ _ (fpres_g_new_geomf any_event _ _ _ _ Hng)
                   (fpres_geom_set any_event _ _ _ _ _ Hgs))
                (fpres_g_new_consumer any_event _ _ _ _ Hnc)) as F3.
  wsimpl.
  assert (tasting zcp None w3) as Ht3.
  { clear -Hnc. unfold g_new_consumer in Hnc.
    apply bind_Some in Hnc as (g & wa & [_ ->]%geom_get_inv & H).
    apply bind_Some in H as (cp0 & wb & [= <- <-] & H).
    apply bind_Some in H as (uc & wc & [= _ <-] & H).
    apply bind_Some in H as (ud & wd & H & [-> ->]%ret_inv).
    apply bind_Some in H as (g' & we & [_ ->]%geom_get_inv & [= _ <-]).
    split; [wsimpl; lia|]. eexists. wsimpl.
    split; [apply lookup_insert_eq | reflexivity]. }
  destruct F3 as (_ & Hprov & _ & Hvd & _). wsimpl.
  destruct (Hvd vd v Hv) as (v3 & Hv3 & Hkeep).
  destruct (taste_providers_matched zcp vd c w5 (w_providers w3) 0 w3 v3 Htaste Hv3 Ht3)
    as (pp & p & Hp & Hb & Hid); [auto|].
  exists pp, p. rewrite <- Hprov. split; [exact Hp|]. split.
  - destruct Hb as (cn5 & Hcn5 & Hpp5).
    assert (w_consumers w7 = delete zcp (w_consumers w5)) as E.
    { unfold g_destroy_geom in Hdg.
      apply bind_Some in Hdg as (g & w8 & [_ ->]%geom_get_inv & Hdg).
      destruct (gp_consumer g); [|discriminate].
      apply bind_Some in Hdg as (u6 & w9 & [= _ <-] & [= _ <-]).
      unfold g_destroy_consumer in Hdc.
      apply bind_Some in Hdc as (cz & wx & [_ ->]%consumer_get_inv & Hdc).
      apply bind_Some in Hdc as (g1 & wy & [_ ->]%geom_get_inv & Hdc).
      apply bind_Some in Hdc as (u7 & wz & Hgs' & [= _ <-]).
      apply bind_Some in Hgs' as (g' & wt & [_ ->]%geom_get_inv & [= _ <-]).
      reflexivity. }
    rewrite E in Hcn. apply lookup_delete_Some in Hcn as [Hne Hcn].
    rewrite Hcn5 in Hcn. injection Hcn as <-.
    exists cn5. wsimpl. rewrite E. split; [|exact Hpp5].
    apply lookup_delete_Some. split; [|exact Hcn5].
    exact Hne.
  - eapply keep_identity; eassumption.
Qed.

End scan.

(** ** The state a vdev was in before *)

Lemma prevstate_kept_refl w : prevstate_kept w w.
Proof. intros vd v H. eauto. Qed.

Lemma prevstate_kept_trans w1 w2 w3 :
  prevstate_kept w1 w2 -> prevstate_kept w2 w3 -> prevstate_kept w1 w3.
Proof.
  intros H1 H2 vd v Hv. destruct (H1 vd v Hv) as (v2 & Hv2 & E2).
  destruct (H2 vd v2 Hv2) as (v3 & Hv3 & E3). exists v3. split; [assumption | congruence].
Qed.

Lemma prevstate_kept_same w w' : w_vdevs w' = w_vdevs w -> prevstate_kept w w'.
Proof. intros E vd v H. rewrite E. eauto. Qed.

Lemma ppres_vdev_set vd f :
  (forall v, vdev_prevstate (f v) = vdev_prevstate v) ->
  preserves prevstate_kept (vdev_set vd f).
Proof.
  intros Hf w u w' (v0 & Hv0 & ->)%vdev_set_inv vd' v' H'. wsimpl.
  destruct (decide (vd = vd')) as [<-|Hne].
  - rewrite lookup_insert_eq. eexists. split; [reflexivity|].
    rewrite Hv0 in H'. injection H' as <-. apply Hf.
  - rewrite lookup_insert_ne by assumption. eauto.
Qed.

Lemma ppres_oracle_next : preserves prevstate_kept oracle_next.
Proof. intros w a w' [= _ <-]. apply prevstate_kept_same; reflexivity. Qed.

Lemma ppres_alloc : preserves prevstate_kept alloc.
Proof. intros w a w' [= _ <-]. apply prevstate_kept_same; reflexivity. Qed.

Create HintDb prev discriminated.

#[global] Hint Resolve ppres_oracle_next ppres_alloc : prev.
#[global] Hint Extern 1 (preserves _ (vdev_set _ _)) =>
  apply ppres_vdev_set; intros; reflexivity : prev.
#[global] Hint Extern 1 (preserves _ (modify _)) =>
  apply pres_modify; intros;
  apply prevstate_kept_same; reflexivity : prev.
#[global] Hint Extern 1 (preserves _ biowait) => apply ppres_oracle_next : prev.

Ltac ppres :=
  repeat first
    [ progress intros
    | solve [auto with prev]
    | apply (pres_ret _ prevstate_kept_refl)
    | apply pres_stuck
    | apply (pres_gets _ prevstate_kept_refl)
    | apply (pres_deref _ prevstate_kept_refl)
    | match goal with
      | |- preserves _ (bind _ _) => apply (pres_bind _ prevstate_kept_trans)
      | |- preserves _ (if ?b then _ else _) => destruct b
      | |- preserves _ (match ?x with _ => _ end) => destruct x
      end ].

Section prevstate_primitives.

Lemma ppres_vdev_get vd : preserves prevstate_kept (vdev_get vd).
Proof. unfold vdev_get. ppres. Qed.

Lemma ppres_consumer_get cp : preserves prevstate_kept (consumer_get cp).
Proof. unfold consumer_get. ppres. Qed.

Lemma ppres_geom_get gp : preserves prevstate_kept (geom_get gp).
Proof. unfold geom_get. ppres. Qed.

Lemma ppres_provider_get pp : preserves prevstate_kept (provider_get pp).
Proof. unfold provider_get. ppres. Qed.

Hint Resolve ppres_consumer_get ppres_geom_get : prev.

Lemma ppres_consumer_set cp f : preserves prevstate_kept (consumer_set cp f).
Proof. unfold consumer_set. ppres. Qed.

Lemma ppres_geom_set gp f : preserves prevstate_kept (geom_set gp f).
Proof. unfold geom_set. ppres. Qed.

Lemma ppres_emit e : preserves prevstate_kept (emit e).
Proof. unfold emit. ppres. Qed.

End prevstate_primitives.

#[global] Hint Resolve ppres_vdev_get ppres_consumer_get ppres_geom_get
  ppres_provider_get ppres_consumer_set ppres_geom_set ppres_emit : prev.
#[global] Hint Extern 1 (preserves _ (ZFS_LOG _)) => apply ppres_emit : prev.
#[global] Hint Extern 1 (preserves _ (printf _)) => apply ppres_emit : prev.
#[global] Hint Extern 1 (preserves _ (spa_async_request _ _)) =>
  apply ppres_emit : prev.
#[global] Hint Extern 1 (preserves _ (g_io_request _ _)) => apply ppres_emit : prev.

Section prevstate.
Context {K : SysConsts}.

Lemma ppres_g_new_geomf name : preserves prevstate_kept (g_new_geomf name).
Proof. unfold g_new_geomf. ppres. Qed.

Lemma ppres_g_new_consumer gp : preserves prevstate_kept (g_new_consumer gp).
Proof. unfold g_new_consumer. ppres. Qed.

Lemma ppres_g_attach cp pp : preserves prevstate_kept (g_attach cp pp).
Proof. unfold g_attach. ppres. Qed.

Lemma ppres_g_access cp dcr dcw dce : preserves prevstate_kept (g_access cp dcr dcw dce).
Proof. unfold g_access. ppres. Qed.

Lemma ppres_g_detach cp : preserves prevstate_kept (g_detach cp).
Proof. unfold g_detach. ppres. Qed.

Lemma ppres_g_destroy_consumer cp : preserves prevstate_kept (g_destroy_consumer cp).
Proof. unfold g_destroy_consumer. ppres. Qed.

Lemma ppres_g_wither_geom gp : preserves prevstate_kept (g_wither_geom gp).
Proof. unfold g_wither_geom. ppres. Qed.

Lemma ppres_g_destroy_geom gp : preserves prevstate_kept (g_destroy_geom gp).
Proof. unfold g_destroy_geom. ppres. Qed.

Lemma ppres_g_provider_by_name name : preserves prevstate_kept (g_provider_by_name name).
Proof. unfold g_provider_by_name. ppres. Qed.

Hint Resolve ppres_g_new_geomf ppres_g_new_consumer ppres_g_attach ppres_g_access
  ppres_g_detach ppres_g_destroy_consumer ppres_g_wither_geom ppres_g_destroy_geom
  ppres_g_provider_by_name : prev.

Lemma ppres_g_io_getattr cp : preserves prevstate_kept (g_io_getattr cp).
Proof.
  unfold g_io_getattr. ppres.
Qed.

Hint Resolve ppres_g_io_getattr : prev.

Lemma ppres_attrchanged cp attr : preserves prevstate_kept (vdev_geom_attrchanged cp attr).
Proof.
  unfold vdev_geom_attrchanged. ppres.
Qed.

Lemma ppres_find_zfs_vdev_geom l : preserves prevstate_kept (find_zfs_vdev_geom l).
Proof. induction l as [|gp l IH]; cbn [find_zfs_vdev_geom]; ppres. Qed.

Lemma ppres_find_consumer l pp : preserves prevstate_kept (find_consumer l pp).
Proof. induction l as [|cp l IH]; cbn [find_consumer]; ppres. Qed.

Hint Resolve ppres_attrchanged ppres_find_zfs_vdev_geom ppres_find_consumer : prev.

Lemma ppres_attach pp vd : preserves prevstate_kept (vdev_geom_attach pp vd).
Proof.
  unfold vdev_geom_attach.
  ppres.
Qed.

Lemma ppres_detach cp : preserves prevstate_kept (vdev_geom_detach cp).
Proof.
  unfold vdev_geom_detach.
  ppres.
Qed.

Lemma ppres_io_loop fuel cp cmd off offset p size maxio :
  preserves prevstate_kept (vdev_geom_io_loop fuel cp cmd off offset p size maxio).
Proof.
  revert off p size. induction fuel as [|fuel IH]; intros off p size;
    cbn [vdev_geom_io_loop]; ppres.
Qed.

Hint Resolve ppres_io_loop : prev.

Lemma ppres_io cp cmd offset size :
  preserves prevstate_kept (vdev_geom_io cp cmd offset size).
Proof. unfold vdev_geom_io. ppres. Qed.

Hint Resolve ppres_io : prev.

Lemma ppres_read_labels n l labels cp psize ss size pguid vguid :
  preserves prevstate_kept (read_labels n l labels cp psize ss size pguid vguid).
Proof.
  revert l labels pguid vguid. induction n as [|n IH]; intros l labels pguid vguid;
    cbn [read_labels]; ppres.
Qed.

Hint Resolve ppres_read_labels : prev.

Lemma ppres_read_guids cp : preserves prevstate_kept (vdev_geom_read_guids cp).
Proof.
  unfold vdev_geom_read_guids. ppres.
Qed.

Hint Resolve ppres_read_guids ppres_attach ppres_detach : prev.

Lemma ppres_taste_providers l pp zcp vd :
  preserves prevstate_kept (taste_providers l pp zcp vd).
Proof.
  revert pp. induction l as [|p l IH]; intros pp; cbn [taste_providers]; ppres.
Qed.

Hint Resolve ppres_taste_providers : prev.

Lemma ppres_open_by_guids vd : preserves prevstate_kept (vdev_geom_open_by_guids vd).
Proof.
  unfold vdev_geom_open_by_guids, vdev_geom_attach_by_guids.
  ppres.
Qed.

Lemma ppres_open_by_path vd check_guid :
  preserves prevstate_kept (vdev_geom_open_by_path vd check_guid).
Proof.
  unfold vdev_geom_open_by_path.
  ppres.
Qed.

End prevstate.

Section matched.
Context {K : SysConsts}.

Lemma path_alone_kept v v' :
  keep v v' -> vdev_prevstate v' = vdev_prevstate v ->
  path_alone_allowed v' = path_alone_allowed v.
Proof.
  intros (_ & _ & Hspa & _) Hprev. unfold path_alone_allowed. rewrite Hspa, Hprev.
  reflexivity.
Qed.

(** Unless the path alone is allowed, the device the resolution returns
    carries the identity of the vdev or has a sector size that rules the
    check out. *)
Lemma open_resolve_matched vd v w c w1 :
  w_vdevs w !! vd = Some v -> path_alone_allowed v = false ->
  vdev_geom_open_resolve vd w = Some (Some c, w1) ->
  exists pp p,
    w_providers w !! pp = Some p /\ bound_to w1 c pp /\
    (unsupported_sectorsize p = false -> carries_identity p v).
Proof.
  unfold vdev_geom_open_resolve. intros Hv Hno H.
  apply bind_Some in H as (cp & wa & Hpath & H).
  apply bind_Some in H as (cp2 & wb & Hguids & H).
  destruct cp as [c1|].
  { apply ret_inv in Hguids as [-> ->]. apply ret_inv in H as [[= <-] ->].
    eapply open_by_path_checked; eassumption. }
  destruct (fpres_open_by_path _ _ _ _ _ Hpath) as (_ & Hprov & _ & Hvd & _).
  destruct (Hvd vd v Hv) as (va & Hva & Hkeep).
  destruct (ppres_open_by_path _ _ _ _ _ Hpath vd v Hv) as (va' & Hva' & Hprev).
  rewrite Hva in Hva'. injection Hva' as <-.
  destruct cp2 as [c2|].
  - apply ret_inv in H as [[= <-] ->].
    destruct (open_by_guids_matched _ _ _ _ _ Hva Hguids) as (pp & p & Hp & Hb & Hid).
    exists pp, p. rewrite <- Hprov. split; [exact Hp|]. split; [exact Hb|].
    intros _. eapply keep_identity; eassumption.
  - apply bind_Some in H as (vb & wc & [Hvb ->]%vdev_get_inv & H).
    destruct (fpres_open_by_guids _ _ _ _ Hguids) as (_ & _ & _ & Hvd2 & _).
    destruct (Hvd2 vd va Hva) as (vb' & Hvb' & Hkeep2).
    destruct (ppres_open_by_guids _ _ _ _ Hguids vd va Hva) as (vb2 & Hvb2 & Hprev2).
    rewrite Hvb in Hvb', Hvb2. injection Hvb' as <-. injection Hvb2 as <-.
    assert (path_alone_allowed vb = false) as Hnob.
    { rewrite (path_alone_kept va vb Hkeep2 Hprev2),
        (path_alone_kept v va Hkeep Hprev). exact Hno. }
    unfold path_alone_allowed in Hnob. rewrite Hnob in H.
    apply ret_inv in H as [[=] _].
Qed.

(** The claim phase keeps what every consumer is attached to when it keeps
    the consumer. *)
Lemma open_claim_bound vd cp w1 e c w2 :
  vdev_geom_open_claim vd cp w1 = Some ((e, Some c), w2) -> bound_kept w1 w2.
Proof.
  unfold vdev_geom_open_claim. intros H.
  destruct cp as [c0|].
  2:{ apply bind_Some in H as (u & wa & _ & [[=] _]%ret_inv). }
  apply bind_Some in H as (cn & wa & [Hcn ->]%consumer_get_inv & H).
  apply bind_Some in H as (pp & wb & [Hpp ->]%deref_inv & H).
  apply bind_Some in H as (p & wc & [Hp ->]%provider_get_inv & H).
  destruct (_ || _).
  { apply bind_Some in H as (u & wd & _ & H).
    apply bind_Some in H as (u1 & we & _ & [[=] _]%ret_inv). }
  apply bind_Some in H as (v & wd & [Hv ->]%vdev_get_inv & H).
  destruct (_ && _).
  - apply bind_Some in H as (err & we & Hretry & H).
    destruct (negb (err =? 0)).
    { apply bind_Some in H as (u & wf & _ & H).
      apply bind_Some in H as (u1 & wg & _ & [[=] _]%ret_inv). }
    apply ret_inv in H as [_ ->].
    eapply bpres_write_claim_retry. exact Hretry.
  - apply ret_inv in H as [_ ->]. apply bound_kept_refl.
Qed.

(** X21: unless [vdev_geom_open] may fall back on the path alone (the vdev
    was not opened before and no pool configuration is being loaded, or
    the pool is being split), the device a successful open binds the vdev
    to has a label that gives the guid of the pool and the guid of the
    vdev, or the guids of the vdev are both zero. *)
Theorem open_binds_matching_identity (w : world) (vd : nat) (v : vdev_t)
    (path : string) (psize max_psize ashift : nat) (w' : world) :
  w_vdevs w !! vd = Some v ->
  vdev_path v = Some path -> starts_with_slash path = true ->
  path_alone_allowed v = false ->
  vdev_geom_open vd psize max_psize ashift w = Some (0, w') ->
  exists v' c pp p,
    w_vdevs w' !! vd = Some v' /\ vdev_tsd v' = Some c /\
    bound_to w' c pp /\ w_providers w' !! pp = Some p /\
    carries_identity p v.
Proof.
  intros Hv Hpath Hslash Hno Hrun.
  destruct (open_inv _ _ _ _ _ _ _ _ _ Hv Hpath Hslash Hrun)
    as (cp & w1 & [e1 ocp] & w2 & v2 & Hres & Hclaim & Hv2 & Hend).
  cbn [fst snd] in Hend. destruct ocp as [c|].
  2:{ destruct Hend as (<- & _). destruct (open_claim_dropped _ _ _ _ _ Hclaim eq_refl). }
  destruct Hend as (_ & cn & pp & p & Hcn & Hpp & Hp & ->).
  destruct (open_claim_kept _ _ _ _ _ _ Hclaim)
    as (-> & cn' & pp' & p' & Hcn' & Hpp' & Hp' & Hpad & Hp2).
  rewrite Hcn in Hcn'. injection Hcn' as <-.
  rewrite Hpp in Hpp'. injection Hpp' as <-.
  rewrite Hp in Hp'. injection Hp' as <-.
  destruct (open_resolve_matched vd (set_vdev_tsd None v) (open_entry vd v w) c w1)
    as (pp1 & p1 & Hp1 & Hb1 & Hid); [| exact Hno | exact Hres |].
  { unfold open_entry. wsimpl. apply lookup_insert_eq. }
  pose proof (bound_to_kept _ _ _ _ (open_claim_bound _ _ _ _ _ _ Hclaim) Hb1)
    as (cn2 & Hcn2 & Hpp2).
  rewrite Hcn in Hcn2. injection Hcn2 as <-.
  rewrite Hpp in Hpp2. injection Hpp2 as <-.
  destruct (fpres_open_resolve _ _ _ _ Hres) as (_ & Hprov1 & _).
  destruct (fpres_open_claim any_event above_quiet_any _ _ _ _ _ Hclaim)
    as (_ & Hprov2 & _).
  rewrite Hprov2, Hprov1 in Hp. unfold open_entry in Hp1, Hp. wsimpl.
  rewrite Hp1 in Hp. injection Hp as ->.
  eexists. exists c, pp, p. split; [apply lookup_insert_eq|]. wsimpl.
  split; [reflexivity|]. split; [exists cn; auto|].
  split; [rewrite Hprov2, Hprov1; unfold open_entry; wsimpl; exact Hp1|].
  apply Hid. unfold unsupported_sectorsize. rewrite Hp2.
  apply orb_false_intro; [apply Z.ltb_ge; exact Hpad | reflexivity].
Qed.

End matched.

Lemma open_binds_matching_identity_witness :
  exists v' c pp p,
    w_vdevs world_moved_disk_open !! 1%nat = Some v' /\ vdev_tsd v' = Some c /\
    bound_to world_moved_disk_open c pp /\
    w_providers world_moved_disk_open !! pp = Some p /\
    carries_identity (K := freebsd) p (closed_vdev "/dev/ada0" 99).
Proof.
  apply (open_binds_matching_identity (K := freebsd) world_moved_disk 1
           (closed_vdev "/dev/ada0" 99) "/dev/ada0" 100 101 102);
    vm_compute; reflexivity.
Defined.
